(** * Apama correlator log analyzer: the status-line pipeline

    A shallow embedding of [apamax/log_analyzer.py]: the status-line
    extractor ([StatusLinesDictExtractor]), the annotator
    ([StatusLinesAnnotator]), the CSV writer's item formatting
    ([CSVStatusWriter]), the summarizer ([StatusLineSummarizer]) and the
    manager's synchronous publish/subscribe dispatch ([LogAnalysisManager]).

    Python values are a tagged union, Python floats are the kernel's binary64
    floats, insertion-ordered dictionaries are association lists, and a
    handler is a function from the analyzers' state to an outcome (a value or
    a raised exception) and the state it leaves behind. *)

From Stdlib Require Import ZArith List String Ascii Bool Lia Floats QArith Qpower.
Import ListNotations.

Local Open Scope string_scope.
Local Open Scope list_scope.
Local Open Scope Z_scope.

(** ** Exceptions and outcomes *)

Inductive exn : Type :=
| AssertionError
| TypeError
| ValueError
| IndexError
| AttributeError
| ZeroDivisionError
| OverflowError
| KeyError (key : string)
| FormatFailure (column : string) (cause : exn).

Inductive result (A : Type) : Type :=
| Ok (a : A)
| Raise (e : exn).

Arguments Ok {A} a.
Arguments Raise {A} e.

Definition rbind {A B} (r : result A) (k : A -> result B) : result B :=
  match r with
  | Ok a => k a
  | Raise e => Raise e
  end.

Declare Scope result_scope.
Delimit Scope result_scope with res.
Notation "x <- r ;; k" := (rbind r (fun x => k))
  (at level 61, r at next level, right associativity) : result_scope.

Definition is_ok {A} (r : result A) : bool :=
  match r with Ok _ => true | Raise _ => false end.

(** ** Python values *)

Inductive val : Type :=
| VNone
| VBool (b : bool)
| VInt (z : Z)
| VFloat (f : float)
| VStr (s : string).

Definition isinstance_str (v : val) : bool :=
  match v with VStr _ => true | _ => false end.

Definition isinstance_float (v : val) : bool :=
  match v with VFloat _ => true | _ => false end.

(** [bool] is a subclass of [int]. *)
Definition isinstance_int (v : val) : bool :=
  match v with VInt _ | VBool _ => true | _ => false end.

(** ** Insertion-ordered dictionaries *)

Definition adict (V : Type) : Type := list (string * V).

Fixpoint dict_get {V} (d : adict V) (k : string) : option V :=
  match d with
  | [] => None
  | (k', v) :: d' => if String.eqb k k' then Some v else dict_get d' k
  end.

(** [d[k] = v]: an existing key keeps its position, a new key goes last. *)
Fixpoint dict_set {V} (d : adict V) (k : string) (v : V) : adict V :=
  match d with
  | [] => [(k, v)]
  | (k', v') :: d' =>
      if String.eqb k k' then (k', v) :: d' else (k', v') :: dict_set d' k v
  end.

Definition dict_contains {V} (d : adict V) (k : string) : bool :=
  match dict_get d k with Some _ => true | None => false end.

Definition dict_keys {V} (d : adict V) : list string := map fst d.

Definition dict_values {V} (d : adict V) : list V := map snd d.

(** [d.update(other)] *)
Definition dict_update {V} (d other : adict V) : adict V :=
  fold_left (fun acc kv => dict_set acc (fst kv) (snd kv)) other d.

(** A dictionary built from a list of items, as a comprehension or the
    [dict] constructor builds it. *)
Definition dict_of_items {V} (items : list (string * V)) : adict V :=
  dict_update [] items.

(** The dictionaries of status values. *)
Definition dict : Type := adict val.

(** [d[k]], raising [KeyError] on a missing key. *)
Definition dict_item (d : dict) (k : string) : result val :=
  match dict_get d k with
  | Some v => Ok v
  | None => Raise (KeyError k)
  end.

(** ** Numbers

    Python's [int] is [Z]; Python's [float] is IEEE binary64. Mixed
    comparisons are exact, mixed arithmetic converts the [int] operand. *)

Inductive num : Type :=
| NInt (z : Z)
| NFloat (f : float).

Definition as_num (v : val) : option num :=
  match v with
  | VBool b => Some (NInt (if b then 1 else 0))
  | VInt z => Some (NInt z)
  | VFloat f => Some (NFloat f)
  | _ => None
  end.

Definition val_of_num (n : num) : val :=
  match n with NInt z => VInt z | NFloat f => VFloat f end.

(** The nearest binary64 to an integer (ties to even). *)
Definition float_of_Z (z : Z) : float :=
  SF2Prim (binary_normalize prec emax z 0 false).

(** [float(z)]: [OverflowError] when the integer is too large. *)
Definition int_to_float (z : Z) : result float :=
  let f := float_of_Z z in
  if PrimFloat.is_infinity f then Raise OverflowError else Ok f.

Definition num_to_float (n : num) : result float :=
  match n with
  | NInt z => int_to_float z
  | NFloat f => Ok f
  end.

(** The real number a value stands for, or what it is instead. *)
Inductive xreal : Type :=
| XNaN
| XNegInf
| XPosInf
| XFin (q : Q).

(** The rational [(-1)^s * m * 2^e]. *)
Definition dyadic (s : bool) (m : positive) (e : Z) : Q :=
  (inject_Z (if s then Z.neg m else Z.pos m) * Qpower (2 # 1) e)%Q.

Definition exact_of_sf (x : spec_float) : xreal :=
  match x with
  | S754_zero _ => XFin 0
  | S754_infinity s => if s then XNegInf else XPosInf
  | S754_nan => XNaN
  | S754_finite s m e => XFin (dyadic s m e)
  end.

Definition exact_of_float (f : float) : xreal := exact_of_sf (Prim2SF f).

Definition exact (n : num) : xreal :=
  match n with
  | NInt z => XFin (z # 1)
  | NFloat f => exact_of_float f
  end.

(** Comparison of two numbers, [None] when one of them is a NaN. *)
Definition xcompare (a b : xreal) : option comparison :=
  match a, b with
  | XNaN, _ | _, XNaN => None
  | XNegInf, XNegInf => Some Eq
  | XNegInf, _ => Some Lt
  | _, XNegInf => Some Gt
  | XPosInf, XPosInf => Some Eq
  | XPosInf, _ => Some Gt
  | _, XPosInf => Some Lt
  | XFin p, XFin q => Some (Qcompare p q)
  end.

Definition num_lt (a b : num) : bool :=
  match xcompare (exact a) (exact b) with Some Lt => true | _ => false end.

Definition num_eq (a b : num) : bool :=
  match xcompare (exact a) (exact b) with Some Eq => true | _ => false end.

Definition num_le (a b : num) : bool :=
  match xcompare (exact a) (exact b) with
  | Some Lt | Some Eq => true
  | _ => false
  end.

Definition float_is_zero (f : float) : bool := num_eq (NFloat f) (NInt 0).

(** [int / int]: the correctly rounded quotient. *)
Definition int_true_div (a b : Z) : result float :=
  if b =? 0 then Raise ZeroDivisionError
  else if a =? 0 then Ok (SF2Prim (S754_zero (b <? 0)))
  else
    let s := xorb (a <? 0) (b <? 0) in
    let '(q, e, l) := SFdiv_core_binary prec emax (Z.abs a) 0 (Z.abs b) 0 in
    let f := SF2Prim (binary_round_aux prec emax s q e l) in
    if PrimFloat.is_infinity f then Raise OverflowError else Ok f.

Definition num_sub (a b : num) : result num :=
  match a, b with
  | NInt x, NInt y => Ok (NInt (x - y))
  | _, _ =>
      (x <- num_to_float a ;;
       y <- num_to_float b ;;
       Ok (NFloat (PrimFloat.sub x y)))%res
  end.

Definition num_add (a b : num) : result num :=
  match a, b with
  | NInt x, NInt y => Ok (NInt (x + y))
  | _, _ =>
      (x <- num_to_float a ;;
       y <- num_to_float b ;;
       Ok (NFloat (PrimFloat.add x y)))%res
  end.

Definition num_mul (a b : num) : result num :=
  match a, b with
  | NInt x, NInt y => Ok (NInt (x * y))
  | _, _ =>
      (x <- num_to_float a ;;
       y <- num_to_float b ;;
       Ok (NFloat (PrimFloat.mul x y)))%res
  end.

Definition num_truediv (a b : num) : result num :=
  match a, b with
  | NInt x, NInt y => (f <- int_true_div x y ;; Ok (NFloat f))%res
  | _, _ =>
      (x <- num_to_float a ;;
       y <- num_to_float b ;;
       if float_is_zero y then Raise ZeroDivisionError
       else Ok (NFloat (PrimFloat.div x y)))%res
  end.

Definition lift_num2 (op : num -> num -> result num) (a b : val) : result val :=
  match as_num a, as_num b with
  | Some x, Some y => (n <- op x y ;; Ok (val_of_num n))%res
  | _, _ => Raise TypeError
  end.

(** [a + b] (numbers only), [a - b], [a * b], [a / b] *)
Definition py_add : val -> val -> result val := lift_num2 num_add.
Definition py_sub : val -> val -> result val := lift_num2 num_sub.
Definition py_mul : val -> val -> result val := lift_num2 num_mul.
Definition py_truediv : val -> val -> result val := lift_num2 num_truediv.

Fixpoint string_ltb (a b : string) : bool :=
  match a, b with
  | EmptyString, EmptyString => false
  | EmptyString, String _ _ => true
  | String _ _, EmptyString => false
  | String x a', String y b' =>
      if (nat_of_ascii x <? nat_of_ascii y)%nat then true
      else if (nat_of_ascii y <? nat_of_ascii x)%nat then false
      else string_ltb a' b'
  end.

(** [a < b]: numbers compare with numbers, strings with strings. *)
Definition py_lt (a b : val) : result bool :=
  match as_num a, as_num b with
  | Some x, Some y => Ok (num_lt x y)
  | _, _ =>
      match a, b with
      | VStr s, VStr t => Ok (string_ltb s t)
      | _, _ => Raise TypeError
      end
  end.

Definition py_gt (a b : val) : result bool := py_lt b a.

(** [a == b] never raises. *)
Definition py_eq (a b : val) : bool :=
  match as_num a, as_num b with
  | Some x, Some y => num_eq x y
  | _, _ =>
      match a, b with
      | VStr s, VStr t => String.eqb s t
      | VNone, VNone => true
      | _, _ => false
      end
  end.

(** Truth value of an object. *)
Definition truthy (v : val) : bool :=
  match v with
  | VNone => false
  | VBool b => b
  | VInt z => negb (z =? 0)
  | VFloat f => negb (float_is_zero f)
  | VStr s => negb (String.eqb s "")
  end.

(** [int(f)]: truncation towards zero. *)
Definition float_trunc (f : float) : result Z :=
  match Prim2SF f with
  | S754_zero _ => Ok 0
  | S754_infinity _ => Raise OverflowError
  | S754_nan => Raise ValueError
  | S754_finite s m e =>
      let a := match e with
               | Z0 => Z.pos m
               | Z.pos p => Z.pos m * Z.pow_pos 2 p
               | Z.neg p => Z.pos m / Z.pow_pos 2 p
               end in
      Ok (if s then - a else a)
  end.

Definition py_int_of_num (n : num) : result Z :=
  match n with
  | NInt z => Ok z
  | NFloat f => float_trunc f
  end.

Definition py_abs (n : num) : num :=
  match n with
  | NInt z => NInt (Z.abs z)
  | NFloat f => NFloat (PrimFloat.abs f)
  end.

(** ** Strings *)

Definition ch (n : nat) : ascii := ascii_of_nat n.

(** [s.startswith(p)] *)
Fixpoint startswith (s p : string) {struct p} : bool :=
  match p with
  | EmptyString => true
  | String a p' =>
      match s with
      | String b s' => Ascii.eqb a b && startswith s' p'
      | EmptyString => false
      end
  end.

Fixpoint endswith_aux (fuel : nat) (s p : string) : bool :=
  if String.eqb s p then true
  else match fuel, s with
       | S fuel', String _ s' => endswith_aux fuel' s' p
       | _, _ => false
       end.

Definition endswith (s p : string) : bool := endswith_aux (String.length s) s p.

(** [s.find(sub)]: the first position of [sub], or [-1]. *)
Definition find (s sub : string) : Z :=
  match String.index 0 sub s with
  | Some n => Z.of_nat n
  | None => -1
  end.

Fixpoint contains_char (c : ascii) (s : string) : bool :=
  match s with
  | EmptyString => false
  | String x s' => if Ascii.eqb x c then true else contains_char c s'
  end.

Fixpoint drop (n : nat) (s : string) : string :=
  match n, s with
  | O, _ => s
  | S n', String _ s' => drop n' s'
  | S _, EmptyString => EmptyString
  end.

Fixpoint take (n : nat) (s : string) : string :=
  match n, s with
  | O, _ => EmptyString
  | S n', String c s' => String c (take n' s')
  | S _, EmptyString => EmptyString
  end.

(** [s[:i]], a negative [i] counting from the end. *)
Definition slice_to (s : string) (i : Z) : string :=
  if i <? 0 then take (Z.to_nat (Z.max 0 (Z.of_nat (String.length s) + i))) s
  else take (Z.to_nat i) s.

(** [s[i:]] for [i >= 0]. *)
Definition slice_from (s : string) (i : Z) : string := drop (Z.to_nat i) s.

Fixpoint rev_string_aux (s acc : string) : string :=
  match s with
  | EmptyString => acc
  | String c s' => rev_string_aux s' (String c acc)
  end.

Definition rev_string (s : string) : string := rev_string_aux s EmptyString.

(** ASCII white space, as [str.strip], [str.rstrip] and [str.isspace] see
    it. *)
Definition is_space (c : ascii) : bool :=
  let n := nat_of_ascii c in
  ((9 <=? n) && (n <=? 13) || (28 <=? n) && (n <=? 32))%nat.

Fixpoint lstrip (s : string) : string :=
  match s with
  | String c s' => if is_space c then lstrip s' else s
  | EmptyString => EmptyString
  end.

Definition rstrip (s : string) : string := rev_string (lstrip (rev_string s)).

Definition strip (s : string) : string := rstrip (lstrip s).

(** The white space [int] and [float] skip at both ends of an ASCII text:
    that of C's [isspace], which has not the separators 28 to 31. *)
Definition is_cspace (c : ascii) : bool :=
  let n := nat_of_ascii c in
  ((9 <=? n) && (n <=? 13) || (n =? 32))%nat.

Fixpoint lstrip_of (space : ascii -> bool) (s : string) : string :=
  match s with
  | String c s' => if space c then lstrip_of space s' else s
  | EmptyString => EmptyString
  end.

Definition strip_of (space : ascii -> bool) (s : string) : string :=
  rev_string (lstrip_of space (rev_string (lstrip_of space s))).

Definition is_digit (c : ascii) : bool :=
  let n := nat_of_ascii c in ((48 <=? n) && (n <=? 57))%nat.

Definition digit_of (c : ascii) : option Z :=
  if is_digit c then Some (Z.of_nat (nat_of_ascii c) - 48) else None.

Definition is_upper (c : ascii) : bool :=
  let n := nat_of_ascii c in ((65 <=? n) && (n <=? 90))%nat.

Definition lower (c : ascii) : ascii :=
  if is_upper c then ascii_of_nat (nat_of_ascii c + 32) else c.

Fixpoint lower_string (s : string) : string :=
  match s with
  | EmptyString => EmptyString
  | String c s' => String (lower c) (lower_string s')
  end.

(** [s.replace(old, '')] for a non-empty [old]: [skip] counts the characters
    of the occurrence being removed that are still to pass. *)
Fixpoint remove_all_aux (old : string) (skip : nat) (s : string) : string :=
  match s with
  | EmptyString => EmptyString
  | String c s' =>
      match skip with
      | S k => remove_all_aux old k s'
      | O =>
          if startswith s old
          then remove_all_aux old (String.length old - 1) s'
          else String c (remove_all_aux old 0 s')
      end
  end.

Definition remove_all (old s : string) : string := remove_all_aux old 0 s.

(** ** The builtin numeric constructors on strings

    [int(s)] and [float(s)] for ASCII text: surrounding white space, an
    optional sign, decimal digits with single underscores between them; for
    [float] also a fraction, an exponent, and the names [inf], [infinity] and
    [nan]. Both raise [ValueError] on anything else. *)

(** A run of digits after a first digit: [(["_"] digit)*]. *)
Fixpoint digitpart_rest (s : string) : list Z * string :=
  match s with
  | EmptyString => ([], EmptyString)
  | String c s' =>
      match digit_of c with
      | Some d => let (ds, r) := digitpart_rest s' in (d :: ds, r)
      | None =>
          if Ascii.eqb c "_"
          then match s' with
               | String c2 s'' =>
                   match digit_of c2 with
                   | Some d => let (ds, r) := digitpart_rest s'' in (d :: ds, r)
                   | None => ([], s)
                   end
               | EmptyString => ([], s)
               end
          else ([], s)
      end
  end.

(** [digit (["_"] digit)*], or no digits at all. *)
Definition digitpart (s : string) : list Z * string :=
  match s with
  | String c s' =>
      match digit_of c with
      | Some d => let (ds, r) := digitpart_rest s' in (d :: ds, r)
      | None => ([], s)
      end
  | EmptyString => ([], EmptyString)
  end.

Definition Z_of_digits (ds : list Z) : Z :=
  fold_left (fun acc d => 10 * acc + d) ds 0.

Definition split_sign (s : string) : bool * string :=
  match s with
  | String c s' =>
      if Ascii.eqb c "-" then (true, s')
      else if Ascii.eqb c "+" then (false, s')
      else (false, s)
  | EmptyString => (false, EmptyString)
  end.

Definition py_int (s : string) : result Z :=
  let (neg, body) := split_sign (strip_of is_cspace s) in
  match digitpart body with
  | ((_ :: _) as ds, EmptyString) =>
      Ok (if neg then - Z_of_digits ds else Z_of_digits ds)
  | _ => Raise ValueError
  end.

(** The binary64 nearest to [(-1)^neg * m * 10^e]. *)
Definition float_of_decimal (neg : bool) (m e : Z) : float :=
  if m =? 0 then SF2Prim (S754_zero neg)
  else if 0 <=? e
  then SF2Prim (binary_normalize prec emax
                  ((if neg then - m else m) * 10 ^ e) 0 false)
  else
    let '(q, e2, l) := SFdiv_core_binary prec emax m 0 (10 ^ (- e)) 0 in
    SF2Prim (binary_round_aux prec emax neg q e2 l).

(** The optional exponent: [("e" | "E") ["+" | "-"] digitpart]. *)
Definition scan_exponent (s : string) : option (Z * string) :=
  match s with
  | String c s' =>
      if Ascii.eqb (lower c) "e"
      then
        let (neg, body) := split_sign s' in
        match digitpart body with
        | ((_ :: _) as ds, r) =>
            Some (if neg then - Z_of_digits ds else Z_of_digits ds, r)
        | _ => None
        end
      else Some (0, s)
  | EmptyString => Some (0, EmptyString)
  end.

Definition py_float (s : string) : result float :=
  let (neg, body) := split_sign (strip_of is_cspace s) in
  let name := lower_string body in
  if String.eqb name "inf" || String.eqb name "infinity"
  then Ok (if neg then neg_infinity else infinity)
  else if String.eqb name "nan" then Ok nan
  else
    let (ip, r1) := digitpart body in
    let (fp, r2) :=
      match r1 with
      | String c r => if Ascii.eqb c "." then digitpart r else ([], r1)
      | EmptyString => ([], r1)
      end in
    match ip ++ fp with
    | [] => Raise ValueError
    | ds =>
        match scan_exponent r2 with
        | Some (ex, EmptyString) =>
            Ok (float_of_decimal neg (Z_of_digits ds)
                  (ex - Z.of_nat (List.length fp)))
        | _ => Raise ValueError
        end
    end.

(** ** Decimal output *)

Definition digit_char (d : Z) : ascii := ascii_of_nat (Z.to_nat d + 48).

Fixpoint digits_of_pos_aux (fuel : nat) (n : Z) (acc : string) : string :=
  match fuel with
  | O => acc
  | S fuel' =>
      if n <? 10 then String (digit_char n) acc
      else digits_of_pos_aux fuel' (n / 10) (String (digit_char (n mod 10)) acc)
  end.

(** The decimal digits of a natural number ([n >= 0]). *)
Definition digits_of_nat (n : Z) : string :=
  digits_of_pos_aux (S (Z.to_nat (Z.log2 n))) n EmptyString.

(** Groups of three digits from the right, separated by commas. *)
Fixpoint group_thousands_rev (r : string) (count : nat) (acc : string) : string :=
  match r with
  | EmptyString => acc
  | String c r' =>
      match count with
      | 3%nat => group_thousands_rev r' 1 (String c (String "," acc))
      | _ => group_thousands_rev r' (S count) (String c acc)
      end
  end.

Definition group_thousands (digits : string) : string :=
  group_thousands_rev (rev_string digits) 0 EmptyString.

(** [f'{z:,}'] *)
Definition format_int_grouped (z : Z) : string :=
  (if z <? 0 then "-" else "") ++ group_thousands (digits_of_nat (Z.abs z)).

Fixpoint zero_pad (width : nat) (s : string) : string :=
  if (String.length s <? width)%nat
  then match width with
       | O => s
       | S w => String "0" (zero_pad w s)
       end
  else s.

(** [|x| * 1000] rounded to the nearest integer, ties to even. *)
Definition round_half_even (num den : Z) : Z :=
  let q := num / den in
  let r := num mod den in
  match 2 * r ?= den with
  | Lt => q
  | Gt => q + 1
  | Eq => if Z.even q then q else q + 1
  end.

Definition thousandths (m : positive) (e : Z) : Z :=
  match e with
  | Z0 => Z.pos m * 1000
  | Z.pos p => Z.pos m * Z.pow_pos 2 p * 1000
  | Z.neg p => round_half_even (Z.pos m * 1000) (Z.pow_pos 2 p)
  end.

(** [f'{x:.3f}'] and, with [grouped], [f'{x:,.3f}']. *)
Definition format_float_3f (grouped : bool) (f : float) : string :=
  match Prim2SF f with
  | S754_nan => "nan"
  | S754_infinity s => if s then "-inf" else "inf"
  | S754_zero s => (if s then "-" else "") ++ "0.000"
  | S754_finite s m e =>
      let n := thousandths m e in
      let ip := digits_of_nat (n / 1000) in
      (if s then "-" else "")
        ++ (if grouped then group_thousands ip else ip)
        ++ "." ++ zero_pad 3 (digits_of_nat (n mod 1000))
  end.

(** ** Log lines ([LogLine]) *)

Record LogLine : Type := mkLogLine {
  line : string;             (* never empty, trailing white space stripped *)
  lineno : Z;
  message : string;
  rawdetails : option string
}.

(** [LogLine.__init__]: only the message is separated from the prefix. *)
Definition LogLine_init (line : string) (lineno : Z) : LogLine :=
  let i := find line " - " in
  let looks_like_log_line :=
    (0 <=? i) && match line with
                 | String c _ => is_digit c
                 | EmptyString => false
                 end in
  if looks_like_log_line
  then mkLogLine line lineno (slice_from line (i + 3)) (Some (slice_to line i))
  else mkLogLine line lineno line None.

(** One step of a pattern: a character class taken exactly once. *)
Fixpoint match_classes (classes : list (ascii -> bool)) (s : string)
  : option string :=
  match classes, s with
  | [], _ => Some s
  | p :: classes', String c s' =>
      if p c then match_classes classes' s' else None
  | _ :: _, EmptyString => None
  end.

(** A class taken one or more times, greedily: the run and what follows. *)
Fixpoint span (p : ascii -> bool) (s : string) : string * string :=
  match s with
  | String c s' =>
      if p c then let (a, r) := span p s' in (String c a, r)
      else (EmptyString, s)
  | EmptyString => (EmptyString, EmptyString)
  end.

Definition span1 (p : ascii -> bool) (s : string) : option (string * string) :=
  match span p s with
  | (EmptyString, _) => None
  | ar => Some ar
  end.

Definition is_char (c : ascii) : ascii -> bool := fun x => Ascii.eqb x c.
Definition not_char (c : ascii) : ascii -> bool := fun x => negb (Ascii.eqb x c).

Definition timestamp_classes : list (ascii -> bool) :=
  [is_digit; is_digit; is_digit; is_digit; is_char "-";
   is_digit; is_digit; is_char "-"; is_digit; is_digit; is_char " ";
   is_digit; is_digit; is_char ":"; is_digit; is_digit; is_char ":";
   is_digit; is_digit; is_char "."; is_digit; is_digit; is_digit].

Record details : Type := mkDetails {
  datetimestring : string;
  level : string;
  thread : string;
  logcategory : string
}.

Definition no_details : details := mkDetails "" "" "" "".

Definition omap {A B} (o : option A) (k : A -> option B) : option B :=
  match o with Some a => k a | None => None end.

(** [LINE_REGEX.match(line)], groups 0 to 4: a time stamp of the shape
    dddd-dd-dd dd:dd:dd.ddd, a space, one or more capitals (the level), one
    or more spaces, a bracketed thread name without a closing bracket in it,
    a space and a dash, optionally a space and a category in angle brackets,
    a space, and the rest of the line. Every repeated class is followed by a
    character outside it, so the greedy reading is the only one; the
    optional group is tried first. *)
Definition LINE_REGEX_match (l : string)
  : option (string * string * string * option string * string) :=
  omap (match_classes timestamp_classes l) (fun r0 =>
  let g0 := take 23 l in
  omap (match_classes [is_char " "] r0) (fun r1 =>
  omap (span1 is_upper r1) (fun '(g1, r2) =>
  omap (span1 (is_char " ") r2) (fun '(_, r3) =>
  omap (match_classes [is_char "["] r3) (fun r4 =>
  omap (span1 (not_char "]") r4) (fun '(g2, r5) =>
  omap (match_classes [is_char "]"; is_char " "; is_char "-"] r5) (fun r6 =>
  let with_category :=
    omap (match_classes [is_char " "; is_char "<"] r6) (fun r7 =>
    omap (span1 (not_char ">") r7) (fun '(cat, r8) =>
    omap (match_classes [is_char ">"; is_char " "] r8) (fun r9 =>
    Some (g0, g1, g2, Some (" <" ++ cat ++ ">")%string,
          fst (span (not_char (ch 10)) r9))))) in
  match with_category with
  | Some g => Some g
  | None =>
      omap (match_classes [is_char " "] r6) (fun r7 =>
      Some (g0, g1, g2, None, fst (span (not_char (ch 10)) r7)))
  end))))))).

(** [LogLine.getDetails]; the cache it keeps is not modelled. *)
Definition getDetails (l : LogLine) : details :=
  match rawdetails l with
  | Some _ =>
      match LINE_REGEX_match (line l) with
      | Some (g0, g1, g2, g3, _) =>
          mkDetails g0 g1 g2 (match g3 with Some c => strip c | None => "" end)
      | None => no_details
      end
  | None => no_details
  end.

(** *** Dates *)

Definition is_leap (y : Z) : bool :=
  (y mod 4 =? 0) && (negb (y mod 100 =? 0) || (y mod 400 =? 0)).

Definition days_in_month (y m : Z) : Z :=
  if m =? 2 then (if is_leap y then 29 else 28)
  else if (m =? 4) || (m =? 6) || (m =? 9) || (m =? 11) then 30
  else 31.

Definition days_before_year (y : Z) : Z :=
  let y1 := y - 1 in y1 * 365 + y1 / 4 - y1 / 100 + y1 / 400.

Fixpoint days_before_month_aux (n : nat) (y : Z) : Z :=
  match n with
  | O => 0
  | S n' => days_before_month_aux n' y + days_in_month y (Z.of_nat n)
  end.

Definition days_before_month (y m : Z) : Z :=
  days_before_month_aux (Z.to_nat (m - 1)) y.

(** The proleptic Gregorian ordinal of a date; 1 January of year 1 is day 1. *)
Definition ymd2ord (y m d : Z) : Z :=
  days_before_year y + days_before_month y m + d.

Definition number_at (s : string) (start len : nat) : Z :=
  fst (fold_left
         (fun '(acc, seen) c =>
            match digit_of c with
            | Some d => (10 * acc + d, seen)
            | None => (acc, seen)
            end)
         (list_ascii_of_string (take len (drop start s))) (0, tt)).

(** [datetime.strptime(s, '%Y-%m-%d %H:%M:%S.%f')], made aware in UTC, then
    [.timestamp()], for a string of the shape group 0 of [LINE_REGEX] has:
    the microseconds since the epoch divided by 10^6. Any other string, the
    empty one included, and any field out of range is a [ValueError]. *)
Definition strptime_timestamp (s : string) : result float :=
  match match_classes timestamp_classes s with
  | Some EmptyString =>
      let y := number_at s 0 4 in
      let mo := number_at s 5 2 in
      let d := number_at s 8 2 in
      let h := number_at s 11 2 in
      let mi := number_at s 14 2 in
      let sec := number_at s 17 2 in
      let ms := number_at s 20 3 in
      if (1 <=? y) && (1 <=? mo) && (mo <=? 12)
         && (1 <=? d) && (d <=? days_in_month y mo)
         && (h <=? 23) && (mi <=? 59) && (sec <=? 59)
      then
        let days := ymd2ord y mo d - ymd2ord 1970 1 1 in
        let seconds := days * 86400 + h * 3600 + mi * 60 + sec in
        int_true_div (seconds * 1000000 + ms * 1000) 1000000
      else Raise ValueError
  | _ => Raise ValueError
  end.

(** [line.getDateTime().timestamp()] *)
Definition getDateTime_timestamp (l : LogLine) : result float :=
  strptime_timestamp (datetimestring (getDetails l)).

(** ** Status lines: the key=value scanner of [StatusLinesDictExtractor.handleLine]

    The scanner walks the message with an index; here the index is the
    suffix of the message that is still to read. *)

Inductive status_kind : Type :=
| CORRELATOR_STATUS_DICT
| JMS_STATUS_DICT.

Definition status_kind_eqb (a b : status_kind) : bool :=
  match a, b with
  | CORRELATOR_STATUS_DICT, CORRELATOR_STATUS_DICT => true
  | JMS_STATUS_DICT, JMS_STATUS_DICT => true
  | _, _ => false
  end.

(** The double quote character. *)
Definition dquote : ascii := ch 34.

(** [while i < len(m) and m[i] != '=': key += m[i]] *)
Fixpoint scan_key (s : string) : string * string :=
  match s with
  | String c s' =>
      if Ascii.eqb c "="
      then (EmptyString, s)
      else let (k, r) := scan_key s' in (String c k, r)
  | EmptyString => (EmptyString, EmptyString)
  end.

(** [while i < len(m) and m[i] != endchar:] the character is kept
    [if endchar != dquote or m[i] != ','] *)
Fixpoint scan_value (endchar : ascii) (s : string) : string * string :=
  match s with
  | String c s' =>
      if Ascii.eqb c endchar
      then (EmptyString, s)
      else
        let (v, r) := scan_value endchar s' in
        (if negb (Ascii.eqb endchar dquote) || negb (Ascii.eqb c ",")
         then String c v else v, r)
  | EmptyString => (EmptyString, EmptyString)
  end.

(** [while i < len(m) and m[i] in [' ', dquote]: i += 1] *)
Fixpoint skip_separators (s : string) : string :=
  match s with
  | String c s' =>
      if Ascii.eqb c " " || Ascii.eqb c dquote then skip_separators s' else s
  | EmptyString => EmptyString
  end.

(** The [try: ... except Exception: pass] around the numeric constructors. *)
Definition coerce (v : string) : val :=
  let attempt :=
    if contains_char "." v
    then (f <- py_float v ;; Ok (VFloat f))%res
    else (z <- py_int v ;; Ok (VInt z))%res in
  match attempt with
  | Ok x => x
  | Raise _ => VStr v
  end.

(** The outer [while i < len(m)] loop. Every round reads at least the [=]
    sign, so a fuel of the length of the suffix is never used up. *)
Fixpoint scan_fields (fuel : nat) (kind : status_kind) (s : string) (d : dict)
  : result dict :=
  match fuel, s with
  | O, _ => Ok d
  | _, EmptyString => Ok d
  | S fuel', String _ _ =>
      let (key, r1) := scan_key s in
      match r1 with
      | EmptyString => Raise AssertionError          (* assert i < len(m) *)
      | String _ r2 =>                                (* the '=', then i += 1 *)
          match r2 with
          | EmptyString => Raise IndexError           (* m[i] past the end *)
          | String c r3 =>
              let quoted := Ascii.eqb c dquote in
              let endchar := if quoted then dquote else " "%char in
              let (v, r5) := scan_value endchar (if quoted then r3 else r2) in
              let key :=
                if status_kind_eqb kind JMS_STATUS_DICT
                then ("jms." ++ key)%string else key in
              let value :=
                if negb (Ascii.eqb endchar dquote) then coerce v else VStr v in
              scan_fields fuel' kind (skip_separators r5) (dict_set d key value)
          end
      end
  end.

Definition waiting_suffix : string := "<waiting for onApplicationInitialized>".

(** Lines 440 to 483 of [handleLine]: the dictionary of one status line. *)
Definition extract_status (kind : status_kind) (l : LogLine) : result dict :=
  (let m := message l in
   let d := dict_set [] "datetime" (VStr (datetimestring (getDetails l))) in
   seconds <- getDateTime_timestamp l ;;
   let d := dict_set d "seconds" (VFloat seconds) in
   let d := dict_set d "line num" (VInt (lineno l)) in
   let '(d, m) :=
     if status_kind_eqb kind JMS_STATUS_DICT
     then
       if endswith m waiting_suffix
       then (dict_set d "waitingForOnAppInit" (VBool true),
             slice_to m (find m "<waiting for onApplicationInitialized" - 1))
       else (dict_set d "waitingForOnAppInit" (VBool false), m)
     else (d, m) in
   let i := find m ":" in
   if i <? 0 then Raise ValueError                    (* m.index(':') *)
   else
     let rest := slice_from m (i + 2) in
     scan_fields (String.length rest) kind rest d)%res.

(** The kind of status a message holds. The source recognises one prefix;
    the test for a [JMS Status: ] prefix is commented out there. *)
Definition classify (m : string) : option status_kind :=
  if startswith m "Correlator Status: " then Some CORRELATOR_STATUS_DICT
  else None.

(** ** Events, log records and output *)

Definition columns_t : Type := adict string.     (* key -> display name *)
Definition info_t : Type := adict string.        (* the header's extra info *)

Inductive event : Type :=
| EVENT_LINE (l : LogLine)
| EVENT_STATUS_DICT (kind : status_kind) (status : dict)
| EVENT_COMBINED_STATUS_DICT (status : dict) (l : LogLine)
| EVENT_ANNOTATED_STATUS_DICT (status : dict)
| EVENT_ANNOTATED_STATUS_DICT_HEADER (columns : list string) (extraInfo : info_t)
| EVENT_FILE_STARTED (file : string)
| EVENT_FILE_FINISHED (file : string)
| EVENT_PERCENT_COMPLETE (percent : Z)
| EVENT_ALL_FINISHED.

Inductive log_record : Type :=
| LogPublish (e : event)                                   (* debug *)
| LogNoSubscribers (e : event)                             (* debug *)
| LogExtracted (kind : status_kind) (d : dict)             (* debug *)
| LogMissingKey (k : string)                               (* debug *)
| LogStarting (file : string) (bytes : Z)                  (* info *)
| LogListenerFailed (listener : string) (file : string)
    (lineno : Z) (e : event)                               (* log.exception *)
| LogNotEnough (samples : Z) (name : option string).       (* log.warn *)

(** What is written to a file: text, or JSON left unrendered. *)
Inductive written : Type :=
| Text (s : string)
| JsonHeader (extraInfo : info_t)
| JsonStatus (status : dict).

Inductive file_event : Type :=
| FileOpened (name : string)
| FileWrite (name : string) (w : written)
| FileClosed (name : string).

(** ** The analyzers' state *)

Record ExtractorState : Type := mkExtractor {
  jmsenabled : option bool;
  previous : option dict
}.

Record AnnotatorState : Type := mkAnnotator {
  previousStatus : option dict;
  columns : option columns_t
}.

Record SummarizerState : Type := mkSummarizer {
  status_min : option dict;
  status_max : option dict;
  status_sum : option dict;
  status_0pc : option dict;
  status_25pc : option dict;
  status_50pc : option dict;
  status_75pc : option dict;
  status_100pc : option dict;
  laststatus : option dict;
  samples : Z;
  headerArgs : option (list string * info_t)
}.

(** A status writer; [output_stem] is [status] or [summary], the part of
    [output_file] before the log name. *)
Record WriterState : Type := mkWriter {
  output_stem : string;
  writer_columns : option (list string);
  output : option string;           (* the open file, by name *)
  prependComma : bool
}.

Record ManagerState : Type := mkManager {
  statusjson : bool;                (* args.statusjson *)
  currentfile : option string;
  currentname : option string;
  currentfilebytes : Z;
  currentlineno : option Z          (* None: the attribute is not set yet *)
}.

Record State : Type := mkState {
  extractor : ExtractorState;
  annotator : AnnotatorState;
  summarizer : SummarizerState;
  csv_status : WriterState;         (* the registered CSVStatusWriter *)
  json_status : WriterState;        (* the registered JSONStatusWriter *)
  csv_summary : WriterState;        (* the writers handleFileComplete makes *)
  json_summary : WriterState;
  manager : ManagerState;
  logs : list log_record;
  outs : list file_event
}.

Definition set_extractor (x : ExtractorState) (s : State) : State :=
  mkState x (annotator s) (summarizer s) (csv_status s) (json_status s)
    (csv_summary s) (json_summary s) (manager s) (logs s) (outs s).
Definition set_annotator (x : AnnotatorState) (s : State) : State :=
  mkState (extractor s) x (summarizer s) (csv_status s) (json_status s)
    (csv_summary s) (json_summary s) (manager s) (logs s) (outs s).
Definition set_summarizer (x : SummarizerState) (s : State) : State :=
  mkState (extractor s) (annotator s) x (csv_status s) (json_status s)
    (csv_summary s) (json_summary s) (manager s) (logs s) (outs s).
Definition set_csv_status (x : WriterState) (s : State) : State :=
  mkState (extractor s) (annotator s) (summarizer s) x (json_status s)
    (csv_summary s) (json_summary s) (manager s) (logs s) (outs s).
Definition set_json_status (x : WriterState) (s : State) : State :=
  mkState (extractor s) (annotator s) (summarizer s) (csv_status s) x
    (csv_summary s) (json_summary s) (manager s) (logs s) (outs s).
Definition set_csv_summary (x : WriterState) (s : State) : State :=
  mkState (extractor s) (annotator s) (summarizer s) (csv_status s)
    (json_status s) x (json_summary s) (manager s) (logs s) (outs s).
Definition set_json_summary (x : WriterState) (s : State) : State :=
  mkState (extractor s) (annotator s) (summarizer s) (csv_status s)
    (json_status s) (csv_summary s) x (manager s) (logs s) (outs s).
Definition set_manager (x : ManagerState) (s : State) : State :=
  mkState (extractor s) (annotator s) (summarizer s) (csv_status s)
    (json_status s) (csv_summary s) (json_summary s) x (logs s) (outs s).
Definition set_logs (x : list log_record) (s : State) : State :=
  mkState (extractor s) (annotator s) (summarizer s) (csv_status s)
    (json_status s) (csv_summary s) (json_summary s) (manager s) x (outs s).
Definition set_outs (x : list file_event) (s : State) : State :=
  mkState (extractor s) (annotator s) (summarizer s) (csv_status s)
    (json_status s) (csv_summary s) (json_summary s) (manager s) (logs s) x.

(** ** Handlers: state and exceptions

    A handler maps the state to an outcome and the state it leaves; what was
    changed before an exception stays changed. *)

Definition M (S A : Type) : Type := S -> result A * S.

Definition ret {S A} (a : A) : M S A := fun s => (Ok a, s).

Definition raise {S A} (e : exn) : M S A := fun s => (Raise e, s).

Definition bind {S A B} (m : M S A) (k : A -> M S B) : M S B :=
  fun s =>
    match m s with
    | (Ok a, s') => k a s'
    | (Raise e, s') => (Raise e, s')
    end.

Definition gets {S A} (f : S -> A) : M S A := fun s => (Ok (f s), s).

Definition modify {S} (f : S -> S) : M S unit := fun s => (Ok tt, f s).

(** A pure computation that may raise. *)
Definition lift {S A} (r : result A) : M S A := fun s => (r, s).

(** [assert b] *)
Definition assert {S} (b : bool) : M S unit :=
  if b then ret tt else raise AssertionError.

(** A handler of one analyzer run on the whole state. *)
Definition zoom {S T A} (get : S -> T) (set : T -> S -> S) (m : M T A) : M S A :=
  fun s => let (r, t) := m (get s) in (r, set t s).

Declare Scope monad_scope.
Delimit Scope monad_scope with M.
Notation "x <- m ;; k" := (bind m (fun x => k))
  (at level 61, m at next level, right associativity) : monad_scope.
Notation "m ;; k" := (bind m (fun _ => k))
  (at level 61, right associativity) : monad_scope.

(** [for x in xs: body(x)] *)
Fixpoint for_each {S A} (xs : list A) (body : A -> M S unit) : M S unit :=
  match xs with
  | [] => ret tt
  | x :: xs' => (body x ;; for_each xs' body)%M
  end.

Definition log_ (r : log_record) : M State unit :=
  modify (fun s => set_logs (logs s ++ [r]) s).

Definition emit (o : file_event) : M State unit :=
  modify (fun s => set_outs (outs s ++ [o]) s).

(** ** [LogAnalysisManager.publish]

    The listeners of an event are called in the order they subscribed; a
    listener that raises is logged with [log.exception] and the exception
    is raised again. *)

Fixpoint basename_aux (s acc : string) : string :=
  match s with
  | EmptyString => rev_string acc
  | String c s' =>
      if Ascii.eqb c "/" then basename_aux s' EmptyString
      else basename_aux s' (String c acc)
  end.

(** [os.path.basename] *)
Definition basename (s : string) : string := basename_aux s EmptyString.

(** The [except] clause of [publish]. Its message takes the base name of
    the current file and the current line number: without a current file
    [os.path.basename(None)] raises a TypeError, and before the first line
    of the first file the attribute [currentlineno] is missing, which is
    an AttributeError. Nothing is logged then, and that exception is the
    one that leaves [publish]. *)
Definition listener_failed (e : event) (listener : string) (ex : exn)
  : M State unit :=
  fun s =>
    match currentfile (manager s) with
    | None => (Raise TypeError, s)
    | Some file =>
        match currentlineno (manager s) with
        | None => (Raise AttributeError, s)
        | Some n =>
            (Raise ex,
             set_logs (logs s ++ [LogListenerFailed listener (basename file) n e])
               s)
        end
    end.

Definition call_listener (e : event) (l : string * M State unit) : M State unit :=
  fun s =>
    match snd l s with
    | (Ok tt, s') => (Ok tt, s')
    | (Raise ex, s') => listener_failed e (fst l) ex s'
    end.

Definition publish (e : event) (listeners : list (string * M State unit))
  : M State unit :=
  (log_ (LogPublish e) ;;
   match listeners with
   | [] => log_ (LogNoSubscribers e)
   | _ => for_each listeners (call_listener e)
   end)%M.

(** ** [CSVStatusWriter] and [JSONStatusWriter] *)

(** A writer object, by where the state keeps it. *)
Record slot : Type := mkSlot {
  slot_name : string;
  wget : State -> WriterState;
  wset : WriterState -> State -> State
}.

Definition CSV_STATUS : slot := mkSlot "CSVStatusWriter" csv_status set_csv_status.
Definition JSON_STATUS : slot := mkSlot "JSONStatusWriter" json_status set_json_status.
Definition CSV_SUMMARY : slot := mkSlot "CSVStatusWriter" csv_summary set_csv_summary.
Definition JSON_SUMMARY : slot := mkSlot "JSONStatusWriter" json_summary set_json_summary.

Definition new_writer (stem : string) : WriterState :=
  mkWriter stem None None false.

Definition with_output (o : option string) (w : WriterState) : WriterState :=
  mkWriter (output_stem w) (writer_columns w) o (prependComma w).
Definition with_columns (c : option (list string)) (w : WriterState) : WriterState :=
  mkWriter (output_stem w) c (output w) (prependComma w).
Definition with_prependComma (b : bool) (w : WriterState) : WriterState :=
  mkWriter (output_stem w) (writer_columns w) (output w) b.

Definition update_writer (sl : slot) (f : WriterState -> WriterState) : M State unit :=
  modify (fun s => wset sl (f (wget sl s)) s).

(** [BaseAnalyzer.closeFile] *)
Definition closeFile (sl : slot) : M State unit :=
  (w <- gets (wget sl) ;;
   match output w with
   | Some f => emit (FileClosed f) ;; update_writer sl (with_output None)
   | None => ret tt
   end)%M.

(** [BaseAnalyzer.createFile]: the file name is [output_file] with the log
    name in the place of its marker, [ext] being the part after it. *)
Definition createFile (sl : slot) (ext : string) : M State unit :=
  (closeFile sl ;;
   w <- gets (wget sl) ;;
   name <- gets (fun s => currentname (manager s)) ;;
   match name with
   | None => raise TypeError
   | Some n =>
       let f := (output_stem w ++ "_" ++ n ++ ext)%string in
       emit (FileOpened f) ;; update_writer sl (with_output (Some f))
   end)%M.

(** [self.output.write(text)] *)
Definition write (sl : slot) (t : written) : M State unit :=
  (w <- gets (wget sl) ;;
   match output w with
   | Some f => emit (FileWrite f t)
   | None => raise AttributeError
   end)%M.

(** [f'{item:.3f}'] *)
Definition format_3f (item : val) : result string :=
  match item with
  | VFloat f => Ok (format_float_3f false f)
  | VInt z => (f <- int_to_float z ;; Ok (format_float_3f false f))%res
  | VBool b => Ok (format_float_3f false (if b then 1%float else 0%float))
  | VStr _ => Raise ValueError
  | VNone => Raise TypeError
  end.

(** [CSVStatusWriter.formatItem]. The test [item.is_integer] names the
    method without calling it, and a method object is true. *)
Definition formatItem (item : val) (columnDisplayName : string) : result string :=
  let body : result string :=
    match item with
    | VNone => Ok "?"
    | _ =>
        if String.eqb columnDisplayName "seconds" && truthy item
        then format_3f item
        else if String.eqb columnDisplayName "datetime"
        then match item with
             | VStr s => Ok (slice_to s (find s "."))
             | _ => Raise AttributeError
             end
        else
          let is_integer_method := true in
          (item <-
             match item with
             | VFloat f =>
                 if is_integer_method
                    && num_le (NInt 1000) (py_abs (NFloat f))
                 then (z <- float_trunc f ;; Ok (VInt z))
                 else Ok item
             | _ => Ok item
             end ;;
           match item with
           | VInt z => Ok (format_int_grouped z)
           | VBool b => Ok (format_int_grouped (if b then 1 else 0))
           | VFloat f => Ok (format_float_3f true f)
           | VStr s => Ok s
           | VNone => Ok "None"
           end)%res
    end in
  match body with
  | Ok s => Ok s
  | Raise ex => Raise (FormatFailure columnDisplayName ex)
  end.

Fixpoint map_result {A B} (f : A -> result B) (xs : list A) : result (list B) :=
  match xs with
  | [] => Ok []
  | x :: xs' => (y <- f x ;; ys <- map_result f xs' ;; Ok (y :: ys))%res
  end.

Fixpoint join (sep : string) (items : list string) : string :=
  match items with
  | [] => EmptyString
  | [x] => x
  | x :: rest => (x ++ sep ++ join sep rest)%string
  end.

(** [i.replace(dquote, dquote + dquote)] *)
Fixpoint double_quotes (s : string) : string :=
  match s with
  | EmptyString => EmptyString
  | String c s' =>
      if Ascii.eqb c dquote
      then String dquote (String dquote (double_quotes s'))
      else String c (double_quotes s')
  end.

Definition csv_escape (i : string) : string :=
  if contains_char "," i || contains_char dquote i
  then String dquote (double_quotes i ++ String dquote EmptyString)
  else i.

Definition newline : string := String (ch 10) EmptyString.

(** [CSVStatusWriter.writeCSVLine] *)
Definition writeCSVLine (sl : slot) (items : list string) : M State unit :=
  write sl (Text (join "," (map csv_escape items) ++ newline)).

(** [CSVStatusWriter.writeHeader] *)
Definition csv_writeHeader (sl : slot) (columns : list string) (extraInfo : info_t)
  : M State unit :=
  (createFile sl ".csv" ;;
   update_writer sl (with_columns (Some columns)) ;;
   match columns with
   | [] => raise IndexError
   | first :: others =>
       let items := ("# " ++ first)%string :: others in
       let items :=
         match extraInfo with
         | [] => items
         | _ => items ++ ["# metadata: "]
                  ++ map (fun kv => (fst kv ++ "=" ++ snd kv)%string) extraInfo
         end in
       writeCSVLine sl items
   end)%M.

Definition dict_get_default (d : dict) (k : string) (default : val) : val :=
  match dict_get d k with Some v => v | None => default end.

Definition nonempty {A} (o : option (list A)) : bool :=
  match o with Some (_ :: _) => true | _ => false end.

(** [CSVStatusWriter.writeStatus] *)
Definition csv_writeStatus (sl : slot) (status : dict) : M State unit :=
  (w <- gets (wget sl) ;;
   assert (nonempty (writer_columns w)) ;;
   assert (nonempty (Some status)) ;;
   items <- lift (map_result
                    (fun k => formatItem (dict_get_default status k (VStr "?")) k)
                    (match writer_columns w with Some c => c | None => [] end)) ;;
   writeCSVLine sl items)%M.

(** [JSONStatusWriter.writeHeader] *)
Definition json_writeHeader (sl : slot) (extraInfo : info_t) : M State unit :=
  (createFile sl ".json" ;;
   write sl (JsonHeader extraInfo) ;;
   update_writer sl (with_prependComma false))%M.

(** [JSONStatusWriter.writeStatus] *)
Definition json_writeStatus (sl : slot) (status : dict) : M State unit :=
  (assert (nonempty (Some status)) ;;
   w <- gets (wget sl) ;;
   (if prependComma w then write sl (Text ", ") else ret tt) ;;
   write sl (JsonStatus status) ;;
   update_writer sl (with_prependComma true))%M.

(** [JSONStatusWriter.writeFooter] *)
Definition json_writeFooter (sl : slot) : M State unit :=
  (w <- gets (wget sl) ;;
   match output w with
   | Some f =>
       emit (FileWrite f (Text (newline ++ "]}" ++ newline))) ;;
       emit (FileClosed f) ;;
       update_writer sl (with_output None)
   | None => ret tt
   end)%M.

(** ** [StatusLineSummarizer] *)

Definition SM : Type -> Type := M SummarizerState.

Definition summarizer_reset (s : SummarizerState) : SummarizerState :=
  mkSummarizer None None None None None None None None None 0 (headerArgs s).

(** [handleFileStarted] *)
Definition handleFileStarted : SM unit := modify summarizer_reset.

(** [handleAnnotatedStatusHeader] *)
Definition handleAnnotatedStatusHeader (columns : list string) (extraInfo : info_t)
  : SM unit :=
  modify (fun s =>
    mkSummarizer (status_min s) (status_max s) (status_sum s) (status_0pc s)
      (status_25pc s) (status_50pc s) (status_75pc s) (status_100pc s)
      (laststatus s) (samples s) (Some ("statistic" :: columns, extraInfo))).

Definition set_min (d : dict) (s : SummarizerState) : SummarizerState :=
  mkSummarizer (Some d) (status_max s) (status_sum s) (status_0pc s)
    (status_25pc s) (status_50pc s) (status_75pc s) (status_100pc s)
    (laststatus s) (samples s) (headerArgs s).
Definition set_max (d : dict) (s : SummarizerState) : SummarizerState :=
  mkSummarizer (status_min s) (Some d) (status_sum s) (status_0pc s)
    (status_25pc s) (status_50pc s) (status_75pc s) (status_100pc s)
    (laststatus s) (samples s) (headerArgs s).
Definition set_sum (d : dict) (s : SummarizerState) : SummarizerState :=
  mkSummarizer (status_min s) (status_max s) (Some d) (status_0pc s)
    (status_25pc s) (status_50pc s) (status_75pc s) (status_100pc s)
    (laststatus s) (samples s) (headerArgs s).

(** The first status of a file: the four dictionaries it initialises. *)
Definition first_status (status : dict) (s : SummarizerState) : SummarizerState :=
  mkSummarizer (Some status) (Some status)
    (Some (dict_of_items (map (fun kv => (fst kv, VInt 0)) status)))
    (Some status)
    (status_25pc s) (status_50pc s) (status_75pc s) (status_100pc s)
    (laststatus s) (samples s) (headerArgs s).

Definition saw_status (status : dict) (s : SummarizerState) : SummarizerState :=
  mkSummarizer (status_min s) (status_max s) (status_sum s) (status_0pc s)
    (status_25pc s) (status_50pc s) (status_75pc s) (status_100pc s)
    (Some status) (samples s + 1) (headerArgs s).

(** [self.status_x[k]]: subscripting [None] is a [TypeError]. *)
Definition field_item (f : SummarizerState -> option dict) (k : string) : SM val :=
  (d <- gets f ;;
   match d with
   | Some d => lift (dict_item d k)
   | None => raise TypeError
   end)%M.

Definition field_store (f : SummarizerState -> option dict)
  (set : dict -> SummarizerState -> SummarizerState) (k : string) (v : val)
  : SM unit :=
  (d <- gets f ;;
   match d with
   | Some d => modify (set (dict_set d k v))
   | None => raise TypeError
   end)%M.

(** [int(v)] *)
Definition py_int_of (v : val) : result val :=
  match as_num v with
  | Some n => (z <- py_int_of_num n ;; Ok (VInt z))%res
  | None => Raise TypeError
  end.

(** The body of the loop over [status.items()] in [handleAnnotatedStatus]. *)
Definition accumulate (kv : string * val) : SM unit :=
  (let (k, v) := kv in
   if isinstance_str v then ret tt
   else
     mx <- field_item status_max k ;;
     gt <- lift (py_gt v mx) ;;
     (if gt then field_store status_max set_max k v else ret tt) ;;
     mn <- field_item status_min k ;;
     lt <- lift (py_lt v mn) ;;
     (if lt then field_store status_min set_min k v else ret tt) ;;
     if negb (py_eq v (VInt 0))
     then
       first <- field_item status_0pc k ;;
       v <- (if isinstance_float first
             then lift (p <- py_mul (VInt 100000) v ;; py_int_of p)%res
             else ret v) ;;
       total <- field_item status_sum k ;;
       total <- lift (py_add total v) ;;
       field_store status_sum set_sum k total
     else ret tt)%M.

(** [handleAnnotatedStatus] *)
Definition handleAnnotatedStatus (status : dict) : SM unit :=
  (last <- gets laststatus ;;
   (match last with
    | None => modify (first_status status)
    | Some _ => ret tt
    end) ;;
   modify (saw_status status) ;;
   for_each status accumulate)%M.

(** [a or b] on optional dictionaries: [None] and the empty dictionary are false. *)
Definition or_else (a b : option dict) : option dict :=
  if nonempty a then a else b.

(** [handleFilePercentComplete], up to the call of [handleFileComplete]. *)
Definition capture (percent : Z) (s : SummarizerState) : SummarizerState :=
  let s25 := if 25 <=? percent then or_else (status_25pc s) (laststatus s)
             else status_25pc s in
  let s50 := if 50 <=? percent then or_else (status_50pc s) (laststatus s)
             else status_50pc s in
  let s75 := if 75 <=? percent then or_else (status_75pc s) (laststatus s)
             else status_75pc s in
  let s100 := if percent =? 100 then laststatus s else status_100pc s in
  mkSummarizer (status_min s) (status_max s) (status_sum s) (status_0pc s)
    s25 s50 s75 s100 (laststatus s) (samples s) (headerArgs s).

(** [numberOrEmpty] *)
Definition numberOrEmpty (v : val) : val :=
  match v with
  | VNone | VStr _ => VStr ""
  | _ => v
  end.

(** [calcmean], given the sum [v] of the column and its first value. *)
Definition calcmean (samples : Z) (status_0pc : dict) (k : string) (v : val)
  : result val :=
  let first := dict_get_default status_0pc k (VStr "") in
  match v with
  | VNone | VStr _ => Ok (VStr "")
  | _ =>
      if isinstance_str first then Ok (VStr "")
      else
        (first_item <- dict_item status_0pc k ;;
         v <- (if isinstance_float first_item
               then py_truediv v (VFloat 100000%float) else Ok v) ;;
         n <- int_to_float samples ;;
         v <- py_truediv v (VFloat n) ;;
         let v := if py_eq v (VInt 0) then VInt 0 else v in
         match as_num v with
         | Some x =>
             if num_lt (NInt 1000) (py_abs x) && isinstance_int first
             then py_int_of v
             else Ok v
         | None => Raise TypeError
         end)%res
  end.

Fixpoint map_values (f : string -> val -> result val) (d : dict) : result dict :=
  match d with
  | [] => Ok []
  | (k, v) :: d' =>
      (x <- f k v ;; rest <- map_values f d' ;; Ok ((k, x) :: rest))%res
  end.

(** The [rows] of [handleFileComplete]: a display name and a row, or no row
    for the blank separator. *)
Definition summary_rows (s : SummarizerState) : result (list (string * option dict)) :=
  match status_min s, status_max s, status_sum s, status_0pc s with
  | Some mn, Some mx, Some sm, Some first =>
      (mean <- map_values (calcmean (samples s) first) sm ;;
       Ok [("0% (start)", status_0pc s);
           ("25%", status_25pc s);
           ("50%", status_50pc s);
           ("75%", status_75pc s);
           ("100% (end)", status_100pc s);
           ("", None);
           ("min", Some (map (fun kv => (fst kv, numberOrEmpty (snd kv))) mn));
           ("mean", Some mean);
           ("max", Some (map (fun kv => (fst kv, numberOrEmpty (snd kv))) mx))])%res
  | _, _, _, _ => Raise TypeError
  end.

(** The loop that blanks the statistics of the string columns. *)
Definition blank_strings (s : SummarizerState) : SummarizerState :=
  match status_min s, status_max s, status_sum s, status_0pc s with
  | Some mn, Some mx, Some sm, Some first =>
      let blank (d : dict) :=
        fold_left
          (fun d kv =>
             if isinstance_str (snd kv) then dict_set d (fst kv) (VStr "") else d)
          first d in
      set_max (blank mx) (set_min (blank mn) (set_sum (blank sm) s))
  | _, _, _, _ => s
  end.

Definition type_name (v : val) : string :=
  match v with
  | VNone => "NoneType"
  | VBool _ => "bool"
  | VInt _ => "int"
  | VFloat _ => "float"
  | VStr _ => "str"
  end.

(** The text of the exception a failed [a - b] or [prev[k]] carries. *)
Definition sub_exception_text (k : string) (a : val) (b : option val) (e : exn)
  : string :=
  match e, b with
  | KeyError _, _ => "'" ++ k ++ "'"
  | TypeError, Some b =>
      "unsupported operand type(s) for -: '" ++ type_name a
        ++ "' and '" ++ type_name b ++ "'"
  | OverflowError, _ => "int too large to convert to float"
  | _, _ => ""
  end.

(** One cell of a delta row. *)
Definition delta_cell (prev : dict) (k : string) (v : val) : val :=
  if isinstance_str v || String.eqb k "seconds" || String.eqb k "line num"
  then VStr ""
  else
    match (p <- dict_item prev k ;; py_sub v p)%res with
    | Ok x => x
    | Raise ex =>
        VStr ("delta exception: " ++ sub_exception_text k v (dict_get prev k) ex)
    end.

(** The row of differences between a row and the row before it. *)
Definition delta_row (display : string) (status prev : dict) : dict :=
  let before := match dict_get prev "statistic" with
                | Some (VStr s) => s
                | _ => ""
                end in
  fold_left (fun d kv => dict_set d (fst kv) (delta_cell prev (fst kv) (snd kv)))
    status
    [("statistic", VStr ("... delta: " ++ display ++ " - " ++ before))].

Fixpoint dict_remove {V} (d : adict V) (k : string) : adict V :=
  match d with
  | [] => []
  | (k', v) :: d' => if String.eqb k k' then d' else (k', v) :: dict_remove d' k
  end.

(** [d.move_to_end(k, last=False)] for a key that is there. *)
Definition move_to_front {V} (d : adict V) (k : string) : adict V :=
  match dict_get d k with
  | Some v => (k, v) :: dict_remove d k
  | None => d
  end.

Definition contains_string (sub s : string) : bool := 0 <=? find s sub.

(** A row as it is written: the statistic's name first, and no time on the
    rows that are no snapshots. *)
Definition labelled_row (display : string) (status : dict) : dict :=
  let status := dict_set status "statistic" (VStr display) in
  let status :=
    if negb (contains_string "%" display)
    then
      let status := dict_set (dict_set status "datetime" (VStr "")) "seconds" (VStr "") in
      if contains_string "mean" display
      then dict_set status "seconds" (VStr "") else status
    else status in
  move_to_front status "statistic".

(** The loop over [rows.items()] for one writer. *)
Fixpoint write_rows (sl : slot) (writeStatus : dict -> M State unit)
  (rows : list (string * option dict)) (prev : option dict) : M State unit :=
  match rows with
  | [] => ret tt
  | (display, status) :: rest =>
      if String.eqb display ""
      then (write sl (Text newline) ;; write_rows sl writeStatus rest None)%M
      else
        match status with
        | None => raise TypeError
        | Some status =>
            ((match prev with
              | Some ((_ :: _) as p) => writeStatus (delta_row display status p)
              | _ => ret tt
              end) ;;
             let status := labelled_row display status in
             writeStatus status ;;
             write_rows sl writeStatus rest (Some status))%M
        end
  end.

(** [handleFileComplete] *)
Definition handleFileComplete : M State unit :=
  (s <- gets summarizer ;;
   if (samples s <? 2) || negb (nonempty (laststatus s))
      || negb (nonempty (status_100pc s))
   then
     name <- gets (fun st => currentname (manager st)) ;;
     log_ (LogNotEnough (samples s) name)
   else
     rows <- lift (summary_rows s) ;;
     modify (fun st => set_summarizer (blank_strings (summarizer st)) st) ;;
     modify (set_csv_summary (new_writer "status")) ;;
     modify (set_json_summary (new_writer "status")) ;;
     update_writer CSV_SUMMARY (fun w =>
       mkWriter "summary" (writer_columns w) (output w) (prependComma w)) ;;
     match headerArgs s with
     | None => raise AttributeError
     | Some (columns, extraInfo) =>
         csv_writeHeader CSV_SUMMARY columns extraInfo ;;
         write_rows CSV_SUMMARY (csv_writeStatus CSV_SUMMARY) rows None ;;
         update_writer JSON_SUMMARY (fun w =>
           mkWriter "summary" (writer_columns w) (output w) (prependComma w)) ;;
         json_writeHeader JSON_SUMMARY extraInfo ;;
         write_rows JSON_SUMMARY (json_writeStatus JSON_SUMMARY) rows None ;;
         json_writeFooter JSON_SUMMARY
     end)%M.

(** [handleFilePercentComplete] *)
Definition handleFilePercentComplete (percent : Z) : M State unit :=
  (zoom summarizer set_summarizer (modify (capture percent)) ;;
   if percent =? 100 then handleFileComplete else ret tt)%M.

(** ** [StatusLinesAnnotator] *)

Definition COLUMN_DISPLAY_NAMES : columns_t :=
  [("datetime", "datetime");
   ("seconds", "seconds");
   ("line num", "line num");
   ("iq", "iq=queued input");
   ("icq", "icq=queued input public");
   ("oq", "oq=queued output");
   ("rq", "rq=queued route");
   ("runq", "runq=queued ctxs");
   ("nc", "nc=ext+int consumers");
   ("=rx /sec", "rx /sec");
   ("=tx /sec", "tx /sec");
   ("=rt /sec", "rt /sec");
   ("rx", "rx=received");
   ("tx", "tx=sent");
   ("rt", "rt=routed");
   ("sm", "sm=monitor instances");
   ("nctx", "nctx=contexts");
   ("ls", "ls=listeners");
   ("pm", "pm=resident MB");
   ("vm", "vm=virtual MB");
   ("jvm", "jvm=Java MB");
   ("=pm delta MB", "pm delta MB");
   ("=vm delta MB", "vm delta MB");
   ("=jvm delta MB", "jvm delta MB");
   ("si", "si=swap pages read/sec");
   ("so", "so=swap pages written/sec");
   ("lcn", "lcn=slowest ctx");
   ("lcq", "lcq=slowest ctx input queue");
   ("lct", "lct=slowest ctx latency secs");
   ("srn", "srn=slowest consumer/plugin");
   ("srq", "srq=slowest consumer/plugin queue")].

Definition mem (k : string) (keys : list string) : bool :=
  existsb (String.eqb k) keys.

Definition remove_key (k : string) (keys : list string) : list string :=
  filter (fun x => negb (String.eqb k x)) keys.

(** The first loop of [decideColumns], over the table; [allkeys] is the set
    of keys of the status that no column has taken yet. *)
Fixpoint decide_known (table : columns_t) (allkeys : list string)
  (columns : columns_t) : columns_t * list string :=
  match table with
  | [] => (columns, allkeys)
  | (k, name) :: table' =>
      if startswith k "="
      then decide_known table' allkeys (dict_set columns k name)
      else if mem k allkeys
      then decide_known table' (remove_key k allkeys) (dict_set columns k name)
      else decide_known table' allkeys columns
  end.

(** [decideColumns]; the debug line for each absent key is not modelled. *)
Definition decideColumns (status : dict) : columns_t :=
  let (columns, allkeys) :=
    decide_known COLUMN_DISPLAY_NAMES (dict_keys status) [] in
  fold_left
    (fun columns k => if mem k allkeys then dict_set columns k k else columns)
    (dict_keys status) columns.

(** The difference of a field between a status and the one before it. *)
Definition field_delta (status previousStatus : dict) (x : string) : result val :=
  (a <- dict_item status x ;;
   b <- dict_item previousStatus x ;;
   py_sub a b)%res.

(** The value of one column in [annotateStatus]: the body of its loop. *)
Definition column_value (status : dict) (previousStatus : option dict)
  (seconds : val) (k display_name : string) : result val :=
  if startswith k "="
  then
    match previousStatus with
    | None => Ok (VInt 0)
    | Some prev =>
        (prev_seconds <- dict_item prev "seconds" ;;
         if py_eq seconds prev_seconds then Ok (VInt 0)
         else if String.eqb k "=rx /sec"
         then (n <- field_delta status prev "rx" ;;
               dt <- py_sub seconds prev_seconds ;; py_truediv n dt)
         else if String.eqb k "=tx /sec"
         then (n <- field_delta status prev "tx" ;;
               dt <- py_sub seconds prev_seconds ;; py_truediv n dt)
         else if String.eqb k "=rt /sec"
         then (n <- field_delta status prev "rt" ;;
               dt <- py_sub seconds prev_seconds ;; py_truediv n dt)
         else if String.eqb k "=pm delta MB"
         then (n <- field_delta status prev "pm" ;; py_truediv n (VFloat 1024%float))
         else if String.eqb k "=vm delta MB"
         then (n <- field_delta status prev "vm" ;; py_truediv n (VFloat 1024%float))
         else if String.eqb k "=jvm delta MB"
         then (if dict_contains prev "jvm"
               then (n <- field_delta status prev "jvm" ;;
                     py_truediv n (VFloat 1024%float))
               else Ok (VInt (-1)))
         else Raise AssertionError)%res
    end
  else
    let v := dict_get_default status k VNone in
    if mem display_name ["pm=resident MB"; "vm=virtual MB"; "jvm=Java MB"]
    then match v with
         | VNone => Ok VNone
         | _ => py_truediv v (VFloat 1024%float)
         end
    else Ok v.

(** [annotateStatus], with [self.columns] as its first argument. *)
Definition annotateStatus (display : columns_t) (status : dict)
  (previousStatus : option dict) : result dict :=
  (seconds <- dict_item status "seconds" ;;
   fold_left
     (fun acc kn =>
        d <- acc ;;
        v <- column_value status previousStatus seconds (fst kn) (snd kn) ;;
        Ok (dict_set d (snd kn) v))
     display (Ok []))%res.

Definition VERSION_INFO : string := "v3.0.dev/2019-09-12".

(** [getExtraInfoDict] *)
Definition getExtraInfoDict : info_t := [("analyzer", VERSION_INFO)].

(** [fileStarted] *)
Definition fileStarted : M AnnotatorState unit :=
  modify (fun _ => mkAnnotator None None).

(** The listeners of the annotated events, in the order they subscribed:
    the summarizer, the CSV writer and, with [--statusjson], the JSON writer. *)
Definition publish_header (cols : list string) (info : info_t) : M State unit :=
  (json <- gets (fun s => statusjson (manager s)) ;;
   publish (EVENT_ANNOTATED_STATUS_DICT_HEADER cols info)
     ([("StatusLineSummarizer.handleAnnotatedStatusHeader",
        zoom summarizer set_summarizer (handleAnnotatedStatusHeader cols info));
       ("CSVStatusWriter.writeHeader", csv_writeHeader CSV_STATUS cols info)]
      ++ (if json
          then [("JSONStatusWriter.writeHeader", json_writeHeader JSON_STATUS info)]
          else [])))%M.

Definition publish_annotated (status : dict) : M State unit :=
  (json <- gets (fun s => statusjson (manager s)) ;;
   publish (EVENT_ANNOTATED_STATUS_DICT status)
     ([("StatusLineSummarizer.handleAnnotatedStatus",
        zoom summarizer set_summarizer (handleAnnotatedStatus status));
       ("CSVStatusWriter.writeStatus", csv_writeStatus CSV_STATUS status)]
      ++ (if json
          then [("JSONStatusWriter.writeStatus", json_writeStatus JSON_STATUS status)]
          else [])))%M.

Definition set_columns (c : columns_t) (a : AnnotatorState) : AnnotatorState :=
  mkAnnotator (previousStatus a) (Some c).

Definition set_previousStatus (d : dict) (a : AnnotatorState) : AnnotatorState :=
  mkAnnotator (Some d) (columns a).

(** [handleStatusDict] *)
Definition handleStatusDict (status : dict) : M State unit :=
  (assert (nonempty (Some status)) ;;
   a <- gets annotator ;;
   (match columns a with
    | None =>
        let c := decideColumns status in
        modify (fun s => set_annotator (set_columns c (annotator s)) s) ;;
        publish_header (dict_values c) getExtraInfoDict
    | Some _ => ret tt
    end) ;;
   a <- gets annotator ;;
   match columns a with
   | None => raise TypeError
   | Some display =>
       annotatedstatus <- lift (annotateStatus display status (previousStatus a)) ;;
       publish_annotated annotatedstatus ;;
       modify (fun s =>
         set_annotator
           (set_previousStatus (dict_update status annotatedstatus) (annotator s)) s)
   end)%M.

Definition publish_combined (status : dict) (l : LogLine) : M State unit :=
  publish (EVENT_COMBINED_STATUS_DICT status l)
    [("StatusLinesAnnotator.handleStatusDict", handleStatusDict status)].

(** ** [StatusLinesDictExtractor]: pairing the two status streams *)

Definition set_previous (p : option dict) (e : ExtractorState) : ExtractorState :=
  mkExtractor (jmsenabled e) p.

Definition set_jmsenabled (b : option bool) (e : ExtractorState) : ExtractorState :=
  mkExtractor b (previous e).

Definition update_extractor (f : ExtractorState -> ExtractorState) : M State unit :=
  modify (fun s => set_extractor (f (extractor s)) s).

(** Lines 486 to 511 of [handleLine]: what is done with the dictionary [d]
    of a status line of the given kind. The first block answers whether the
    handler has returned. *)
Definition correlate (kind : status_kind) (d : dict) (l : LogLine) : M State unit :=
  (log_ (LogExtracted kind d) ;;
   publish (EVENT_STATUS_DICT kind d) [] ;;
   e <- gets extractor ;;
   returned <-
     match jmsenabled e with
     | None =>
         match previous e with
         | None =>
             update_extractor (set_previous (Some d)) ;; ret true
         | Some p =>
             if status_kind_eqb kind CORRELATOR_STATUS_DICT
             then
               update_extractor (set_jmsenabled (Some false)) ;;
               publish_combined p l ;;
               update_extractor (set_previous None) ;;
               ret false
             else
               update_extractor (set_jmsenabled (Some true)) ;; ret false
         end
     | Some _ => ret false
     end ;;
   if returned : bool then ret tt
   else
     e <- gets extractor ;;
     match jmsenabled e with
     | Some false => publish_combined d l
     | _ =>
         if status_kind_eqb kind JMS_STATUS_DICT
         then
           match previous e with
           | None => raise TypeError             (* combined.update(None) *)
           | Some p =>
               publish_combined (dict_update d p) l ;;
               update_extractor (set_previous None)
           end
         else
           assert (match previous e with None => true | Some _ => false end) ;;
           update_extractor (set_previous (Some d))
     end)%M.

(** [handleLine] *)
Definition handleLine (l : LogLine) : M State unit :=
  match classify (message l) with
  | None => ret tt
  | Some kind =>
      (d <- lift (extract_status kind l) ;;
       match d with
       | [] => ret tt
       | _ => correlate kind d l
       end)%M
  end.

(** ** [LogAnalysisManager] *)

Definition publish_line (l : LogLine) : M State unit :=
  publish (EVENT_LINE l) [("StatusLinesDictExtractor.handleLine", handleLine l)].

Definition publish_file_started (file : string) : M State unit :=
  publish (EVENT_FILE_STARTED file)
    [("StatusLinesAnnotator.fileStarted",
      zoom annotator set_annotator fileStarted);
     ("StatusLineSummarizer.handleFileStarted",
      zoom summarizer set_summarizer handleFileStarted)].

Definition publish_percent (percent : Z) : M State unit :=
  publish (EVENT_PERCENT_COMPLETE percent)
    [("StatusLineSummarizer.handleFilePercentComplete",
      handleFilePercentComplete percent)].

Definition publish_file_finished (file : string) : M State unit :=
  (json <- gets (fun s => statusjson (manager s)) ;;
   publish (EVENT_FILE_FINISHED file)
     (if json
      then [("JSONStatusWriter.writeFooter", json_writeFooter JSON_STATUS)]
      else []))%M.

(** The state [registerDefaultListeners] leaves: every analyzer registered,
    no file started yet, and no line number, which the manager only has
    from the first line it reads. *)
Definition initial_state (statusjson : bool) : State :=
  mkState (mkExtractor None None) (mkAnnotator None None)
    (mkSummarizer None None None None None None None None None 0 None)
    (new_writer "status") (new_writer "status")
    (new_writer "status") (new_writer "status")
    (mkManager statusjson None None 0 None) [] [].

(** [logFileToLogName] *)
Definition logFileToLogName (filename : string) : string :=
  remove_all ".log" (remove_all ".output.log" (basename filename)).

(** A log file: its path, its size in bytes, and the lines that reading it
    in text mode gives, each with its line end. *)
Record InputFile : Type := mkInputFile {
  path : string;
  size : Z;
  content : list string
}.

(** [100.0*charcount / (self.currentfilebytes or -1)] *)
Definition percent_read (charcount bytes : Z) : result val :=
  (p <- py_mul (VFloat 100%float) (VInt charcount) ;;
   py_truediv p (VInt (if bytes =? 0 then -1 else bytes)))%res.

Definition at_least (percent : val) (threshold : Z) : bool :=
  match as_num percent with
  | Some p => num_le (NInt threshold) p
  | None => false
  end.

(** The thresholds passed while reading: [lastpercent] is threaded through. *)
Fixpoint pass_thresholds (percent : val) (thresholds : list Z) (lastpercent : Z)
  : M State Z :=
  match thresholds with
  | [] => ret lastpercent
  | threshold :: rest =>
      if at_least percent threshold && (lastpercent <? threshold)
      then (publish_percent threshold ;; pass_thresholds percent rest threshold)%M
      else pass_thresholds percent rest lastpercent
  end.

Definition set_lineno (n : Z) (m : ManagerState) : ManagerState :=
  mkManager (statusjson m) (currentfile m) (currentname m) (currentfilebytes m)
    (Some n).

(** The loop over the lines of the file. *)
Fixpoint read_lines (lines : list string) (lineno charcount lastpercent : Z)
  : M State Z :=
  match lines with
  | [] => ret lastpercent
  | text :: rest =>
      (let lineno := lineno + 1 in
       let charcount := charcount + Z.of_nat (String.length text) in
       bytes <- gets (fun s => currentfilebytes (manager s)) ;;
       lastpercent <-
         (if (bytes <? 10 * 1000) || (lineno mod 10 =? 0)
          then
            percent <- lift (percent_read charcount bytes) ;;
            pass_thresholds percent [25; 50; 75] lastpercent
          else ret lastpercent) ;;
       modify (fun s => set_manager (set_lineno lineno (manager s)) s) ;;
       let text := rstrip text in
       (if String.eqb text "" then ret tt
        else publish_line (LogLine_init text lineno)) ;;
       read_lines rest lineno charcount lastpercent)%M
  end.

(** [processFile] *)
Definition processFile (f : InputFile) : M State unit :=
  (modify (fun s =>
     set_manager (mkManager (statusjson (manager s)) (Some (path f))
                    (Some (logFileToLogName (path f))) (size f)
                    (currentlineno (manager s))) s) ;;
   log_ (LogStarting (basename (path f)) (size f)) ;;
   publish_file_started (path f) ;;
   publish_percent 0 ;;
   lastpercent <- read_lines (content f) 0 0 0 ;;
   for_each [25; 50; 75; 100]
     (fun threshold =>
        if lastpercent <? threshold then publish_percent threshold else ret tt) ;;
   publish_file_finished (path f) ;;
   modify (fun s =>
     set_manager (mkManager (statusjson (manager s)) None
                    (currentname (manager s)) 0 (Some (-1))) s))%M.

(** [processFiles], up to the final EVENT_ALL_FINISHED, whose listeners
    only close the output files that are still open. *)
Definition processFiles (files : list InputFile) : M State unit :=
  for_each files processFile.



(** ** Sample inputs *)

(** A text between double quotes. *)
Definition quoted (s : string) : string :=
  String dquote (s ++ String dquote EmptyString).

Definition log_prefix (time : string) : string :=
  "2019-04-08 13:23:" ++ time ++ " INFO  [22872] - ".

(** A status line as the correlator logs it, with its line end. *)
Definition status_line (time fields : string) : string :=
  log_prefix time ++ "Correlator Status: " ++ fields ++ newline.

Definition sample_quoted_line : LogLine :=
  LogLine_init
    (log_prefix "32.317" ++ "Correlator Status: sm=1 lcn=" ++ quoted "1,000"
       ++ " vm=1,000")
    7.

(** ** Vocabulary of the properties *)

(** A handler each run of which takes the state [s] to a state related to
    it by [R], whatever the outcome. *)
Definition steps (R : State -> State -> Prop) {A} (m : M State A) : Prop :=
  forall s, R s (snd (m s)).

(** The part of the state a handler leaves as it finds it. *)
Definition keeps {T} (part : State -> T) : State -> State -> Prop :=
  fun s s' => part s' = part s.

(** The log only grows, by records that satisfy [P]. *)
Definition logs_more (P : log_record -> Prop) : State -> State -> Prop :=
  fun s s' => exists new, logs s' = logs s ++ new /\ Forall P new.

Definition is_publish (r : log_record) : bool :=
  match r with LogPublish _ => true | _ => false end.

(** The combined records a log shows as published. *)
Definition combined_published (l : list log_record) : list dict :=
  flat_map (fun r => match r with
                     | LogPublish (EVENT_COMBINED_STATUS_DICT d _) => [d]
                     | _ => []
                     end) l.

(** The annotated records a log shows as published. *)
Definition annotated_published (l : list log_record) : list dict :=
  flat_map (fun r => match r with
                     | LogPublish (EVENT_ANNOTATED_STATUS_DICT d) => [d]
                     | _ => []
                     end) l.

(** The keys of the records [annotateStatus] makes for a column set. *)
Definition display_keys (c : columns_t) : list string :=
  dict_keys (fold_left (fun d kn => dict_set d (snd kn) tt) c []).

(** What the listeners of the annotated events may do: the extractor, the
    annotator and the manager stay as they are, and the log grows by
    records that are no publications. *)
Definition quiet : State -> State -> Prop :=
  fun s s' =>
    extractor s' = extractor s /\ annotator s' = annotator s
    /\ manager s' = manager s
    /\ logs_more (fun r => is_publish r = false) s s'.

(** The writer slots are apart from what [quiet] protects. *)
Definition quiet_slot (sl : slot) : Prop := forall w s, quiet s (wset sl w s).

(** A publication whose listeners are quiet: the log gains the record of
    the publication, then records that are no publications; the extractor,
    the annotator and the manager are as before. *)
Definition published_quietly (e : event) (s s' : State) : Prop :=
  extractor s' = extractor s /\ annotator s' = annotator s
  /\ manager s' = manager s
  /\ exists new, logs s' = logs s ++ LogPublish e :: new
                 /\ Forall (fun r => is_publish r = false) new.

(** The column lists of the headers a log shows as published. *)
Definition headers_published (l : list log_record) : list (list string) :=
  flat_map (fun r => match r with
                     | LogPublish (EVENT_ANNOTATED_STATUS_DICT_HEADER c _) => [c]
                     | _ => []
                     end) l.

(** From [s] to [s'] the annotator has worked with the column set [c]: it
    still has it, and the log has grown by [headers] header publications and
    by annotated records that all have the keys of [c]. *)
Definition annotates_with (c : columns_t) (headers : list (list string))
  (s s' : State) : Prop :=
  columns (annotator s') = Some c
  /\ extractor s' = extractor s
  /\ manager s' = manager s
  /\ exists new,
       logs s' = logs s ++ new
       /\ Forall (fun a => dict_keys a = display_keys c) (annotated_published new)
       /\ headers_published new = headers.

(** The part of [handleStatusDict] after the column set is known. *)
Definition annotate_and_publish (status : dict) : M State unit :=
  (a <- gets annotator ;;
   match columns a with
   | None => raise TypeError
   | Some display =>
       annotatedstatus <- lift (annotateStatus display status (previousStatus a)) ;;
       publish_annotated annotatedstatus ;;
       modify (fun s =>
         set_annotator
           (set_previousStatus (dict_update status annotatedstatus) (annotator s)) s)
   end)%M.


Definition sample_primary_line : LogLine :=
  LogLine_init (log_prefix "10.000" ++ "Correlator Status: sm=1 rx=100 tx=5 rt=0 pm=2048 vm=4096") 1.

Definition sample_secondary_line : LogLine :=
  LogLine_init (log_prefix "10.250" ++ "JMS Status: s=1 r=2") 2.

(** The dictionaries the scanner makes of the two sample lines. *)
Definition sample_primary : dict :=
  match extract_status CORRELATOR_STATUS_DICT sample_primary_line with
  | Ok d => d
  | Raise _ => []
  end.

Definition sample_secondary : dict :=
  match extract_status JMS_STATUS_DICT sample_secondary_line with
  | Ok d => d
  | Raise _ => []
  end.

(** A manager in the middle of a file. *)
Definition sample_state : State :=
  set_manager
    (mkManager false (Some "logs/correlator.log") (Some "correlator") 400
       (Some 2))
    (initial_state false).

(** Two log files of one status line each. *)
Definition sample_file_1 : InputFile :=
  mkInputFile "logs/first.log" 100
    [status_line "10.000" "sm=1 rx=100 tx=5 rt=0 pm=2048 vm=4096"].

Definition sample_file_2 : InputFile :=
  mkInputFile "logs/second.log" 100
    [status_line "50.000" "sm=7 rx=900 tx=6 rt=0 pm=2048 vm=4096"].

(** What a run leaves of the extractor and of the combined publications. *)
Definition combined_since (published : list dict) (s s' : State) : Prop :=
  extractor s' = extractor s
  /\ exists new, logs s' = logs s ++ new /\ combined_published new = published.




(** What [correlate] does before it looks at its own state: two debug
    lines and a publication nobody listens to. *)
Definition extracted (kind : status_kind) (d : dict) (st : State) : State :=
  set_logs (logs st ++ [LogExtracted kind d;
                        LogPublish (EVENT_STATUS_DICT kind d);
                        LogNoSubscribers (EVENT_STATUS_DICT kind d)]) st.





(** Two samples ten seconds apart. *)
Definition sample_status (seconds : float) (rx : Z) : dict :=
  [("seconds", VFloat seconds); ("rx", VInt rx); ("tx", VInt 7); ("rt", VInt 0);
   ("pm", VInt 2048); ("vm", VInt 4096)].

(** The annotation of a status after another one, as [handleStatusDict]
    chains them. *)
Definition annotate_after (first second : dict) : result dict :=
  (let display := decideColumns first in
   a <- annotateStatus display first None ;;
   annotateStatus display second (Some (dict_update first a)))%res.

Definition sample_first : dict := sample_status 10 100.
Definition sample_second : dict := sample_status 20 300.

(** The previous status the annotator keeps after [sample_first]. *)
Definition sample_previous : dict :=
  match annotateStatus (decideColumns sample_first) sample_first None with
  | Ok a => dict_update sample_first a
  | Raise _ => []
  end.

Definition sample_annotated : dict :=
  match annotate_after sample_first sample_second with
  | Ok a => a
  | Raise _ => []
  end.

(** ** The statistics of one column *)

















(** The value of a column in each record. *)
Definition column (k : string) (records : list dict) (values : list val) : Prop :=
  Forall2 (fun r v => dict_get r k = Some v) records values.

(** A dictionary as Python has it: no key twice. *)
Definition well_formed (d : dict) : Prop := NoDup (dict_keys d).




(** Storing a value under a key of a dictionary of the state, or not. *)
Definition stored (b : bool) (d : dict) (k : string) (v : val) : dict :=
  if b then dict_set d k v else d.







(** ** Vocabulary of the manager's events *)

(** The percentages a log shows as published. *)
Definition percent_published (l : list log_record) : list Z :=
  flat_map (fun r => match r with
                     | LogPublish (EVENT_PERCENT_COMPLETE p) => [p]
                     | _ => []
                     end) l.

(** The lines a log shows as published. *)
Definition lines_published (l : list log_record) : list LogLine :=
  flat_map (fun r => match r with
                     | LogPublish (EVENT_LINE x) => [x]
                     | _ => []
                     end) l.

(** The events only the manager publishes. *)
Definition is_manager_event (e : event) : bool :=
  match e with
  | EVENT_LINE _ | EVENT_FILE_STARTED _ | EVENT_FILE_FINISHED _
  | EVENT_PERCENT_COMPLETE _ | EVENT_ALL_FINISHED => true
  | _ => false
  end.

(** A log record that is no publication of a manager's event. *)
Definition from_listener (r : log_record) : Prop :=
  match r with
  | LogPublish e => is_manager_event e = false
  | _ => True
  end.

(** The secondary stream is not enabled. *)
Definition no_secondary (s : State) : Prop :=
  jmsenabled (extractor s) <> Some true.

(** What every listener of a manager's event does: the log grows by records
    that are no publications of manager's events, and a secondary stream
    that was not enabled is not enabled afterwards. *)
Definition listening : State -> State -> Prop :=
  fun s s' =>
    logs_more from_listener s s' /\ (no_secondary s -> no_secondary s').

(** [a] is the beginning of [b]. *)
Definition is_prefix {A} (a b : list A) : Prop := exists c, b = a ++ c.

(** From [s] to [s'] the log has grown by the publications of the
    percentages [percents] and of the lines [lines], with a secondary stream
    not enabled if it was not before. *)
Definition traced (percents : list Z) (lines : list LogLine) (s s' : State)
  : Prop :=
  (no_secondary s -> no_secondary s')
  /\ exists new, logs s' = logs s ++ new
                 /\ percent_published new = percents
                 /\ lines_published new = lines.

(** The lines of a file that are not blank, without their trailing white
    space, each with its number in the file; [lineno] lines came before. *)
Fixpoint numbered_lines (lines : list string) (lineno : Z) : list LogLine :=
  match lines with
  | [] => []
  | text :: rest =>
      (if String.eqb (rstrip text) "" then []
       else [LogLine_init (rstrip text) (lineno + 1)])
        ++ numbered_lines rest (lineno + 1)
  end.

(** The thresholds above [low] and up to [high]. *)
Definition between (low high : Z) : list Z :=
  filter (fun t => (low <? t) && (t <=? high)) [25; 50; 75].

(** The values [lastpercent] takes. *)
Definition is_level (p : Z) : Prop := In p [0; 25; 50; 75].

(** The thresholds above [low], the last one included. *)
Definition above (low : Z) : list Z :=
  filter (fun t => low <? t) [25; 50; 75; 100].

(** The thresholds [pass_thresholds] publishes when no listener fails, and
    the value of [lastpercent] it ends with. *)
Fixpoint passed (percent : val) (thresholds : list Z) (lastpercent : Z)
  : list Z * Z :=
  match thresholds with
  | [] => ([], lastpercent)
  | threshold :: rest =>
      if at_least percent threshold && (lastpercent <? threshold)
      then let (l, last) := passed percent rest threshold in (threshold :: l, last)
      else passed percent rest lastpercent
  end.

(** How a run of a handler ends from the state [s]: [returned] holds of the
    value and the state when it returns, [raised] of the state when it
    raises. *)
Definition ends {A} (m : M State A) (s : State)
  (returned : A -> State -> Prop) (raised : State -> Prop) : Prop :=
  match m s with
  | (Ok a, s') => returned a s'
  | (Raise _, s') => raised s'
  end.

(** Whether the extractor pairs the status lines with a secondary stream. *)
Definition secondary_enabled (s : State) : bool :=
  match jmsenabled (extractor s) with
  | Some true => true
  | _ => false
  end.

(** ** Vocabulary of the output files *)

(** What the JSON writer writes for a list of records: the text of a comma
    before every record but the first. *)
Fixpoint json_records (file : string) (comma : bool) (statuses : list dict)
  : list file_event :=
  match statuses with
  | [] => []
  | status :: rest =>
      (if comma then [FileWrite file (Text ", ")] else [])
        ++ FileWrite file (JsonStatus status) :: json_records file true rest
  end.

(** The life of a JSON status file: the header, the records, the footer. *)
Definition json_file (w : WriterState) (name : string) (info : info_t)
  (statuses : list dict) : list file_event :=
  let file := (output_stem w ++ "_" ++ name ++ ".json")%string in
  (match output w with Some old => [FileClosed old] | None => [] end)
    ++ [FileOpened file; FileWrite file (JsonHeader info)]
    ++ json_records file false statuses
    ++ [FileWrite file (Text (newline ++ "]}" ++ newline)); FileClosed file].

(** The number of times a character is in a string. *)
Fixpoint count_char (c : ascii) (s : string) : nat :=
  match s with
  | EmptyString => O
  | String x s' => (if Ascii.eqb x c then 1 else 0) + count_char c s'
  end.

(** ** Vocabulary of the memory columns *)

(** The display names of the columns that hold kilobytes in the log and
    megabytes in the output. *)
Definition memory_names : list string :=
  ["pm=resident MB"; "vm=virtual MB"; "jvm=Java MB"].

(** The columns of the change of a memory field, each with its field. *)
Definition delta_columns : list (string * string) :=
  [("=pm delta MB", "pm"); ("=vm delta MB", "vm"); ("=jvm delta MB", "jvm")].

(** ** Vocabulary of the text of a number *)

(** Every character of the string passes the test. *)
Fixpoint all_chars (p : ascii -> bool) (s : string) : bool :=
  match s with
  | EmptyString => true
  | String c s' => p c && all_chars p s'
  end.

(** ** Vocabulary of the scanner *)








(** ** Vocabulary of the secondary source *)


(** A log with a correlator status line and then a status line of the
    secondary source. *)
Definition sample_pair_file : InputFile :=
  mkInputFile "logs/pair.log" 200
    [status_line "10.000" "sm=1 rx=100 tx=5 rt=0 pm=2048 vm=4096";
     (log_prefix "10.250" ++ "JMS Status: s=1 r=2" ++ newline)%string].


(** * Properties *)

(** ** The key=value scanner *)

Lemma scan_key_app : forall key r,
  contains_char "=" key = false ->
  scan_key (key ++ String "=" r) = (key, String "=" r).
Proof.
  induction key as [|c key IH]; intros r H; simpl in *.
  - reflexivity.
  - destruct (Ascii.eqb c "=") eqn:E; [discriminate|].
    rewrite (IH r H). reflexivity.
Qed.


(** A quoted value never holds a comma: the scanner drops them. *)
Lemma scan_value_quoted_no_comma : forall s,
  contains_char "," (fst (scan_value dquote s)) = false.
Proof.
  induction s as [|c s IH]; simpl; [reflexivity|].
  destruct (Ascii.eqb c dquote) eqn:E; [reflexivity|].
  destruct (scan_value dquote s) as [v r]. simpl in *.
  destruct (Ascii.eqb c ",") eqn:Ec; simpl; [assumption|].
  rewrite Ec. assumption.
Qed.

Lemma scan_key_length : forall s,
  (String.length (snd (scan_key s)) <= String.length s)%nat.
Proof.
  induction s as [|c s IH]; simpl; [lia|].
  destruct (Ascii.eqb c "="); simpl; [lia|].
  destruct (scan_key s); simpl in *; lia.
Qed.

Lemma scan_value_length : forall endchar s,
  (String.length (snd (scan_value endchar s)) <= String.length s)%nat.
Proof.
  induction s as [|c s IH]; simpl; [lia|].
  destruct (Ascii.eqb c endchar); simpl; [lia|].
  destruct (scan_value endchar s); simpl in *; lia.
Qed.

Lemma skip_separators_length : forall s,
  (String.length (skip_separators s) <= String.length s)%nat.
Proof.
  induction s as [|c s IH]; simpl; [lia|].
  destruct (Ascii.eqb c " " || Ascii.eqb c dquote); simpl; lia.
Qed.

(** The fuel of [scan_fields] is enough: more of it changes nothing. *)
Lemma scan_fields_fuel : forall n kind s d,
  (String.length s <= n)%nat ->
  scan_fields n kind s d = scan_fields (String.length s) kind s d.
Proof.
  induction n as [n IH] using lt_wf_ind. intros kind s d Hn.
  destruct s as [|c s]; [destruct n; reflexivity|].
  destruct n as [|n]; [simpl in Hn; lia|].
  cbn [String.length scan_fields].
  pose proof (scan_key_length (String c s)) as Hk.
  destruct (scan_key (String c s)) as [key r1]. cbn [snd] in Hk.
  destruct r1 as [|e r2]; [reflexivity|].
  destruct r2 as [|x r3]; [reflexivity|].
  cbn [String.length] in Hk, Hn.
  set (src := if Ascii.eqb x dquote then r3 else String x r3).
  assert (Hsrc : (String.length src <= String.length (String x r3))%nat)
    by (subst src; destruct (Ascii.eqb x dquote); cbn [String.length]; lia).
  pose proof (scan_value_length
                (if Ascii.eqb x dquote then dquote else " "%char) src) as Hv.
  destruct (scan_value (if Ascii.eqb x dquote then dquote else " "%char) src)
    as [v r5]. cbn [snd] in Hv.
  pose proof (skip_separators_length r5) as Hs.
  cbn [String.length] in Hsrc.
  rewrite (IH n) by lia.
  symmetry. rewrite (IH (String.length s)) by lia. reflexivity.
Qed.


(** C1 (the code departs from the claim). The claim: a quoted value is
    returned verbatim, commas included, and commas are stripped only from
    unquoted values. The scanner does the opposite: on the status line
    [sm=1 lcn=<dquote>1,000<dquote> vm=1,000] the quoted value loses its
    comma and the unquoted one keeps it (and so stays a string). *)
Theorem C1_quoted_value_loses_commas :
  (d <- extract_status CORRELATOR_STATUS_DICT sample_quoted_line ;;
   Ok (dict_get d "lcn", dict_get d "vm"))%res
  = Ok (Some (VStr "1000"), Some (VStr "1,000")).
Proof. vm_compute. reflexivity. Qed.



(** ** Formatting of CSV items *)

Lemma abs_nan_not_ge : forall f,
  Prim2SF f = S754_nan ->
  num_le (NInt 1000) (py_abs (NFloat f)) = false.
Proof.
  intros f H. unfold num_le, py_abs, exact, exact_of_float.
  rewrite abs_spec. rewrite H. reflexivity.
Qed.

Lemma float_trunc_outcome : forall f,
  num_le (NInt 1000) (py_abs (NFloat f)) = true ->
  (exists z, float_trunc f = Ok z) \/ float_trunc f = Raise OverflowError.
Proof.
  intros f H. unfold float_trunc.
  destruct (Prim2SF f) as [s|s| |s m e] eqn:E.
  - left. eexists. reflexivity.
  - right. reflexivity.
  - rewrite (abs_nan_not_ge f E) in H. discriminate.
  - left. eexists. reflexivity.
Qed.

(** C10 (counterexample). In the seconds column a float of 1000 or more
    keeps its fraction: 1234.56 is written 1234.560, no integer is made of
    it. *)
Lemma C10_seconds_column_keeps_fraction :
  formatItem (VFloat 0x1.34a3d70a3d70ap+10%float) "seconds" = Ok "1234.560".
Proof. vm_compute. reflexivity. Qed.

(** C10 (amended). In every column other than seconds and datetime, a float
    whose absolute value is at least 1000 is turned into an integer by
    truncation and written with thousands separators, whole-valued or not
    (1234.56 is written 1,234); the only floats the conversion refuses are
    the infinities, for which the formatting fails. *)
Theorem C10_large_float_becomes_integer :
  forall (f : float) (column : string),
    String.eqb column "seconds" = false ->
    String.eqb column "datetime" = false ->
    num_le (NInt 1000) (py_abs (NFloat f)) = true ->
    formatItem (VFloat f) column
    = match float_trunc f with
      | Ok z => Ok (format_int_grouped z)
      | Raise ex => Raise (FormatFailure column ex)
      end
    /\ ((exists z, float_trunc f = Ok z) \/ float_trunc f = Raise OverflowError)
    /\ formatItem (VFloat 0x1.34a3d70a3d70ap+10%float) "rx /sec" = Ok "1,234".
Proof.
  intros f column Hs Hd Hge.
  split; [|split].
  - unfold formatItem. rewrite Hs, Hd. cbn [andb]. rewrite Hge.
    destruct (float_trunc f); reflexivity.
  - apply float_trunc_outcome. exact Hge.
  - vm_compute. reflexivity.
Qed.

Lemma C10_large_float_becomes_integer_witness :
  formatItem (VFloat 7000.5%float) "pm=resident MB" = Ok "7,000".
Proof.
  pose proof (C10_large_float_becomes_integer 7000.5%float "pm=resident MB"
                eq_refl eq_refl eq_refl) as [H _].
  rewrite H. vm_compute. reflexivity.
Defined.

(** ** Handlers: basic facts *)

Lemma bind_ok : forall {S A B} (m : M S A) (k : A -> M S B) s a s',
  m s = (Ok a, s') -> bind m k s = k a s'.
Proof. intros. unfold bind. rewrite H. reflexivity. Qed.

Lemma bind_raise : forall {S A B} (m : M S A) (k : A -> M S B) s e s',
  m s = (Raise e, s') -> bind m k s = (Raise e, s').
Proof. intros. unfold bind. rewrite H. reflexivity. Qed.

(** ** The summarizer's guard *)

(** C8. When fewer than two samples were counted for the file, or there is
    no 100% snapshot, [handleFileComplete] returns normally having logged
    one warning: nothing is written and nothing else changes; and the 100%
    checkpoint that calls it on a file with fewer than two samples comes
    back to the manager without an exception and without output. *)
Theorem C8_summary_skipped_with_warning :
  forall st : State,
    samples (summarizer st) < 2
    \/ nonempty (status_100pc (summarizer st)) = false ->
    handleFileComplete st
    = (Ok tt,
       set_logs (logs st ++ [LogNotEnough (samples (summarizer st))
                               (currentname (manager st))]) st)
    /\ (samples (summarizer st) < 2 ->
        fst (publish_percent 100 st) = Ok tt
        /\ outs (snd (publish_percent 100 st)) = outs st).
Proof.
  intros st H.
  assert (G : forall s : State,
             samples (summarizer s) < 2
             \/ nonempty (status_100pc (summarizer s)) = false ->
             handleFileComplete s
             = (Ok tt,
                set_logs (logs s ++ [LogNotEnough (samples (summarizer s))
                                       (currentname (manager s))]) s)).
  { intros s Hs. unfold handleFileComplete, bind, gets. cbn.
    assert (E : (samples (summarizer s) <? 2)
                || negb (nonempty (laststatus (summarizer s)))
                || negb (nonempty (status_100pc (summarizer s))) = true).
    { destruct Hs as [Hs | Hs].
      - apply Z.ltb_lt in Hs. rewrite Hs. reflexivity.
      - rewrite Hs. cbn. apply orb_true_r. }
    rewrite E. reflexivity. }
  split; [apply G; exact H|].
  intros Hlt.
  unfold publish_percent, publish, handleFilePercentComplete.
  cbn [for_each call_listener fst snd bind log_ modify zoom].
  unfold bind, log_, modify, zoom, call_listener. cbn [fst snd].
  rewrite Z.eqb_refl. rewrite G by (left; exact Hlt).
  cbn. split; reflexivity.
Qed.

Lemma C8_summary_skipped_with_warning_witness :
  handleFileComplete (initial_state false)
  = (Ok tt, set_logs [LogNotEnough 0 None] (initial_state false)).
Proof.
  pose proof (C8_summary_skipped_with_warning (initial_state false)) as H.
  destruct H as [H _].
  - left. reflexivity.
  - exact H.
Defined.


(** ** What a handler may change *)

Section Steps.

Variable R : State -> State -> Prop.
Hypothesis R_refl : forall s, R s s.
Hypothesis R_trans : forall a b c, R a b -> R b c -> R a c.

Lemma steps_ret : forall A (a : A), steps R (ret a).
Proof. intros A a s. apply R_refl. Qed.

Lemma steps_raise : forall A e, steps R (@raise State A e).
Proof. intros A e s. apply R_refl. Qed.

Lemma steps_lift : forall A (r : result A), steps R (lift r).
Proof. intros A r s. apply R_refl. Qed.

Lemma steps_gets : forall A (f : State -> A), steps R (gets f).
Proof. intros A f s. apply R_refl. Qed.

Lemma steps_assert : forall b, steps R (assert b).
Proof. intros [|] s; apply R_refl. Qed.

Lemma steps_bind : forall A B (m : M State A) (k : A -> M State B),
  steps R m -> (forall a, steps R (k a)) -> steps R (bind m k).
Proof.
  intros A B m k Hm Hk s. unfold bind.
  specialize (Hm s). destruct (m s) as [[a|e] s1]; cbn [snd] in *.
  - eapply R_trans; [exact Hm | apply Hk].
  - exact Hm.
Qed.

Lemma steps_modify : forall f : State -> State,
  (forall s, R s (f s)) -> steps R (modify f).
Proof. intros f H s. apply H. Qed.

Lemma steps_zoom : forall T A (get : State -> T) (set : T -> State -> State)
    (m : M T A),
  (forall t s, R s (set t s)) -> steps R (zoom get set m).
Proof.
  intros T A get set m H s. unfold zoom.
  destruct (m (get s)) as [r t]. apply H.
Qed.

Lemma steps_for_each : forall A (xs : list A) (body : A -> M State unit),
  (forall x, steps R (body x)) -> steps R (for_each xs body).
Proof.
  intros A xs body H. induction xs as [|x xs IH]; cbn [for_each].
  - apply steps_ret.
  - apply steps_bind; [apply H | intros _; exact IH].
Qed.

Lemma steps_listener_failed : forall e name ex,
  (forall s r, is_publish r = false -> R s (set_logs (logs s ++ [r]) s)) ->
  steps R (listener_failed e name ex).
Proof.
  intros e name ex Hlog s. unfold listener_failed.
  destruct (currentfile (manager s)); [|apply R_refl].
  destruct (currentlineno (manager s)); [|apply R_refl].
  apply Hlog. reflexivity.
Qed.

Lemma steps_call_listener : forall e name (m : M State unit),
  steps R m ->
  (forall s r, is_publish r = false -> R s (set_logs (logs s ++ [r]) s)) ->
  steps R (call_listener e (name, m)).
Proof.
  intros e name m Hm Hlog s. unfold call_listener. cbn [fst snd].
  specialize (Hm s). destruct (m s) as [[[]|ex] s1]; cbn [snd] in *.
  - exact Hm.
  - eapply R_trans; [exact Hm|]. apply steps_listener_failed. exact Hlog.
Qed.

End Steps.

(** The two ways the [except] clause of [publish] ends: its own failure,
    with nothing logged, or the listener's exception, logged. *)
Lemma listener_failed_cases : forall e name ex s,
  (exists ex', listener_failed e name ex s = (Raise ex', s))
  \/ (exists r, is_publish r = false
                /\ listener_failed e name ex s
                   = (Raise ex, set_logs (logs s ++ [r]) s)).
Proof.
  intros e name ex s. unfold listener_failed.
  destruct (currentfile (manager s)); [|left; eauto].
  destruct (currentlineno (manager s)); [|left; eauto].
  right. eexists. split; [|reflexivity]. reflexivity.
Qed.

Lemma keeps_refl : forall T (part : State -> T) s, keeps part s s.
Proof. reflexivity. Qed.

Lemma keeps_trans : forall T (part : State -> T) a b c,
  keeps part a b -> keeps part b c -> keeps part a c.
Proof. unfold keeps. intros. congruence. Qed.

Lemma logs_more_refl : forall P s, logs_more P s s.
Proof. intros P s. exists []. split; [symmetry; apply app_nil_r | constructor]. Qed.

Lemma logs_more_trans : forall P a b c,
  logs_more P a b -> logs_more P b c -> logs_more P a c.
Proof.
  intros P a b c (n1 & E1 & F1) (n2 & E2 & F2).
  exists (n1 ++ n2). split.
  - rewrite E2, E1. symmetry. apply app_assoc.
  - apply Forall_app. split; assumption.
Qed.

Lemma steps_weaken : forall (R R' : State -> State -> Prop) A (m : M State A),
  (forall s s', R s s' -> R' s s') -> steps R m -> steps R' m.
Proof. intros R R' A m H Hm s. apply H, Hm. Qed.

Lemma logs_more_same : forall P s s', logs s' = logs s -> logs_more P s s'.
Proof.
  intros P s s' H. exists []. split; [|constructor].
  rewrite H. symmetry. apply app_nil_r.
Qed.

Ltac quiet_same :=
  unfold quiet; split; [|split; [|split]];
  [reflexivity | reflexivity | reflexivity | apply logs_more_same; reflexivity].

Lemma quiet_refl : forall s, quiet s s.
Proof. intros s. quiet_same. Qed.

Lemma quiet_trans : forall a b c, quiet a b -> quiet b c -> quiet a c.
Proof.
  intros a b c (E1 & A1 & M1 & L1) (E2 & A2 & M2 & L2).
  unfold quiet. split; [|split; [|split]]; try congruence.
  eapply logs_more_trans; eassumption.
Qed.

Lemma quiet_log : forall s r,
  is_publish r = false -> quiet s (set_logs (logs s ++ [r]) s).
Proof.
  intros s r H. unfold quiet. split; [|split; [|split]]; try reflexivity.
  exists [r]. split; [reflexivity|].
  constructor; [exact H | constructor].
Qed.

Lemma quiet_outs : forall s x, quiet s (set_outs x s).
Proof. intros. quiet_same. Qed.

Lemma quiet_summarizer : forall x s, quiet s (set_summarizer x s).
Proof. intros. quiet_same. Qed.

Lemma quiet_slot_CSV_STATUS : quiet_slot CSV_STATUS.
Proof. intros w s. quiet_same. Qed.

Lemma quiet_slot_JSON_STATUS : quiet_slot JSON_STATUS.
Proof. intros w s. quiet_same. Qed.

Ltac quiet_step :=
  lazymatch goal with
  | |- steps quiet (bind _ _) =>
      apply (steps_bind quiet quiet_trans); [|intro]
  | |- steps quiet (ret _) => apply (steps_ret quiet quiet_refl)
  | |- steps quiet (raise _) => apply (steps_raise quiet quiet_refl)
  | |- steps quiet (lift _) => apply (steps_lift quiet quiet_refl)
  | |- steps quiet (gets _) => apply (steps_gets quiet quiet_refl)
  | |- steps quiet (assert _) => apply (steps_assert quiet quiet_refl)
  | |- steps quiet (emit _) =>
      apply steps_modify; intro; apply quiet_outs
  | |- steps quiet (update_writer _ _) =>
      apply steps_modify; intro; auto
  | |- steps quiet (zoom summarizer set_summarizer _) =>
      apply steps_zoom; intros; apply quiet_summarizer
  | |- steps quiet (match ?x with _ => _ end) => destruct x
  end.

Section QuietWriters.

Variable sl : slot.
Hypothesis Hsl : quiet_slot sl.

Lemma quiet_closeFile : steps quiet (closeFile sl).
Proof. unfold closeFile. repeat quiet_step. Qed.

Lemma quiet_createFile : forall ext, steps quiet (createFile sl ext).
Proof.
  intros ext. unfold createFile.
  apply (steps_bind quiet quiet_trans); [apply quiet_closeFile|intro].
  repeat quiet_step.
Qed.

Lemma quiet_write : forall t, steps quiet (write sl t).
Proof. intros t. unfold write. repeat quiet_step. Qed.

Lemma quiet_writeCSVLine : forall items, steps quiet (writeCSVLine sl items).
Proof. intros. apply quiet_write. Qed.

Lemma quiet_csv_writeHeader : forall cols info,
  steps quiet (csv_writeHeader sl cols info).
Proof.
  intros cols info. unfold csv_writeHeader.
  apply (steps_bind quiet quiet_trans); [apply quiet_createFile|intro].
  apply (steps_bind quiet quiet_trans); [quiet_step|intro].
  destruct cols; [quiet_step | apply quiet_writeCSVLine].
Qed.

Lemma quiet_csv_writeStatus : forall status,
  steps quiet (csv_writeStatus sl status).
Proof.
  intros status. unfold csv_writeStatus.
  repeat quiet_step. apply quiet_writeCSVLine.
Qed.

Lemma quiet_json_writeHeader : forall info,
  steps quiet (json_writeHeader sl info).
Proof.
  intros info. unfold json_writeHeader.
  apply (steps_bind quiet quiet_trans); [apply quiet_createFile|intro].
  apply (steps_bind quiet quiet_trans); [apply quiet_write|intro].
  quiet_step.
Qed.

Lemma quiet_json_writeStatus : forall status,
  steps quiet (json_writeStatus sl status).
Proof.
  intros status. unfold json_writeStatus.
  apply (steps_bind quiet quiet_trans); [quiet_step|intro].
  apply (steps_bind quiet quiet_trans); [quiet_step|intro w].
  apply (steps_bind quiet quiet_trans).
  { destruct (prependComma w); [apply quiet_write | quiet_step]. }
  intro. apply (steps_bind quiet quiet_trans); [apply quiet_write|intro].
  quiet_step.
Qed.

End QuietWriters.

(** The listeners of an event, run by [publish] after its own log line. *)
Lemma quiet_listeners : forall e ls,
  Forall (fun l => steps quiet (snd l)) ls ->
  steps quiet (match ls with
               | [] => log_ (LogNoSubscribers e)
               | _ => for_each ls (call_listener e)
               end).
Proof.
  intros e ls H.
  assert (G : steps quiet (for_each ls (call_listener e))).
  { induction H as [|[n m] ls Hm Hls IH]; cbn [for_each].
    - apply (steps_ret quiet quiet_refl).
    - apply (steps_bind quiet quiet_trans); [|intros _; exact IH].
      apply (steps_call_listener quiet quiet_refl quiet_trans); [exact Hm|].
      intros s r Hr. apply quiet_log. exact Hr. }
  destruct ls; [|exact G].
  apply steps_modify. intro s. apply quiet_log. reflexivity.
Qed.

(** What [publish] does: it logs the publication, then runs the listeners. *)
Lemma publish_unfold : forall e ls s,
  publish e ls s
  = (match ls with
     | [] => log_ (LogNoSubscribers e)
     | _ => for_each ls (call_listener e)
     end) (set_logs (logs s ++ [LogPublish e]) s).
Proof. reflexivity. Qed.

Lemma annotated_listeners_quiet : forall status json,
  Forall (fun l : string * M State unit => steps quiet (snd l))
    ([("StatusLineSummarizer.handleAnnotatedStatus",
       zoom summarizer set_summarizer (handleAnnotatedStatus status));
      ("CSVStatusWriter.writeStatus", csv_writeStatus CSV_STATUS status)]
     ++ (if json : bool
         then [("JSONStatusWriter.writeStatus", json_writeStatus JSON_STATUS status)]
         else [])).
Proof.
  intros status json. cbn [app].
  apply Forall_cons; [cbn [snd]; quiet_step|].
  apply Forall_cons;
    [cbn [snd]; apply quiet_csv_writeStatus|].
  destruct json; [|apply Forall_nil].
  apply Forall_cons; [|apply Forall_nil].
  cbn [snd]. apply (quiet_json_writeStatus _ quiet_slot_JSON_STATUS).
Qed.

Lemma header_listeners_quiet : forall cols info json,
  Forall (fun l : string * M State unit => steps quiet (snd l))
    ([("StatusLineSummarizer.handleAnnotatedStatusHeader",
       zoom summarizer set_summarizer (handleAnnotatedStatusHeader cols info));
      ("CSVStatusWriter.writeHeader", csv_writeHeader CSV_STATUS cols info)]
     ++ (if json : bool
         then [("JSONStatusWriter.writeHeader", json_writeHeader JSON_STATUS info)]
         else [])).
Proof.
  intros cols info json. cbn [app].
  apply Forall_cons; [cbn [snd]; quiet_step|].
  apply Forall_cons;
    [cbn [snd]; apply (quiet_csv_writeHeader _ quiet_slot_CSV_STATUS)|].
  destruct json; [|apply Forall_nil].
  apply Forall_cons; [|apply Forall_nil].
  cbn [snd]. apply (quiet_json_writeHeader _ quiet_slot_JSON_STATUS).
Qed.


(** ** Publications of the annotator *)

Lemma publish_quietly : forall e ls s,
  Forall (fun l : string * M State unit => steps quiet (snd l)) ls ->
  published_quietly e s (snd (publish e ls s)).
Proof.
  intros e ls s H. rewrite publish_unfold.
  pose proof (quiet_listeners e ls H (set_logs (logs s ++ [LogPublish e]) s))
    as (E & A & Mg & new & L & F).
  unfold published_quietly. cbn [extractor annotator manager logs set_logs] in *.
  repeat (split; [assumption|]).
  exists new. split; [|exact F].
  rewrite L. rewrite <- app_assoc. reflexivity.
Qed.

Lemma publish_annotated_quietly : forall a s,
  published_quietly (EVENT_ANNOTATED_STATUS_DICT a) s (snd (publish_annotated a s)).
Proof.
  intros a s. unfold publish_annotated, bind, gets.
  apply publish_quietly, annotated_listeners_quiet.
Qed.

Lemma publish_header_quietly : forall cols info s,
  published_quietly (EVENT_ANNOTATED_STATUS_DICT_HEADER cols info) s
    (snd (publish_header cols info s)).
Proof.
  intros cols info s. unfold publish_header, bind, gets.
  apply publish_quietly, header_listeners_quiet.
Qed.

(** ** The keys of an annotated record *)

Lemma dict_keys_set : forall V W (d : adict V) (d' : adict W) k v w,
  dict_keys d = dict_keys d' ->
  dict_keys (dict_set d k v) = dict_keys (dict_set d' k w).
Proof.
  induction d as [|[k1 v1] d IH]; intros [|[k2 v2] d'] k v w H;
    cbn in H; try discriminate; cbn.
  - reflexivity.
  - injection H as Hk Hd. subst k2.
    destruct (String.eqb k k1); cbn; [congruence|].
    f_equal. apply IH. exact Hd.
Qed.

(** The keys of an annotated record are those of its column set: they do
    not depend on the values. *)
Lemma annotateStatus_keys : forall display status prev a,
  annotateStatus display status prev = Ok a ->
  dict_keys a = display_keys display.
Proof.
  intros display status prev a. unfold annotateStatus, display_keys.
  destruct (dict_item status "seconds") as [seconds|]; cbn [rbind]; [|discriminate].
  assert (G : forall (acc : result dict) (u : adict unit) a,
             (forall d, acc = Ok d -> dict_keys d = dict_keys u) ->
             fold_left
               (fun acc kn =>
                  (d <- acc ;;
                   v <- column_value status prev seconds (fst kn) (snd kn) ;;
                   Ok (dict_set d (snd kn) v))%res)
               display acc = Ok a ->
             dict_keys a
             = dict_keys (fold_left (fun d kn => dict_set d (snd kn) tt) display u)).
  { induction display as [|[k n] display IH]; intros acc u a0 Hacc Hfold;
      cbn [fold_left] in *.
    - apply Hacc. exact Hfold.
    - eapply IH; [|exact Hfold].
      intros d Hd. destruct acc as [d0|]; cbn [rbind] in Hd; [|discriminate].
      cbn [fst snd] in Hd.
      destruct (column_value status prev seconds k n); cbn [rbind] in Hd;
        [|discriminate].
      injection Hd as <-. apply dict_keys_set. apply Hacc. reflexivity. }
  apply G. intros d Hd. injection Hd as <-. reflexivity.
Qed.

(** ** The annotator and its column set *)

Lemma annotated_published_app : forall a b,
  annotated_published (a ++ b) = annotated_published a ++ annotated_published b.
Proof. intros. apply flat_map_app. Qed.

Lemma headers_published_app : forall a b,
  headers_published (a ++ b) = headers_published a ++ headers_published b.
Proof. intros. apply flat_map_app. Qed.

Lemma nothing_published : forall new,
  Forall (fun r => is_publish r = false) new ->
  annotated_published new = [] /\ headers_published new = []
  /\ combined_published new = [].
Proof.
  induction 1 as [|r new Hr _ IH]; [repeat split|].
  destruct IH as (A & B & C).
  destruct r; try discriminate; cbn; auto.
Qed.

Lemma annotates_with_trans : forall c h1 h2 s1 s2 s3,
  annotates_with c h1 s1 s2 -> annotates_with c h2 s2 s3 ->
  annotates_with c (h1 ++ h2) s1 s3.
Proof.
  intros c h1 h2 s1 s2 s3 (C1 & E1 & M1 & n1 & L1 & F1 & H1)
    (C2 & E2 & M2 & n2 & L2 & F2 & H2).
  unfold annotates_with.
  split; [exact C2|]. split; [congruence|]. split; [congruence|].
  exists (n1 ++ n2). split; [rewrite L2, L1, app_assoc; reflexivity|].
  split.
  - rewrite annotated_published_app. apply Forall_app. split; assumption.
  - rewrite headers_published_app. congruence.
Qed.

Lemma annotates_with_refl : forall c s,
  columns (annotator s) = Some c -> annotates_with c [] s s.
Proof.
  intros c s H. unfold annotates_with. repeat (split; [auto|]).
  exists []. split; [symmetry; apply app_nil_r|]. split; [constructor|reflexivity].
Qed.

(** A record added to the log that is no annotated record and no header. *)
Lemma annotates_with_log : forall c s r,
  columns (annotator s) = Some c ->
  annotated_published [r] = [] -> headers_published [r] = [] ->
  annotates_with c [] s (set_logs (logs s ++ [r]) s).
Proof.
  intros c s r H Ha Hh. unfold annotates_with. repeat (split; [auto|]).
  exists [r]. split; [reflexivity|]. rewrite Ha, Hh. split; [constructor|reflexivity].
Qed.

Lemma published_quietly_annotated : forall c a s s',
  columns (annotator s) = Some c ->
  dict_keys a = display_keys c ->
  published_quietly (EVENT_ANNOTATED_STATUS_DICT a) s s' ->
  annotates_with c [] s s'.
Proof.
  intros c a s s' Hc Hk (E & A & Mg & new & L & F).
  destruct (nothing_published new F) as (Na & Nh & _).
  unfold annotates_with. split; [congruence|]. split; [exact E|]. split; [exact Mg|].
  exists ([LogPublish (EVENT_ANNOTATED_STATUS_DICT a)] ++ new).
  split; [exact L|].
  rewrite annotated_published_app, headers_published_app, Na, Nh.
  split; [|reflexivity].
  constructor; [exact Hk | constructor].
Qed.

Lemma published_quietly_header : forall c info s s',
  columns (annotator s) = Some c ->
  published_quietly (EVENT_ANNOTATED_STATUS_DICT_HEADER (dict_values c) info) s s' ->
  annotates_with c [dict_values c] s s'.
Proof.
  intros c info s s' Hc (E & A & Mg & new & L & F).
  destruct (nothing_published new F) as (Na & Nh & _).
  unfold annotates_with. split; [congruence|]. split; [exact E|]. split; [exact Mg|].
  exists ([LogPublish (EVENT_ANNOTATED_STATUS_DICT_HEADER (dict_values c) info)]
            ++ new).
  split; [exact L|].
  rewrite annotated_published_app, headers_published_app, Na, Nh.
  split; [constructor|reflexivity].
Qed.

Lemma annotate_and_publish_with : forall c status s,
  columns (annotator s) = Some c ->
  annotates_with c [] s (snd (annotate_and_publish status s)).
Proof.
  intros c status s Hc.
  unfold annotate_and_publish, bind, gets, lift, modify. rewrite Hc.
  destruct (annotateStatus c status (previousStatus (annotator s))) as [a|ex] eqn:Ea;
    cbn [snd]; [|apply annotates_with_refl; exact Hc].
  pose proof (publish_annotated_quietly a s) as Hq.
  apply (published_quietly_annotated c a s _ Hc
           (annotateStatus_keys _ _ _ _ Ea)) in Hq.
  destruct (publish_annotated a s) as [[[]|ex] s3]; cbn [snd] in *; [|exact Hq].
  destruct Hq as (C & E & Mg & new & L & F & H).
  unfold annotates_with. cbn. repeat (split; [assumption|]).
  exists new. repeat split; assumption.
Qed.

Lemma handleStatusDict_known_columns : forall c status s,
  columns (annotator s) = Some c ->
  annotates_with c [] s (snd (handleStatusDict status s)).
Proof.
  intros c status s Hc.
  destruct status as [|kv status];
    [apply annotates_with_refl; exact Hc|].
  change (handleStatusDict (kv :: status) s)
    with (bind (match columns (annotator s) with
                | None =>
                    let c := decideColumns (kv :: status) in
                    bind (modify (fun s => set_annotator (set_columns c (annotator s)) s))
                      (fun _ => publish_header (dict_values c) getExtraInfoDict)
                | Some _ => ret tt
                end)
            (fun _ => annotate_and_publish (kv :: status)) s).
  rewrite Hc. apply annotate_and_publish_with. exact Hc.
Qed.

Lemma handleStatusDict_first : forall status s,
  status <> [] ->
  columns (annotator s) = None ->
  annotates_with (decideColumns status) [dict_values (decideColumns status)]
    s (snd (handleStatusDict status s)).
Proof.
  intros status s Hne Hc.
  destruct status as [|kv status]; [congruence|].
  set (c := decideColumns (kv :: status)).
  set (s1 := set_annotator (set_columns c (annotator s)) s).
  change (handleStatusDict (kv :: status) s)
    with (bind (match columns (annotator s) with
                | None =>
                    bind (modify (fun s => set_annotator (set_columns c (annotator s)) s))
                      (fun _ => publish_header (dict_values c) getExtraInfoDict)
                | Some _ => ret tt
                end)
            (fun _ => annotate_and_publish (kv :: status)) s).
  rewrite Hc. unfold bind at 1. unfold bind at 1. unfold modify at 1.
  fold s1.
  assert (C1 : columns (annotator s1) = Some c) by reflexivity.
  pose proof (published_quietly_header c getExtraInfoDict s1 _ C1
                (publish_header_quietly (dict_values c) getExtraInfoDict s1)) as Hh.
  destruct (publish_header (dict_values c) getExtraInfoDict s1) as [[[]|ex] s2];
    cbn [snd] in *; [|exact Hh].
  pose proof (annotate_and_publish_with c (kv :: status) s2 (proj1 Hh)) as Ha.
  pose proof (annotates_with_trans _ _ _ _ _ _ Hh Ha) as Ht.
  exact Ht.
Qed.

Lemma publish_combined_known_columns : forall c status l s,
  columns (annotator s) = Some c ->
  annotates_with c [] s (snd (publish_combined status l s)).
Proof.
  intros c status l s Hc. unfold publish_combined. rewrite publish_unfold.
  set (s0 := set_logs (logs s ++ [LogPublish (EVENT_COMBINED_STATUS_DICT status l)]) s).
  assert (H0 : annotates_with c [] s s0)
    by (apply annotates_with_log; [exact Hc | reflexivity | reflexivity]).
  assert (C0 : columns (annotator s0) = Some c) by exact Hc.
  pose proof (handleStatusDict_known_columns c status s0 C0) as H1.
  cbn [for_each]. unfold bind, call_listener, ret. cbn [fst snd].
  destruct (handleStatusDict status s0) as [[[]|ex] s1]; cbn [snd] in *.
  - apply (annotates_with_trans c [] [] _ _ _ H0 H1).
  - match goal with
    | |- context [listener_failed ?e ?n ex s1] =>
        destruct (listener_failed_cases e n ex s1)
          as [(ex' & ->)|(r & Hr & ->)]
    end; cbn [snd].
    + apply (annotates_with_trans c [] [] _ _ _ H0 H1).
    + apply (annotates_with_trans c [] [] _ s1 _
               (annotates_with_trans c [] [] _ _ _ H0 H1)).
      destruct r; try discriminate Hr;
        (apply annotates_with_log; [exact (proj1 H1) | reflexivity | reflexivity]).
Qed.

Lemma publish_combined_first : forall status l s,
  status <> [] ->
  columns (annotator s) = None ->
  annotates_with (decideColumns status) [dict_values (decideColumns status)]
    s (snd (publish_combined status l s)).
Proof.
  intros status l s Hne Hc. unfold publish_combined. rewrite publish_unfold.
  set (c := decideColumns status).
  set (s0 := set_logs (logs s ++ [LogPublish (EVENT_COMBINED_STATUS_DICT status l)]) s).
  assert (C0 : columns (annotator s0) = None) by exact Hc.
  pose proof (handleStatusDict_first status s0 Hne C0) as H1. fold c in H1.
  assert (H1' : annotates_with c [dict_values c] s (snd (handleStatusDict status s0))).
  { destruct H1 as (C & E & Mg & new & L & F & H).
    unfold annotates_with. repeat (split; [assumption|]).
    exists ([LogPublish (EVENT_COMBINED_STATUS_DICT status l)] ++ new).
    split; [rewrite L; subst s0; cbn [logs set_logs]; rewrite <- app_assoc; reflexivity|].
    rewrite annotated_published_app, headers_published_app. cbn [app].
    split; assumption. }
  clear H1.
  cbn [for_each]. unfold bind, call_listener, ret. cbn [fst snd].
  destruct (handleStatusDict status s0) as [[[]|ex] s1]; cbn [snd] in *.
  - exact H1'.
  - match goal with
    | |- context [listener_failed ?e ?n ex s1] =>
        destruct (listener_failed_cases e n ex s1)
          as [(ex' & ->)|(r & Hr & ->)]
    end; cbn [snd].
    + exact H1'.
    + rewrite <- (app_nil_r [dict_values c]).
      apply (annotates_with_trans c _ [] _ s1 _ H1').
      destruct r; try discriminate Hr;
        (apply annotates_with_log; [exact (proj1 H1') | reflexivity | reflexivity]).
Qed.

Lemma for_each_known_columns : forall c l statuses s,
  columns (annotator s) = Some c ->
  annotates_with c [] s
    (snd (for_each statuses (fun status => publish_combined status l) s)).
Proof.
  intros c l statuses. induction statuses as [|status statuses IH]; intros s Hc.
  - apply annotates_with_refl. exact Hc.
  - cbn [for_each]. unfold bind.
    pose proof (publish_combined_known_columns c status l s Hc) as H1.
    destruct (publish_combined status l s) as [[[]|ex] s1]; cbn [snd] in *.
    + apply (annotates_with_trans c [] [] _ s1 _ H1). apply IH. exact (proj1 H1).
    + exact H1.
Qed.

(** C9. Within one file the column set is decided once, from the first
    combined record after the file start: whatever the outcome of handling
    the records of the file, the annotator ends with the column set of the
    first record, exactly one header was published (with that column set),
    and every annotated record published has exactly the keys of that
    column set; and the file-start event leaves the column set undecided. *)
Theorem C9_column_set_decided_once_per_file :
  forall (first : dict) (others : list dict) (l : LogLine) (st : State),
    first <> [] ->
    columns (annotator st) = None ->
    let st' := snd (for_each (first :: others)
                      (fun status => publish_combined status l) st) in
    let c := decideColumns first in
    (columns (annotator st') = Some c
     /\ exists new,
          logs st' = logs st ++ new
          /\ Forall (fun a => dict_keys a = display_keys c) (annotated_published new)
          /\ headers_published new = [dict_values c])
    /\ forall file s,
         columns (annotator (snd (publish_file_started file s))) = None.
Proof.
  intros first others l st Hne Hc st' c. split.
  - assert (H : annotates_with c [dict_values c] st st').
    { subst st'. cbn [for_each]. unfold bind.
      pose proof (publish_combined_first first l st Hne Hc) as H1. fold c in H1.
      destruct (publish_combined first l st) as [[[]|ex] s1]; cbn [snd] in *;
        [|exact H1].
      rewrite <- (app_nil_r [dict_values c]).
      apply (annotates_with_trans c _ [] _ s1 _ H1).
      apply for_each_known_columns. exact (proj1 H1). }
    destruct H as (C & _ & _ & new & L & F & H).
    split; [exact C|]. exists new. repeat split; assumption.
  - intros file s. reflexivity.
Qed.

Lemma C9_column_set_decided_once_per_file_witness :
  columns (annotator
             (snd (for_each [sample_first; sample_second]
                     (fun status => publish_combined status sample_primary_line)
                     sample_state)))
  = Some (decideColumns sample_first).
Proof.
  refine (proj1 (proj1 (C9_column_set_decided_once_per_file
                          sample_first [sample_second] sample_primary_line
                          sample_state _ _))).
  - intros H. discriminate H.
  - reflexivity.
Defined.


(** ** The extractor: pairing the two streams *)

Lemma combined_published_app : forall a b,
  combined_published (a ++ b) = combined_published a ++ combined_published b.
Proof. intros. apply flat_map_app. Qed.

Lemma combined_since_trans : forall p1 p2 s1 s2 s3,
  combined_since p1 s1 s2 -> combined_since p2 s2 s3 ->
  combined_since (p1 ++ p2) s1 s3.
Proof.
  intros p1 p2 s1 s2 s3 (E1 & n1 & L1 & C1) (E2 & n2 & L2 & C2).
  split; [congruence|]. exists (n1 ++ n2).
  split; [rewrite L2, L1, app_assoc; reflexivity|].
  rewrite combined_published_app. congruence.
Qed.

Lemma published_quietly_not_combined : forall e s s',
  combined_published [LogPublish e] = [] ->
  published_quietly e s s' -> combined_since [] s s'.
Proof.
  intros e s s' He (E & _ & _ & new & L & F).
  split; [exact E|]. exists ([LogPublish e] ++ new). split; [exact L|].
  rewrite combined_published_app, He.
  apply (nothing_published new F).
Qed.

Lemma combined_since_same : forall s s',
  extractor s' = extractor s -> logs s' = logs s -> combined_since [] s s'.
Proof.
  intros s s' E L. split; [exact E|]. exists []. split; [|reflexivity].
  rewrite L. symmetry. apply app_nil_r.
Qed.

Lemma annotate_and_publish_not_combined : forall status s,
  combined_since [] s (snd (annotate_and_publish status s)).
Proof.
  intros status s. unfold annotate_and_publish, bind, gets, lift, modify, raise.
  destruct (columns (annotator s)) as [c|]; cbn [snd];
    [|apply combined_since_same; reflexivity].
  destruct (annotateStatus c status (previousStatus (annotator s))) as [a|ex];
    cbn [snd]; [|apply combined_since_same; reflexivity].
  pose proof (published_quietly_not_combined
                (EVENT_ANNOTATED_STATUS_DICT a) s _ eq_refl
                (publish_annotated_quietly a s)) as Hq.
  destruct (publish_annotated a s) as [[[]|ex] s3]; cbn [snd] in *; [|exact Hq].
  destruct Hq as (E & new & L & C). split; [exact E|]. exists new. split; assumption.
Qed.

Lemma handleStatusDict_not_combined : forall status s,
  combined_since [] s (snd (handleStatusDict status s)).
Proof.
  intros status s.
  destruct status as [|kv status]; [apply combined_since_same; reflexivity|].
  change (handleStatusDict (kv :: status) s)
    with (bind (match columns (annotator s) with
                | None =>
                    let c := decideColumns (kv :: status) in
                    bind (modify (fun s => set_annotator (set_columns c (annotator s)) s))
                      (fun _ => publish_header (dict_values c) getExtraInfoDict)
                | Some _ => ret tt
                end)
            (fun _ => annotate_and_publish (kv :: status)) s).
  destruct (columns (annotator s)) as [c|].
  - apply annotate_and_publish_not_combined.
  - cbv zeta. set (c := decideColumns (kv :: status)).
    unfold bind at 1. unfold bind at 1. unfold modify at 1.
    set (s1 := set_annotator (set_columns c (annotator s)) s).
    pose proof (published_quietly_not_combined
                  (EVENT_ANNOTATED_STATUS_DICT_HEADER (dict_values c) getExtraInfoDict)
                  s1 _ eq_refl
                  (publish_header_quietly (dict_values c) getExtraInfoDict s1)) as Hh.
    assert (Hh' : combined_since [] s (snd (publish_header (dict_values c) getExtraInfoDict s1)))
      by exact Hh.
    clear Hh.
    destruct (publish_header (dict_values c) getExtraInfoDict s1) as [[[]|ex] s2];
      cbn [snd] in *; [|exact Hh'].
    apply (combined_since_trans [] [] _ _ _ Hh').
    apply annotate_and_publish_not_combined.
Qed.

(** A combined publication: the one record in the log, the extractor as
    before. *)
Lemma publish_combined_once : forall status l s,
  combined_since [status] s (snd (publish_combined status l s)).
Proof.
  intros status l s. unfold publish_combined. rewrite publish_unfold.
  set (s0 := set_logs (logs s ++ [LogPublish (EVENT_COMBINED_STATUS_DICT status l)]) s).
  assert (H0 : combined_since [status] s s0).
  { split; [reflexivity|]. eexists. split; reflexivity. }
  pose proof (handleStatusDict_not_combined status s0) as H1.
  cbn [for_each]. unfold bind, call_listener, ret. cbn [fst snd].
  destruct (handleStatusDict status s0) as [[[]|ex] s1]; cbn [snd] in *.
  - apply (combined_since_trans [status] [] _ _ _ H0 H1).
  - match goal with
    | |- context [listener_failed ?e ?n ex s1] =>
        destruct (listener_failed_cases e n ex s1)
          as [(ex' & ->)|(r & Hr & ->)]
    end; cbn [snd].
    + apply (combined_since_trans [status] [] _ _ _ H0 H1).
    + apply (combined_since_trans [status] [] _ s1 _
               (combined_since_trans [status] [] _ _ _ H0 H1)).
      split; [reflexivity|]. exists [r]. split; [reflexivity|].
      destruct r; try discriminate Hr; reflexivity.
Qed.

(** ** Merging dictionaries *)

Lemma dict_get_set_same : forall V (d : adict V) k v,
  dict_get (dict_set d k v) k = Some v.
Proof.
  induction d as [|[k1 v1] d IH]; intros k v; cbn.
  - rewrite String.eqb_refl. reflexivity.
  - destruct (String.eqb k k1) eqn:E; cbn; rewrite E; [reflexivity|apply IH].
Qed.

Lemma dict_get_set_other : forall V (d : adict V) k k' v,
  String.eqb k' k = false ->
  dict_get (dict_set d k v) k' = dict_get d k'.
Proof.
  induction d as [|[k1 v1] d IH]; intros k k' v H; cbn.
  - rewrite H. reflexivity.
  - destruct (String.eqb k k1) eqn:E; cbn.
    + apply String.eqb_eq in E. subst k1. rewrite H. reflexivity.
    + destruct (String.eqb k' k1); [reflexivity|]. apply IH. exact H.
Qed.

Lemma dict_get_none_not_in : forall V (d : adict V) k,
  dict_get d k = None -> ~ In k (dict_keys d).
Proof.
  induction d as [|[k1 v1] d IH]; intros k H; cbn in *; [tauto|].
  destruct (String.eqb k k1) eqn:E; [discriminate|].
  apply String.eqb_neq in E. intros [F|F]; [congruence|]. exact (IH k H F).
Qed.




Lemma correlate_unfold : forall kind d l st,
  correlate kind d l st
  = bind (gets extractor)
      (fun e =>
         bind (match jmsenabled e with
               | None =>
                   match previous e with
                   | None => bind (update_extractor (set_previous (Some d)))
                               (fun _ => ret true)
                   | Some p =>
                       if status_kind_eqb kind CORRELATOR_STATUS_DICT
                       then
                         bind (update_extractor (set_jmsenabled (Some false)))
                           (fun _ => bind (publish_combined p l)
                              (fun _ => bind (update_extractor (set_previous None))
                                 (fun _ => ret false)))
                       else bind (update_extractor (set_jmsenabled (Some true)))
                              (fun _ => ret false)
                   end
               | Some _ => ret false
               end)
           (fun returned : bool =>
              if returned then ret tt
              else
                bind (gets extractor)
                  (fun e =>
                     match jmsenabled e with
                     | Some false => publish_combined d l
                     | _ =>
                         if status_kind_eqb kind JMS_STATUS_DICT
                         then
                           match previous e with
                           | None => raise TypeError
                           | Some p =>
                               bind (publish_combined (dict_update d p) l)
                                 (fun _ => update_extractor (set_previous None))
                           end
                         else
                           bind (assert (match previous e with
                                         | None => true
                                         | Some _ => false
                                         end))
                             (fun _ => update_extractor (set_previous (Some d)))
                     end)))
      (extracted kind d st).
Proof.
  intros. unfold correlate, extracted, publish, log_, modify, bind at 1 2 3 4.
  cbn [logs set_logs]. repeat rewrite <- app_assoc. reflexivity.
Qed.

(** ** C2 *)

(** C2 (the code departs from the claim). The claim: the correlator's state
    is reset at the start of every file. The extractor subscribes to no
    file-start event: publishing it leaves the extractor as it was; and
    after a first file with one status line, the record of that file is
    still pending when the second file starts, and is published, first,
    among the combined records of the second file. *)
Theorem C2_extractor_state_survives_file_start :
  (forall file st, extractor (snd (publish_file_started file st)) = extractor st)
  /\ (let st1 := snd (processFile sample_file_1 (initial_state false)) in
      let st2 := snd (processFile sample_file_2 st1) in
      combined_published (logs st1) = []
      /\ map (fun d => dict_get d "datetime")
           (match previous (extractor
                              (snd (publish_file_started (path sample_file_2) st1)))
            with Some d => [d] | None => [] end)
         = [Some (VStr "2019-04-08 13:23:10.000")]
      /\ map (fun d => dict_get d "datetime") (combined_published (logs st2))
         = [Some (VStr "2019-04-08 13:23:10.000");
            Some (VStr "2019-04-08 13:23:50.000")]).
Proof.
  split.
  - intros file st. reflexivity.
  - vm_compute. repeat split.
Qed.


(** ** Binary64 subtraction: a zero difference means equal operands *)
























(** ** The rate columns *)

Lemma rbind_raise_fold : forall A B (f : result A -> B -> result A) e l,
  (forall b, f (Raise e) b = Raise e) -> fold_left f l (Raise e) = Raise e.
Proof.
  intros A B f e l H. induction l as [|b l IH]; cbn; [reflexivity|].
  rewrite H. exact IH.
Qed.

Lemma pair_string_dec : forall x y : string * string, {x = y} + {x <> y}.
Proof. decide equality; apply string_dec. Qed.

(** The value an annotated record has under a display name that one
    column has: the value of that column. *)
Lemma annotateStatus_value : forall display status prev a k name,
  annotateStatus display status prev = Ok a ->
  In (k, name) display ->
  (forall k', In (k', name) display -> k' = k) ->
  exists seconds v,
    dict_item status "seconds" = Ok seconds
    /\ column_value status prev seconds k name = Ok v
    /\ dict_get a name = Some v.
Proof.
  intros display status prev a k name. unfold annotateStatus.
  destruct (dict_item status "seconds") as [seconds|] eqn:Es; cbn [rbind];
    [|discriminate].
  intros Hfold Hin Huniq. exists seconds.
  set (step := fun (acc : result dict) (kn : string * string) =>
                 (d <- acc ;;
                  v <- column_value status prev seconds (fst kn) (snd kn) ;;
                  Ok (dict_set d (snd kn) v))%res) in *.
  assert (G : forall display acc a,
             fold_left step display acc = Ok a ->
             (forall k', In (k', name) display -> k' = k) ->
             (In (k, name) display ->
              exists v, column_value status prev seconds k name = Ok v
                        /\ dict_get a name = Some v)
             /\ (~ In (k, name) display ->
                 exists d, acc = Ok d /\ dict_get a name = dict_get d name)).
  { clear. induction display as [|[k1 n1] display IH]; intros acc a Hfold Huniq.
    - cbn in Hfold. split; [intros []|]. intros _. exists a. split; [exact Hfold|reflexivity].
    - cbn [fold_left] in Hfold.
      destruct (IH _ _ Hfold (fun k' H => Huniq k' (or_intror H))) as [I1 I2].
      assert (Dec : In (k, name) display \/ ~ In (k, name) display).
      { destruct (in_dec pair_string_dec (k, name) display); [left|right]; assumption. }
      destruct Dec as [Hi|Hn].
      + split; [intros _; exact (I1 Hi)|]. intros Hc. exfalso. apply Hc. right. exact Hi.
      + destruct (I2 Hn) as (d' & Hd' & Hget).
        unfold step in Hd' at 1. destruct acc as [d|]; cbn [rbind fst snd] in Hd';
          [|discriminate].
        destruct (column_value status prev seconds k1 n1) as [v1|] eqn:Ev;
          cbn [rbind] in Hd'; [|discriminate].
        injection Hd' as <-.
        split.
        * intros [Heq|Hi]; [|contradiction]. injection Heq as -> ->.
          exists v1. split; [exact Ev|]. rewrite Hget. apply dict_get_set_same.
        * intros Hc. exists d. split; [reflexivity|]. rewrite Hget.
          apply dict_get_set_other. apply String.eqb_neq. intros <-.
          assert (Ek : k1 = k) by (apply Huniq; left; reflexivity).
          subst k1. apply Hc. left. reflexivity. }
  destruct (G display (Ok []) a Hfold Huniq) as [G1 _].
  destruct (G1 Hin) as (v & Hv & Hg). exists v. repeat split; assumption.
Qed.


















(** ** The summarizer: statistics of a column *)








Lemma dict_get_stored_other : forall b d k k' v,
  k' <> k -> dict_get (stored b d k v) k' = dict_get d k'.
Proof.
  intros [|] d k k' v H; cbn [stored]; [|reflexivity].
  apply dict_get_set_other. apply String.eqb_neq. exact H.
Qed.








Lemma dict_get_absent : forall V (d : adict V) k,
  ~ In k (dict_keys d) -> dict_get d k = None.
Proof.
  induction d as [|[k1 v1] d IH]; intros k H; cbn in *; [reflexivity|].
  destruct (String.eqb k k1) eqn:E.
  - apply String.eqb_eq in E. subst k1. tauto.
  - apply IH. tauto.
Qed.








(** ** The order of the numbers *)










(** ** The fold of a column *)








(** ** The running sum *)














(** ** The rows of the summary *)




















(** * Further properties of the code *)

(** ** The scanner of the status lines *)

Lemma dict_keys_set_in : forall V (d : adict V) k v x,
  In x (dict_keys (dict_set d k v)) -> x = k \/ In x (dict_keys d).
Proof.
  induction d as [|[k1 v1] d IH]; intros k v x H; cbn in H.
  - destruct H as [H|[]]. left. congruence.
  - destruct (String.eqb k k1); cbn in H |- *.
    + right. exact H.
    + destruct H as [H|H]; [right; left; exact H|].
      destruct (IH _ _ _ H); auto.
Qed.

Lemma dict_keys_set_grows : forall V (d : adict V) k v,
  exists more, dict_keys (dict_set d k v) = dict_keys d ++ more
               /\ (more = [] \/ more = [k]).
Proof.
  induction d as [|[k1 v1] d IH]; intros k v; cbn.
  - exists [k]. auto.
  - destruct (String.eqb k k1); cbn.
    + exists []. rewrite app_nil_r. auto.
    + destruct (IH k v) as (more & E & Hm). exists more.
      unfold dict_keys in E. rewrite E. auto.
Qed.

Lemma dict_set_NoDup : forall V (d : adict V) k v,
  NoDup (dict_keys d) -> NoDup (dict_keys (dict_set d k v)).
Proof.
  induction d as [|[k1 v1] d IH]; intros k v H; cbn.
  - constructor; [intros []|constructor].
  - cbn in H. inversion H as [|? ? Hnot Hnd]; subst.
    destruct (String.eqb k k1) eqn:E; cbn.
    + constructor; assumption.
    + constructor; [|apply IH; exact Hnd].
      intros Hin. apply dict_keys_set_in in Hin. destruct Hin as [->|Hin].
      * rewrite String.eqb_refl in E. discriminate E.
      * exact (Hnot Hin).
Qed.

Lemma scan_key_no_equals : forall s, contains_char "=" (fst (scan_key s)) = false.
Proof.
  induction s as [|c s IH]; cbn; [reflexivity|].
  destruct (Ascii.eqb c "=") eqn:E; [reflexivity|].
  destruct (scan_key s) as [k r]. cbn in IH |- *. rewrite E. exact IH.
Qed.

Lemma scan_key_all : forall s,
  contains_char "=" s = false -> scan_key s = (s, EmptyString).
Proof.
  induction s as [|c s IH]; cbn; intros H; [reflexivity|].
  destruct (Ascii.eqb c "="); [discriminate H|].
  rewrite (IH H). reflexivity.
Qed.

(** What the scanner keeps of the dictionary it is given. *)
Lemma scan_fields_keys : forall fuel kind s d d',
  scan_fields fuel kind s d = Ok d' ->
  (exists more, dict_keys d' = dict_keys d ++ more)
  /\ (NoDup (dict_keys d) -> NoDup (dict_keys d'))
  /\ (Forall (fun k => contains_char "=" k = false) (dict_keys d) ->
      Forall (fun k => contains_char "=" k = false) (dict_keys d')).
Proof.
  induction fuel as [|fuel IH]; intros kind s d d' H.
  - cbn in H. injection H as <-. split; [exists []; symmetry; apply app_nil_r|].
    auto.
  - destruct s as [|c0 s0].
    + cbn in H. injection H as <-.
      split; [exists []; symmetry; apply app_nil_r|]. auto.
    + cbn [scan_fields] in H.
      pose proof (scan_key_no_equals (String c0 s0)) as Hkey.
      destruct (scan_key (String c0 s0)) as [key r1]. cbn [fst] in Hkey.
      destruct r1 as [|c1 r2]; [discriminate H|].
      destruct r2 as [|c r3]; [discriminate H|].
      destruct (scan_value (if Ascii.eqb c dquote then dquote else " "%char)
                  (if Ascii.eqb c dquote then r3 else String c r3)) as [v r5].
      set (key' := if status_kind_eqb kind JMS_STATUS_DICT
                   then ("jms." ++ key)%string else key) in H.
      set (value := if negb (Ascii.eqb (if Ascii.eqb c dquote then dquote
                                        else " "%char) dquote)
                    then coerce v else VStr v) in H.
      destruct (IH _ _ _ _ H) as ((more & E) & Hnd & Hall).
      destruct (dict_keys_set_grows _ d key' value) as (m1 & E1 & _).
      split; [|split].
      * exists (m1 ++ more). rewrite E, E1, app_assoc. reflexivity.
      * intros Hd. apply Hnd. apply dict_set_NoDup. exact Hd.
      * intros Hd. apply Hall. apply Forall_forall. intros x Hx.
        apply dict_keys_set_in in Hx. destruct Hx as [->|Hx].
        -- subst key'. destruct (status_kind_eqb kind JMS_STATUS_DICT);
             [cbn; exact Hkey|exact Hkey].
        -- rewrite Forall_forall in Hd. exact (Hd x Hx).
Qed.

Lemma extract_status_keys : forall kind l d,
  extract_status kind l = Ok d ->
  (exists more, dict_keys d = "datetime" :: "seconds" :: "line num" :: more)
  /\ NoDup (dict_keys d)
  /\ Forall (fun k => contains_char "=" k = false) (dict_keys d).
Proof.
  intros kind l d H. unfold extract_status in H.
  destruct (getDateTime_timestamp l) as [seconds|]; [|discriminate H].
  cbn [rbind] in H.
  destruct (status_kind_eqb kind JMS_STATUS_DICT).
  - destruct (endswith (message l) waiting_suffix);
      match type of H with
      | (if ?c then _ else scan_fields ?n ?k ?s ?d0) = _ =>
          destruct c; [discriminate H|];
          destruct (scan_fields_keys n k s d0 d H) as ((more & E) & Hnd & Hall)
      end;
      (split; [|split];
       [ exists ("waitingForOnAppInit" :: more); rewrite E; reflexivity
       | apply Hnd; cbn; repeat constructor; cbn; intuition discriminate
       | apply Hall; cbn; repeat constructor ]).
  - match type of H with
    | (if ?c then _ else scan_fields ?n ?k ?s ?d0) = _ =>
        destruct c; [discriminate H|];
        destruct (scan_fields_keys n k s d0 d H) as ((more & E) & Hnd & Hall)
    end.
    split; [|split].
    + exists more. rewrite E. reflexivity.
    + apply Hnd. cbn. repeat constructor; cbn; intuition discriminate.
    + apply Hall. cbn. repeat constructor.
Qed.

Lemma dict_get_in : forall V (d : adict V) k,
  In k (dict_keys d) -> exists v, dict_get d k = Some v.
Proof.
  induction d as [|[k1 v1] d IH]; intros k H; cbn in H |- *; [destruct H|].
  destruct (String.eqb k k1) eqn:E; [eauto|].
  destruct H as [H|H]; [|exact (IH k H)].
  subst k1. rewrite String.eqb_refl in E. discriminate E.
Qed.

(** X5. Every record the scanner makes of a status line starts with the
    keys datetime, seconds and line num, in this order, whatever fields the
    line has (a field of one of these names takes the place of the value,
    not a new position); no key is there twice, and no key contains an
    equals sign. So the record is never empty, and the seconds the
    annotator asks for are always there. *)
Theorem X5_extracted_record_keys :
  forall (kind : status_kind) (l : LogLine) (d : dict),
    extract_status kind l = Ok d ->
    (exists more, dict_keys d = "datetime" :: "seconds" :: "line num" :: more)
    /\ well_formed d
    /\ Forall (fun k => contains_char "=" k = false) (dict_keys d)
    /\ d <> []
    /\ exists v, dict_get d "seconds" = Some v.
Proof.
  intros kind l d H.
  destruct (extract_status_keys kind l d H) as ((more & E) & Hnd & Hall).
  split; [eauto|]. split; [exact Hnd|]. split; [exact Hall|]. split.
  - intros ->. discriminate E.
  - apply dict_get_in. rewrite E. right. left. reflexivity.
Qed.

Lemma X5_extracted_record_keys_witness :
  well_formed sample_primary.
Proof.
  exact (proj1 (proj2 (X5_extracted_record_keys CORRELATOR_STATUS_DICT
                         sample_primary_line sample_primary eq_refl))).
Defined.

(** X6. What the scanner does with a torn status line. When what is left
    of the line has no equals sign, the scan stops with an AssertionError;
    when the line ends right after an equals sign, it stops with an
    IndexError. *)
Theorem X6_torn_status_line :
  forall (kind : status_kind) (d : dict),
    (forall s,
       s <> EmptyString -> contains_char "=" s = false ->
       scan_fields (String.length s) kind s d = Raise AssertionError)
    /\ (forall key,
          contains_char "=" key = false ->
          scan_fields (String.length (key ++ "=")) kind (key ++ "=") d
          = Raise IndexError).
Proof.
  intros kind d. split.
  - intros s Hne H. destruct s as [|c s]; [congruence|].
    cbn [String.length scan_fields]. rewrite (scan_key_all _ H). reflexivity.
  - intros key H.
    assert (E : exists c s, (key ++ "=")%string = String c s).
    { destruct key; cbn; eauto. }
    destruct E as (c & s & E).
    assert (L : exists n, String.length (key ++ "=") = S n).
    { rewrite E. cbn. eauto. }
    destruct L as (n & ->). cbn [scan_fields]. rewrite E. rewrite <- E.
    rewrite (scan_key_app key EmptyString H). reflexivity.
Qed.

Lemma extract_status_no_details : forall kind l,
  getDetails l = no_details -> extract_status kind l = Raise ValueError.
Proof.
  intros kind l H. unfold extract_status, getDateTime_timestamp. rewrite H.
  reflexivity.
Qed.

(** X7. A status line that does not have the prefix of a log line (it does
    not start with a digit, or has no separator, or does not match the
    pattern of the prefix) has no time stamp to parse: the handler of the
    line raises a ValueError before anything is extracted and leaves the
    state as it was. Published by a manager that is reading a file, the
    failure is logged once, with the handler, the base name of the file and
    the line number, and the ValueError is raised again. A manager without
    a current file fails in its own except clause: a TypeError is raised
    and nothing but the publication is in the log; and with a file but no
    line number yet it is an AttributeError. *)
Theorem X7_status_line_without_time_stamp :
  forall (l : LogLine) (kind : status_kind) (st : State),
    classify (message l) = Some kind ->
    rawdetails l = None \/ LINE_REGEX_match (line l) = None ->
    handleLine l st = (Raise ValueError, st)
    /\ (forall file n,
          currentfile (manager st) = Some file ->
          currentlineno (manager st) = Some n ->
          publish_line l st
          = (Raise ValueError,
             set_logs (logs st
                         ++ [LogPublish (EVENT_LINE l);
                             LogListenerFailed
                               "StatusLinesDictExtractor.handleLine"
                               (basename file) n (EVENT_LINE l)]) st))
    /\ (currentfile (manager st) = None ->
        publish_line l st
        = (Raise TypeError,
           set_logs (logs st ++ [LogPublish (EVENT_LINE l)]) st))
    /\ (forall file,
          currentfile (manager st) = Some file ->
          currentlineno (manager st) = None ->
          publish_line l st
          = (Raise AttributeError,
             set_logs (logs st ++ [LogPublish (EVENT_LINE l)]) st)).
Proof.
  intros l kind st Hc Hd.
  assert (G : getDetails l = no_details).
  { unfold getDetails. destruct Hd as [Hd|Hd]; rewrite Hd.
    - reflexivity.
    - destruct (rawdetails l); reflexivity. }
  assert (H : forall s, handleLine l s = (Raise ValueError, s)).
  { intros s. unfold handleLine. rewrite Hc.
    unfold bind, lift. rewrite (extract_status_no_details kind l G).
    reflexivity. }
  split; [apply H|].
  assert (P : publish_line l st
              = listener_failed (EVENT_LINE l)
                  "StatusLinesDictExtractor.handleLine" ValueError
                  (set_logs (logs st ++ [LogPublish (EVENT_LINE l)]) st)).
  { unfold publish_line. rewrite publish_unfold. cbn [for_each].
    unfold bind, call_listener. cbn [fst snd]. rewrite H.
    destruct (listener_failed (EVENT_LINE l)
                "StatusLinesDictExtractor.handleLine" ValueError
                (set_logs (logs st ++ [LogPublish (EVENT_LINE l)]) st))
      as [[[]|ex] s'] eqn:E; [|reflexivity].
    unfold listener_failed in E. cbn [manager set_logs] in E.
    destruct (currentfile (manager st)); [|discriminate E].
    destruct (currentlineno (manager st)); discriminate E. }
  rewrite P. unfold listener_failed. cbn [manager set_logs logs].
  split; [|split].
  - intros file n -> ->. rewrite <- app_assoc. reflexivity.
  - intros ->. reflexivity.
  - intros file -> ->. reflexivity.
Qed.

Lemma X7_status_line_without_time_stamp_witness :
  fst (handleLine (LogLine_init "Correlator Status: sm=1 rx=5" 3) sample_state)
  = Raise ValueError
  /\ fst (publish_line (LogLine_init "Correlator Status: sm=1 rx=5" 3)
            sample_state)
     = Raise ValueError.
Proof.
  pose proof (X7_status_line_without_time_stamp
                (LogLine_init "Correlator Status: sm=1 rx=5" 3)
                CORRELATOR_STATUS_DICT sample_state eq_refl
                (or_introl eq_refl)) as (H1 & H2 & _).
  split.
  - rewrite H1. reflexivity.
  - rewrite (H2 "logs/correlator.log" 2 eq_refl eq_refl). reflexivity.
Defined.

(** ** The extractor's pairing of the status streams *)

Lemma extractor_extracted : forall kind d st,
  extractor (extracted kind d st) = extractor st.
Proof. reflexivity. Qed.

Lemma combined_extracted : forall kind d st published s',
  combined_since published (extracted kind d st) s' ->
  combined_since published st s'.
Proof.
  intros kind d st published s' (E & new & L & C). split; [exact E|].
  exists ([LogExtracted kind d; LogPublish (EVENT_STATUS_DICT kind d);
           LogNoSubscribers (EVENT_STATUS_DICT kind d)] ++ new).
  split.
  - rewrite L. unfold extracted. cbn [logs set_logs].
    rewrite <- app_assoc. reflexivity.
  - rewrite combined_published_app. exact C.
Qed.

Lemma correlate_disabled : forall kind d l st,
  jmsenabled (extractor st) = Some false ->
  correlate kind d l st = publish_combined d l (extracted kind d st).
Proof.
  intros kind d l st H. rewrite correlate_unfold.
  unfold bind at 1, gets at 1. rewrite extractor_extracted, H.
  unfold bind at 1, ret at 1. unfold bind at 1, gets at 1.
  rewrite extractor_extracted, H. reflexivity.
Qed.

(** X1. Once the extractor has decided that there is no secondary stream,
    every status record it is given is published as a combined record as it
    is, exactly once, whatever the listeners do with it, and the extractor's
    own state stays as it was. *)
Theorem X1_disabled_stream_publishes_every_status :
  forall (kind : status_kind) (d : dict) (l : LogLine) (st : State),
    jmsenabled (extractor st) = Some false ->
    let run := correlate kind d l st in
    extractor (snd run) = extractor st
    /\ exists new, logs (snd run) = logs st ++ new
                   /\ combined_published new = [d].
Proof.
  intros kind d l st H run. subst run. rewrite (correlate_disabled _ _ _ _ H).
  pose proof (publish_combined_once d l (extracted kind d st)) as G.
  apply combined_extracted in G. exact G.
Qed.

Lemma X1_disabled_stream_publishes_every_status_witness :
  extractor
    (snd (correlate CORRELATOR_STATUS_DICT sample_primary sample_primary_line
            (set_extractor (mkExtractor (Some false) None) sample_state)))
  = mkExtractor (Some false) None.
Proof.
  exact (proj1 (X1_disabled_stream_publishes_every_status
                  CORRELATOR_STATUS_DICT sample_primary sample_primary_line
                  (set_extractor (mkExtractor (Some false) None) sample_state)
                  eq_refl)).
Defined.

Lemma correlate_detects : forall d p l st,
  jmsenabled (extractor st) = None ->
  previous (extractor st) = Some p ->
  correlate CORRELATOR_STATUS_DICT d l st
  = bind (publish_combined p l)
      (fun _ => bind (update_extractor (set_previous None))
         (fun _ => publish_combined d l))
      (set_extractor (mkExtractor (Some false) (Some p))
         (extracted CORRELATOR_STATUS_DICT d st)).
Proof.
  intros d p l st Hj Hp. rewrite correlate_unfold.
  unfold bind at 1, gets at 1. rewrite extractor_extracted, Hj, Hp.
  cbn [status_kind_eqb].
  unfold bind at 1. unfold bind at 1.
  unfold update_extractor at 1, modify at 1.
  rewrite extractor_extracted. unfold set_jmsenabled. rewrite Hp.
  unfold bind at 1.
  destruct (publish_combined p l _) as [[[]|ex] s1] eqn:E1.
  - unfold bind at 1. unfold update_extractor at 1, modify at 1.
    unfold bind at 1, ret at 1. unfold bind at 1, gets at 1.
    cbn [extractor set_extractor set_previous jmsenabled].
    pose proof (publish_combined_once p l
                  (set_extractor (mkExtractor (Some false) (Some p))
                     (extracted CORRELATOR_STATUS_DICT d st))) as (Ex & _).
    rewrite E1 in Ex. cbn [snd] in Ex. rewrite Ex.
    cbn [extractor set_extractor jmsenabled].
    unfold bind at 1. rewrite E1.
    unfold bind at 1, update_extractor at 1, modify at 1.
    rewrite Ex. reflexivity.
  - unfold bind at 1. rewrite E1. reflexivity.
Qed.

Lemma correlate_detects_decides : forall d p l st,
  jmsenabled (extractor st) = None ->
  previous (extractor st) = Some p ->
  jmsenabled (extractor (snd (correlate CORRELATOR_STATUS_DICT d l st)))
  = Some false.
Proof.
  intros d p l st Hj Hp. rewrite (correlate_detects _ _ _ _ Hj Hp).
  set (s0 := set_extractor (mkExtractor (Some false) (Some p))
               (extracted CORRELATOR_STATUS_DICT d st)).
  pose proof (publish_combined_once p l s0) as (E1 & _).
  destruct (publish_combined p l s0) as [[[]|ex] s1] eqn:Erun; cbn [snd] in E1.
  - rewrite (bind_ok _ _ _ _ _ Erun).
    set (s2 := set_extractor (set_previous None (extractor s1)) s1).
    change (bind (update_extractor (set_previous None))
              (fun _ => publish_combined d l) s1)
      with (publish_combined d l s2).
    pose proof (publish_combined_once d l s2) as (E2 & _).
    rewrite E2. subst s2. cbn [extractor set_extractor]. rewrite E1.
    reflexivity.
  - rewrite (bind_raise _ _ _ _ _ Erun). cbn [snd]. rewrite E1. reflexivity.
Qed.

(** X2. Two status records in a row while the protocol is still unknown:
    the extractor decides that there is no secondary stream and publishes
    the pending record, then the new one, in this order; when the handler
    returns normally nothing is pending any more. If publishing the pending
    record fails, only that one was published. *)
Theorem X2_second_status_publishes_both :
  forall (d p : dict) (l : LogLine) (st : State),
    jmsenabled (extractor st) = None ->
    previous (extractor st) = Some p ->
    let run := correlate CORRELATOR_STATUS_DICT d l st in
    jmsenabled (extractor (snd run)) = Some false
    /\ exists new,
         logs (snd run) = logs st ++ new
         /\ (combined_published new = [p; d]
             \/ (combined_published new = [p] /\ fst run <> Ok tt))
         /\ (fst run = Ok tt ->
             combined_published new = [p; d]
             /\ previous (extractor (snd run)) = None).
Proof.
  intros d p l st Hj Hp run. subst run. rewrite (correlate_detects _ _ _ _ Hj Hp).
  set (s0 := set_extractor (mkExtractor (Some false) (Some p))
               (extracted CORRELATOR_STATUS_DICT d st)).
  pose proof (publish_combined_once p l s0) as (E1 & n1 & L1 & C1).
  destruct (publish_combined p l s0) as [[[]|ex] s1] eqn:Erun; cbn [snd] in *.
  - rewrite (bind_ok _ _ _ _ _ Erun).
    set (s2 := set_extractor (set_previous None (extractor s1)) s1).
    change (bind (update_extractor (set_previous None))
              (fun _ => publish_combined d l) s1)
      with (publish_combined d l s2).
    pose proof (publish_combined_once d l s2) as (E2 & n2 & L2 & C2).
    assert (Hs2 : extractor s2 = mkExtractor (Some false) None).
    { subst s2. cbn [extractor set_extractor]. rewrite E1. reflexivity. }
    split; [rewrite E2, Hs2; reflexivity|].
    exists ([LogExtracted CORRELATOR_STATUS_DICT d;
             LogPublish (EVENT_STATUS_DICT CORRELATOR_STATUS_DICT d);
             LogNoSubscribers (EVENT_STATUS_DICT CORRELATOR_STATUS_DICT d)]
            ++ n1 ++ n2).
    assert (C : combined_published
                  ([LogExtracted CORRELATOR_STATUS_DICT d;
                    LogPublish (EVENT_STATUS_DICT CORRELATOR_STATUS_DICT d);
                    LogNoSubscribers (EVENT_STATUS_DICT CORRELATOR_STATUS_DICT d)]
                   ++ n1 ++ n2) = [p; d]).
    { rewrite !combined_published_app, C1, C2. reflexivity. }
    split; [|split].
    + rewrite L2. subst s2. cbn [logs set_extractor]. rewrite L1.
      subst s0. cbn [logs set_extractor extracted set_logs].
      rewrite <- !app_assoc. reflexivity.
    + left. exact C.
    + intros _. split; [exact C|]. rewrite E2, Hs2. reflexivity.
  - rewrite (bind_raise _ _ _ _ _ Erun). cbn [fst snd].
    split; [rewrite E1; reflexivity|].
    exists ([LogExtracted CORRELATOR_STATUS_DICT d;
             LogPublish (EVENT_STATUS_DICT CORRELATOR_STATUS_DICT d);
             LogNoSubscribers (EVENT_STATUS_DICT CORRELATOR_STATUS_DICT d)]
            ++ n1).
    split; [|split].
    + rewrite L1. subst s0. cbn [logs set_extractor extracted set_logs].
      rewrite <- !app_assoc. reflexivity.
    + right. split; [|discriminate].
      rewrite combined_published_app, C1. reflexivity.
    + discriminate.
Qed.

Lemma X2_second_status_publishes_both_witness :
  jmsenabled
    (extractor
       (snd (correlate CORRELATOR_STATUS_DICT sample_primary sample_primary_line
               (set_extractor (mkExtractor None (Some sample_primary))
                  sample_state))))
  = Some false.
Proof.
  exact (proj1 (X2_second_status_publishes_both
                  sample_primary sample_primary sample_primary_line
                  (set_extractor (mkExtractor None (Some sample_primary))
                     sample_state)
                  eq_refl eq_refl)).
Defined.

Lemma correlate_enabled : forall kind d l st,
  jmsenabled (extractor st) = Some true ->
  correlate kind d l st
  = (if status_kind_eqb kind JMS_STATUS_DICT
     then match previous (extractor st) with
          | None => raise TypeError
          | Some p =>
              bind (publish_combined (dict_update d p) l)
                (fun _ => update_extractor (set_previous None))
          end
     else bind (assert (match previous (extractor st) with
                        | None => true
                        | Some _ => false
                        end))
            (fun _ => update_extractor (set_previous (Some d))))
      (extracted kind d st).
Proof.
  intros kind d l st H. rewrite correlate_unfold.
  unfold bind at 1, gets at 1. rewrite extractor_extracted, H.
  unfold bind at 1, ret at 1. unfold bind at 1, gets at 1.
  rewrite extractor_extracted, H. reflexivity.
Qed.

Lemma correlate_decision_final : forall kind d l st (b : bool),
  jmsenabled (extractor st) = Some b ->
  jmsenabled (extractor (snd (correlate kind d l st))) = Some b.
Proof.
  intros kind d l st [|] H.
  - rewrite (correlate_enabled _ _ _ _ H).
    destruct (status_kind_eqb kind JMS_STATUS_DICT).
    + destruct (previous (extractor st)) as [p|]; [|exact H].
      pose proof (publish_combined_once (dict_update d p) l (extracted kind d st))
        as (E & _).
      rewrite extractor_extracted in E.
      destruct (publish_combined (dict_update d p) l (extracted kind d st))
        as [[[]|ex] s1] eqn:Erun; cbn [snd] in E.
      * rewrite (bind_ok _ _ _ _ _ Erun).
        unfold update_extractor, modify. cbn [snd extractor set_extractor].
        rewrite E. exact H.
      * rewrite (bind_raise _ _ _ _ _ Erun). cbn [snd]. rewrite E. exact H.
    + destruct (previous (extractor st)); cbn [assert].
      * exact H.
      * unfold bind, ret, update_extractor, modify.
        cbn [snd extractor set_extractor]. exact H.
  - rewrite (correlate_disabled _ _ _ _ H).
    pose proof (publish_combined_once d l (extracted kind d st)) as (E & _).
    rewrite E. exact H.
Qed.

(** X3. Once the extractor has decided whether there is a secondary
    stream, no status record of either kind makes it change its mind,
    whether handling the record fails or not. *)
Theorem X3_stream_decision_is_final :
  forall (kind : status_kind) (d : dict) (l : LogLine) (st : State) (b : bool),
    jmsenabled (extractor st) = Some b ->
    jmsenabled (extractor (snd (correlate kind d l st))) = Some b.
Proof. exact correlate_decision_final. Qed.

Lemma X3_stream_decision_is_final_witness :
  jmsenabled
    (extractor
       (snd (correlate JMS_STATUS_DICT sample_secondary sample_secondary_line
               (set_extractor (mkExtractor (Some false) None) sample_state))))
  = Some false.
Proof.
  exact (X3_stream_decision_is_final JMS_STATUS_DICT sample_secondary
           sample_secondary_line
           (set_extractor (mkExtractor (Some false) None) sample_state)
           false eq_refl).
Defined.

Lemma correlate_first : forall kind d l st,
  jmsenabled (extractor st) = None ->
  previous (extractor st) = None ->
  correlate kind d l st
  = (Ok tt, set_extractor (mkExtractor None (Some d)) (extracted kind d st)).
Proof.
  intros kind d l st Hj Hp. rewrite correlate_unfold.
  unfold bind at 1, gets at 1. rewrite extractor_extracted, Hj, Hp.
  unfold bind, update_extractor, modify, ret, set_previous.
  rewrite extractor_extracted, Hj. reflexivity.
Qed.

Lemma classify_correlator : forall m kind,
  classify m = Some kind -> kind = CORRELATOR_STATUS_DICT.
Proof.
  intros m kind H. unfold classify in H.
  destruct (startswith m "Correlator Status: "); congruence.
Qed.

(** X4. The first status line a fresh extractor sees is only remembered:
    whatever the line, handling it publishes no combined record and decides
    nothing about the secondary stream, and a status line that is scanned
    without error is left pending. A log with a single status line so
    yields no status output at all. *)
Theorem X4_first_status_line_is_only_remembered :
  forall (l : LogLine) (st : State),
    jmsenabled (extractor st) = None ->
    previous (extractor st) = None ->
    let run := handleLine l st in
    jmsenabled (extractor (snd run)) = None
    /\ (exists new, logs (snd run) = logs st ++ new
                    /\ combined_published new = [])
    /\ (forall kind d,
          classify (message l) = Some kind ->
          extract_status kind l = Ok d ->
          fst run = Ok tt /\ previous (extractor (snd run)) = Some d).
Proof.
  intros l st Hj Hp run. subst run. unfold handleLine.
  destruct (classify (message l)) as [kind|].
  - unfold bind, lift.
    destruct (extract_status kind l) as [d|ex] eqn:E.
    + destruct (extract_status_keys kind l d E) as ((more & Hkeys) & _).
      destruct d as [|kv d]; [discriminate Hkeys|].
      rewrite (correlate_first kind (kv :: d) l st Hj Hp). cbn [fst snd].
      split; [reflexivity|]. split.
      * eexists. unfold extracted. cbn [logs set_extractor set_logs].
        split; reflexivity.
      * intros k d0 Hk Hd. injection Hk as <-. rewrite E in Hd.
        injection Hd as <-. split; reflexivity.
    + cbn [fst snd]. split; [exact Hj|]. split.
      * exists []. rewrite app_nil_r. auto.
      * intros k d0 Hk Hd. injection Hk as <-. rewrite E in Hd.
        discriminate Hd.
  - cbn [ret fst snd]. split; [exact Hj|]. split.
    + exists []. rewrite app_nil_r. auto.
    + intros k d0 Hk. discriminate Hk.
Qed.

Lemma X4_first_status_line_is_only_remembered_witness :
  previous (extractor (snd (handleLine sample_primary_line sample_state)))
  = Some sample_primary.
Proof.
  exact (proj2 (proj2 (proj2 (X4_first_status_line_is_only_remembered
                                sample_primary_line sample_state
                                eq_refl eq_refl))
                  CORRELATOR_STATUS_DICT sample_primary eq_refl eq_refl)).
Defined.

(** ** What the listeners leave to the manager *)

Lemma from_listener_not_publish : forall r, is_publish r = false -> from_listener r.
Proof. intros [e| | | | | |] H; try exact I. discriminate H. Qed.

Lemma listening_refl : forall s, listening s s.
Proof. intros s. split; [apply logs_more_refl|auto]. Qed.

Lemma listening_trans : forall a b c,
  listening a b -> listening b c -> listening a c.
Proof.
  intros a b c [L1 N1] [L2 N2]. split; [|auto].
  exact (logs_more_trans _ _ _ _ L1 L2).
Qed.

Lemma quiet_listening : forall s s', quiet s s' -> listening s s'.
Proof.
  intros s s' (E & _ & _ & new & L & F). split.
  - exists new. split; [exact L|].
    eapply Forall_impl; [|exact F]. intros r. apply from_listener_not_publish.
  - unfold no_secondary. rewrite E. auto.
Qed.

Lemma listening_log : forall s r,
  from_listener r -> listening s (set_logs (logs s ++ [r]) s).
Proof.
  intros s r H. split; [|auto]. exists [r]. split; [reflexivity|].
  constructor; [exact H|constructor].
Qed.

Lemma listening_same : forall s s',
  logs s' = logs s -> (no_secondary s -> no_secondary s') -> listening s s'.
Proof. intros s s' L N. split; [apply logs_more_same; exact L|exact N]. Qed.

Lemma listening_listeners : forall e ls,
  Forall (fun l : string * M State unit => steps listening (snd l)) ls ->
  steps listening (match ls with
                   | [] => log_ (LogNoSubscribers e)
                   | _ => for_each ls (call_listener e)
                   end).
Proof.
  intros e ls H.
  assert (G : steps listening (for_each ls (call_listener e))).
  { induction H as [|[n m] ls Hm Hls IH]; cbn [for_each].
    - apply (steps_ret listening listening_refl).
    - apply (steps_bind listening listening_trans); [|intros _; exact IH].
      apply (steps_call_listener listening listening_refl listening_trans); [exact Hm|].
      intros s r Hr. apply listening_log.
      apply from_listener_not_publish. exact Hr. }
  destruct ls; [|exact G].
  apply steps_modify. intro s. apply listening_log. exact I.
Qed.

(** A publication of an event that is not the manager's, to listeners that
    are listeners themselves. *)
Lemma listening_publish : forall e ls,
  is_manager_event e = false ->
  Forall (fun l : string * M State unit => steps listening (snd l)) ls ->
  steps listening (publish e ls).
Proof.
  intros e ls He Hls. unfold publish.
  apply (steps_bind listening listening_trans).
  - apply steps_modify. intros s. apply listening_log. exact He.
  - intros _. apply listening_listeners. exact Hls.
Qed.

Lemma quiet_listeners_listening : forall ls : list (string * M State unit),
  Forall (fun l => steps quiet (snd l)) ls ->
  Forall (fun l => steps listening (snd l)) ls.
Proof.
  intros ls H. eapply Forall_impl; [|exact H].
  intros l Hl. eapply steps_weaken; [|exact Hl]. exact quiet_listening.
Qed.

Tactic Notation "listening_bind" ident(x) :=
  apply (steps_bind listening listening_trans); [|intros x].

Ltac listening_step :=
  lazymatch goal with
  | |- steps listening (ret _) => apply (steps_ret listening listening_refl)
  | |- steps listening (raise _) => apply (steps_raise listening listening_refl)
  | |- steps listening (lift _) => apply (steps_lift listening listening_refl)
  | |- steps listening (gets _) => apply (steps_gets listening listening_refl)
  | |- steps listening (assert _) =>
      apply (steps_assert listening listening_refl)
  end.

Lemma listening_publish_header : forall cols info,
  steps listening (publish_header cols info).
Proof.
  intros cols info. unfold publish_header.
  listening_bind json; [listening_step|].
  apply listening_publish; [reflexivity|].
  apply quiet_listeners_listening. apply header_listeners_quiet.
Qed.

Lemma listening_publish_annotated : forall status,
  steps listening (publish_annotated status).
Proof.
  intros status. unfold publish_annotated.
  listening_bind json; [listening_step|].
  apply listening_publish; [reflexivity|].
  apply quiet_listeners_listening. apply annotated_listeners_quiet.
Qed.

Lemma listening_annotator : forall f : State -> AnnotatorState,
  steps listening (modify (fun s => set_annotator (f s) s)).
Proof.
  intros f. apply steps_modify. intros s.
  apply listening_same; [reflexivity|auto].
Qed.

Lemma listening_handleStatusDict : forall status,
  steps listening (handleStatusDict status).
Proof.
  intros status. unfold handleStatusDict.
  listening_bind u; [listening_step|].
  listening_bind a; [listening_step|].
  listening_bind u1.
  { destruct (columns a).
    - listening_step.
    - listening_bind u2; [|apply listening_publish_header].
      apply (listening_annotator
               (fun s => set_columns (decideColumns status) (annotator s))). }
  listening_bind a1; [listening_step|].
  destruct (columns a1); [|listening_step].
  listening_bind a2; [listening_step|].
  listening_bind u3; [apply listening_publish_annotated|].
  apply (listening_annotator
           (fun s => set_previousStatus (dict_update status a2) (annotator s))).
Qed.

Lemma listening_publish_combined : forall status l,
  steps listening (publish_combined status l).
Proof.
  intros status l. unfold publish_combined.
  apply listening_publish; [reflexivity|].
  constructor; [apply listening_handleStatusDict|constructor].
Qed.

Lemma listening_update_extractor : forall f,
  (forall e, jmsenabled e <> Some true -> jmsenabled (f e) <> Some true) ->
  steps listening (update_extractor f).
Proof.
  intros f H. apply steps_modify. intros s.
  apply listening_same; [reflexivity|]. unfold no_secondary.
  cbn [extractor set_extractor]. apply H.
Qed.

(** The extractor on a status record of the correlator. *)
Lemma listening_correlate : forall d l,
  steps listening (correlate CORRELATOR_STATUS_DICT d l).
Proof.
  intros d l. unfold correlate. cbn [status_kind_eqb].
  listening_bind u.
  { apply steps_modify. intros s. apply listening_log. exact I. }
  listening_bind u1.
  { apply listening_publish; [reflexivity|constructor]. }
  listening_bind e; [listening_step|].
  listening_bind returned.
  { destruct (jmsenabled e); [listening_step|].
    destruct (previous e).
    - listening_bind u2.
      { apply listening_update_extractor. intros x _. discriminate. }
      listening_bind u3; [apply listening_publish_combined|].
      listening_bind u4; [|listening_step].
      apply listening_update_extractor. intros x H. exact H.
    - listening_bind u2; [|listening_step].
      apply listening_update_extractor. intros x H. exact H. }
  destruct returned; [listening_step|].
  listening_bind e1; [listening_step|].
  destruct (jmsenabled e1) as [[|]|].
  - listening_bind u2; [listening_step|].
    apply listening_update_extractor. intros x H. exact H.
  - apply listening_publish_combined.
  - listening_bind u2; [listening_step|].
    apply listening_update_extractor. intros x H. exact H.
Qed.

Lemma listening_handleLine : forall l, steps listening (handleLine l).
Proof.
  intros l. unfold handleLine.
  destruct (classify (message l)) as [kind|] eqn:E; [|listening_step].
  apply classify_correlator in E. subst kind.
  listening_bind d; [listening_step|].
  destruct d; [listening_step|apply listening_correlate].
Qed.

Lemma quiet_slot_CSV_SUMMARY : quiet_slot CSV_SUMMARY.
Proof. intros w s. quiet_same. Qed.

Lemma quiet_slot_JSON_SUMMARY : quiet_slot JSON_SUMMARY.
Proof. intros w s. quiet_same. Qed.

Tactic Notation "quiet_bind" ident(x) :=
  apply (steps_bind quiet quiet_trans); [|intros x].

Lemma quiet_write_rows : forall sl (writeStatus : dict -> M State unit) rows prev,
  (forall d, steps quiet (writeStatus d)) ->
  steps quiet (write_rows sl writeStatus rows prev).
Proof.
  intros sl writeStatus rows. induction rows as [|[display status] rows IH];
    intros prev Hw; cbn [write_rows].
  - quiet_step.
  - destruct (String.eqb display "").
    + quiet_bind u; [apply quiet_write|]. apply IH. exact Hw.
    + destruct status as [status|]; [|quiet_step].
      quiet_bind u.
      { destruct prev as [[|kv p]|]; [quiet_step|apply Hw|quiet_step]. }
      quiet_bind u1; [apply Hw|]. apply IH. exact Hw.
Qed.

Lemma quiet_json_writeFooter : forall sl,
  quiet_slot sl -> steps quiet (json_writeFooter sl).
Proof.
  intros sl Hsl. unfold json_writeFooter.
  quiet_bind w; [quiet_step|].
  destruct (output w); [|quiet_step].
  quiet_bind u; [quiet_step|]. quiet_bind u1; [quiet_step|]. quiet_step.
Qed.

Lemma quiet_handleFileComplete : steps quiet handleFileComplete.
Proof.
  unfold handleFileComplete.
  quiet_bind s; [quiet_step|].
  destruct ((samples s <? 2) || negb (nonempty (laststatus s))
            || negb (nonempty (status_100pc s))).
  - quiet_bind name; [quiet_step|].
    apply steps_modify. intros st. apply quiet_log. reflexivity.
  - quiet_bind rows; [quiet_step|].
    quiet_bind u.
    { apply steps_modify. intros st. apply quiet_summarizer. }
    quiet_bind u1.
    { apply steps_modify. intros st. apply quiet_slot_CSV_SUMMARY. }
    quiet_bind u2.
    { apply steps_modify. intros st. apply quiet_slot_JSON_SUMMARY. }
    quiet_bind u3.
    { apply steps_modify. intros st. apply quiet_slot_CSV_SUMMARY. }
    destruct (headerArgs s) as [[columns extraInfo]|]; [|quiet_step].
    quiet_bind u4; [apply quiet_csv_writeHeader; exact quiet_slot_CSV_SUMMARY|].
    quiet_bind u5.
    { apply quiet_write_rows. apply quiet_csv_writeStatus. }
    quiet_bind u6.
    { apply steps_modify. intros st. apply quiet_slot_JSON_SUMMARY. }
    quiet_bind u7; [apply quiet_json_writeHeader; exact quiet_slot_JSON_SUMMARY|].
    quiet_bind u8.
    { apply quiet_write_rows.
      apply quiet_json_writeStatus. exact quiet_slot_JSON_SUMMARY. }
    apply quiet_json_writeFooter. exact quiet_slot_JSON_SUMMARY.
Qed.

Lemma quiet_handleFilePercentComplete : forall percent,
  steps quiet (handleFilePercentComplete percent).
Proof.
  intros percent. unfold handleFilePercentComplete.
  quiet_bind u; [quiet_step|].
  destruct (percent =? 100); [apply quiet_handleFileComplete|quiet_step].
Qed.

(** ** The events of the manager *)

Lemma ends_bind : forall A B (m : M State A) (k : A -> M State B) s
    (ok1 : A -> State -> Prop) (fail1 : State -> Prop)
    (ok2 : B -> State -> Prop) (fail2 : State -> Prop),
  ends m s ok1 fail1 ->
  (forall a s1, ok1 a s1 -> ends (k a) s1 ok2 fail2) ->
  (forall s1, fail1 s1 -> fail2 s1) ->
  ends (bind m k) s ok2 fail2.
Proof.
  intros A B m k s ok1 fail1 ok2 fail2 H Hk Hf. unfold ends, bind in *.
  destruct (m s) as [[a|e] s1]; [exact (Hk a s1 H)|exact (Hf s1 H)].
Qed.

Lemma ends_weaken : forall A (m : M State A) s
    (ok1 ok2 : A -> State -> Prop) (fail1 fail2 : State -> Prop),
  ends m s ok1 fail1 ->
  (forall a s1, ok1 a s1 -> ok2 a s1) ->
  (forall s1, fail1 s1 -> fail2 s1) ->
  ends m s ok2 fail2.
Proof.
  intros A m s ok1 ok2 fail1 fail2 H Hok Hf. unfold ends in *.
  destruct (m s) as [[a|e] s1]; auto.
Qed.

(** Whatever the outcome, the state is related to the first one. *)
Lemma ends_steps : forall A (m : M State A) s (R : State -> State -> Prop),
  R s (snd (m s)) -> ends m s (fun _ s' => R s s') (fun s' => R s s').
Proof.
  intros A m s R H. unfold ends. destruct (m s) as [[a|e] s1]; exact H.
Qed.

Lemma percent_published_app : forall a b,
  percent_published (a ++ b) = percent_published a ++ percent_published b.
Proof. intros. unfold percent_published. apply flat_map_app. Qed.

Lemma lines_published_app : forall a b,
  lines_published (a ++ b) = lines_published a ++ lines_published b.
Proof. intros. unfold lines_published. apply flat_map_app. Qed.

Lemma from_listener_nothing : forall new,
  Forall from_listener new ->
  percent_published new = [] /\ lines_published new = [].
Proof.
  induction 1 as [|r new Hr _ [IH1 IH2]]; [split; reflexivity|].
  change (r :: new) with ([r] ++ new).
  rewrite percent_published_app, lines_published_app, IH1, IH2.
  destruct r as [e| | | | | |]; try (split; reflexivity).
  destruct e; try discriminate Hr; split; reflexivity.
Qed.

Lemma traced_refl : forall s, traced [] [] s s.
Proof.
  intros s. split; [auto|]. exists []. rewrite app_nil_r. auto.
Qed.

Lemma traced_trans : forall p1 l1 p2 l2 a b c,
  traced p1 l1 a b -> traced p2 l2 b c -> traced (p1 ++ p2) (l1 ++ l2) a c.
Proof.
  intros p1 l1 p2 l2 a b c (N1 & n1 & L1 & P1 & K1) (N2 & n2 & L2 & P2 & K2).
  split; [auto|]. exists (n1 ++ n2).
  rewrite L2, L1, app_assoc, percent_published_app, lines_published_app.
  rewrite P1, P2, K1, K2. auto.
Qed.

Lemma listening_traced : forall s s', listening s s' -> traced [] [] s s'.
Proof.
  intros s s' ((new & L & F) & N). split; [exact N|]. exists new.
  destruct (from_listener_nothing new F) as (P & K). auto.
Qed.

(** A publication of the manager to listeners that are listeners. *)
Lemma publish_traced : forall e ls s,
  Forall (fun l : string * M State unit => steps listening (snd l)) ls ->
  traced (percent_published [LogPublish e]) (lines_published [LogPublish e])
    s (snd (publish e ls s)).
Proof.
  intros e ls s H. rewrite publish_unfold.
  rewrite <- (app_nil_r (percent_published [LogPublish e])).
  rewrite <- (app_nil_r (lines_published [LogPublish e])).
  apply (traced_trans _ _ _ _ s (set_logs (logs s ++ [LogPublish e]) s)).
  - split; [auto|]. exists [LogPublish e]. auto.
  - apply listening_traced. apply (listening_listeners e ls H).
Qed.

Lemma publish_percent_traced : forall t s,
  traced [t] [] s (snd (publish_percent t s)).
Proof.
  intros t s. unfold publish_percent.
  apply (publish_traced (EVENT_PERCENT_COMPLETE t)).
  constructor; [|constructor]. cbn [snd].
  eapply steps_weaken; [exact quiet_listening|].
  apply quiet_handleFilePercentComplete.
Qed.

Lemma publish_line_traced : forall l s,
  traced [] [l] s (snd (publish_line l s)).
Proof.
  intros l s. unfold publish_line.
  apply (publish_traced (EVENT_LINE l)).
  constructor; [|constructor]. apply listening_handleLine.
Qed.

Lemma publish_file_started_traced : forall file s,
  traced [] [] s (snd (publish_file_started file s)).
Proof.
  intros file s. unfold publish_file_started.
  apply (publish_traced (EVENT_FILE_STARTED file)).
  constructor; [|constructor; [|constructor]]; cbn [snd];
    apply steps_zoom; intros t s0; apply listening_same; try reflexivity; auto.
Qed.

Lemma publish_file_finished_traced : forall file s,
  traced [] [] s (snd (publish_file_finished file s)).
Proof.
  intros file s. unfold publish_file_finished, bind, gets.
  apply (publish_traced (EVENT_FILE_FINISHED file)).
  destruct (statusjson (manager s)); [|constructor].
  constructor; [|constructor]. cbn [snd].
  eapply steps_weaken; [exact quiet_listening|].
  apply quiet_json_writeFooter. exact quiet_slot_JSON_STATUS.
Qed.

Lemma is_prefix_refl : forall A (a : list A), is_prefix a a.
Proof. intros A a. exists []. symmetry. apply app_nil_r. Qed.

Lemma is_prefix_nil : forall A (a : list A), is_prefix [] a.
Proof. intros A a. exists a. reflexivity. Qed.

Lemma is_prefix_app : forall A (x a b : list A),
  is_prefix a b -> is_prefix (x ++ a) (x ++ b).
Proof. intros A x a b [c ->]. exists c. apply app_assoc. Qed.

Lemma is_prefix_app_r : forall A (a b c : list A),
  is_prefix a b -> is_prefix a (b ++ c).
Proof. intros A a b c [d ->]. exists (d ++ c). symmetry. apply app_assoc. Qed.

Lemma is_prefix_app_nil : forall A (x b : list A), is_prefix x (x ++ b).
Proof. intros A x b. exists b. reflexivity. Qed.

(** The thresholds passed while reading, as [passed] gives them. *)
Lemma pass_thresholds_ends : forall percent ts L s,
  ends (pass_thresholds percent ts L) s
    (fun L' s' => traced (fst (passed percent ts L)) [] s s'
                  /\ L' = snd (passed percent ts L))
    (fun s' => exists p, traced p [] s s'
                         /\ is_prefix p (fst (passed percent ts L))).
Proof.
  intros percent ts. induction ts as [|t rest IH]; intros L s;
    cbn [pass_thresholds passed].
  - unfold ends, ret. split; [apply traced_refl|reflexivity].
  - destruct (at_least percent t && (L <? t)); [|apply IH].
    destruct (passed percent rest t) as [l last] eqn:E.
    apply (ends_bind _ _ _ _ s
             (fun _ s1 => traced [t] [] s s1) (fun s1 => traced [t] [] s s1)).
    + apply (ends_steps _ (publish_percent t) s (traced [t] [])).
      apply publish_percent_traced.
    + intros _ s1 H1. specialize (IH t s1). rewrite E in IH. cbn [fst snd] in *.
      eapply ends_weaken; [exact IH| |].
      * intros L' s' (T & ->). split; [|reflexivity].
        exact (traced_trans [t] [] l [] _ _ _ H1 T).
      * intros s' (p & T & Hp). exists ([t] ++ p). split.
        -- exact (traced_trans [t] [] p [] _ _ _ H1 T).
        -- apply (is_prefix_app _ [t]). exact Hp.
    + intros s1 H1. exists [t]. split; [exact H1|].
      apply (is_prefix_app_nil _ [t]).
Qed.

Lemma at_least_mono : forall percent t1 t2,
  t1 <= t2 -> at_least percent t2 = true -> at_least percent t1 = true.
Proof.
  intros percent t1 t2 Ht. unfold at_least.
  destruct (as_num percent) as [x|]; [|auto].
  unfold num_le. cbn [exact].
  destruct (exact x) as [| | |q]; cbn [xcompare]; auto.
  intros H.
  assert (Hq : (t2 # 1 <= q)%Q).
  { apply Qle_alt. intros E. rewrite E in H. discriminate H. }
  assert (Hq1 : (t1 # 1 <= q)%Q).
  { eapply Qle_trans; [|exact Hq]. unfold Qle. cbn. lia. }
  pose proof (proj1 (Qle_alt _ _) Hq1) as Hq2.
  destruct (t1 # 1 ?= q)%Q eqn:E; [reflexivity|reflexivity|].
  exfalso. exact (Hq2 eq_refl).
Qed.

Ltac level_cases H := destruct H as [<-|[<-|[<-|[<-|[]]]]].

Lemma between_app : forall a b c,
  is_level a -> is_level b -> is_level c -> a <= b -> b <= c ->
  between a b ++ between b c = between a c.
Proof.
  intros a b c Ha Hb Hc Hab Hbc.
  level_cases Ha; level_cases Hb; level_cases Hc;
    try reflexivity; exfalso; lia.
Qed.

Lemma between_prefix : forall a b,
  is_level a -> is_level b -> a <= b ->
  is_prefix (between a b) (between a 75).
Proof.
  intros a b Ha Hb Hab. exists (between b 75).
  symmetry. apply between_app; auto.
  - right. right. right. left. reflexivity.
  - level_cases Hb; lia.
Qed.

Lemma between_same : forall a, between a a = [].
Proof.
  intros a. unfold between. cbn [filter].
  repeat match goal with
         | |- context [(?x <? ?y) && (?y <=? ?x)] =>
             replace ((x <? y) && (y <=? x)) with false by lia
         end.
  reflexivity.
Qed.

Lemma passed_levels : forall percent L,
  is_level L ->
  exists L', passed percent [25; 50; 75] L = (between L L', L')
             /\ is_level L' /\ L <= L'.
Proof.
  intros percent L HL.
  pose proof (at_least_mono percent 25 50 ltac:(lia)) as M1.
  pose proof (at_least_mono percent 50 75 ltac:(lia)) as M2.
  unfold is_level. cbn [passed].
  destruct (at_least percent 75);
    [rewrite (M2 eq_refl) in *; rewrite (M1 eq_refl) in *
    |destruct (at_least percent 50);
     [rewrite (M1 eq_refl) in *|destruct (at_least percent 25)]];
    level_cases HL; cbn;
    first [ exists 0; split; [reflexivity|split; [tauto|lia]]
          | exists 25; split; [reflexivity|split; [tauto|lia]]
          | exists 50; split; [reflexivity|split; [tauto|lia]]
          | exists 75; split; [reflexivity|split; [tauto|lia]] ].
Qed.

Lemma level_75 : is_level 75.
Proof. right. right. right. left. reflexivity. Qed.

Lemma level_0 : is_level 0.
Proof. left. reflexivity. Qed.

Lemma is_prefix_trans : forall A (a b c : list A),
  is_prefix a b -> is_prefix b c -> is_prefix a c.
Proof.
  intros A a b c [x ->] [y ->]. exists (x ++ y). symmetry. apply app_assoc.
Qed.

(** The thresholds of one line. *)
Lemma line_thresholds_ends : forall (cond : bool) charcount bytes L s,
  is_level L ->
  ends (if cond
        then bind (lift (percent_read charcount bytes))
               (fun percent => pass_thresholds percent [25; 50; 75] L)
        else ret L) s
    (fun L1 s1 => traced (between L L1) [] s s1 /\ is_level L1 /\ L <= L1)
    (fun s1 => exists p, traced p [] s s1 /\ is_prefix p (between L 75)).
Proof.
  intros cond charcount bytes L s HL. destruct cond.
  - unfold bind, lift.
    destruct (percent_read charcount bytes) as [percent|ex].
    + destruct (passed_levels percent L HL) as (L' & E & HL' & Hle).
      eapply ends_weaken; [apply pass_thresholds_ends| |]; rewrite E; cbn [fst snd].
      * intros L1 s1 (T & ->). auto.
      * intros s1 (p & T & Hp). exists p. split; [exact T|].
        exact (is_prefix_trans _ _ _ _ Hp (between_prefix L L' HL HL' Hle)).
    + unfold ends. exists []. split; [apply traced_refl|apply is_prefix_nil].
  - unfold ends, ret. rewrite between_same.
    split; [apply traced_refl|]. split; [exact HL|lia].
Qed.

Lemma traced_manager : forall f s,
  traced [] [] s (set_manager (f s) s).
Proof.
  intros f s. split; [auto|]. exists []. cbn [logs set_manager].
  rewrite app_nil_r. auto.
Qed.

(** The loop over the lines: the thresholds passed and the lines published. *)
Lemma read_lines_ends : forall lines lineno charcount L s,
  is_level L ->
  ends (read_lines lines lineno charcount L) s
    (fun L' s' => traced (between L L') (numbered_lines lines lineno) s s'
                  /\ is_level L' /\ L <= L')
    (fun s' => exists p l,
                 traced p l s s' /\ is_prefix p (between L 75)
                 /\ is_prefix l (numbered_lines lines lineno)).
Proof.
  induction lines as [|text rest IH]; intros lineno charcount L s HL;
    cbn [read_lines numbered_lines].
  - unfold ends, ret. rewrite between_same.
    split; [apply traced_refl|]. split; [exact HL|lia].
  - unfold bind at 1, gets at 1.
    set (published := if String.eqb (rstrip text) ""
                      then [] else [LogLine_init (rstrip text) (lineno + 1)]).
    eapply ends_bind.
    { apply line_thresholds_ends. exact HL. }
    + intros L1 s1 (T1 & HL1 & Hle1).
      eapply ends_bind.
      { apply (ends_steps _ _ s1 (traced [] [])).
        exact (traced_manager
                 (fun st => set_lineno (lineno + 1) (manager st)) s1). }
      * intros u2 s2 T2.
        eapply ends_bind.
        { apply (ends_steps _ _ s2 (traced [] published)).
          subst published. destruct (String.eqb (rstrip text) "").
          - apply traced_refl.
          - apply publish_line_traced. }
        -- intros u3 s3 T3.
           eapply ends_weaken; [apply (IH _ _ L1 s3 HL1)| |].
           ++ intros L' s' (T & HL' & Hle).
              split; [|split; [exact HL'|lia]].
              pose proof (traced_trans _ _ _ _ _ _ _ T1
                            (traced_trans _ _ _ _ _ _ _ T2
                               (traced_trans _ _ _ _ _ _ _ T3 T))) as G.
              cbn [app] in G. rewrite <- (between_app L L1 L') by (auto; lia).
              exact G.
           ++ intros s' (p & l & T & Hp & Hl).
              exists (between L L1 ++ p), (published ++ l).
              split; [|split].
              ** pose proof (traced_trans _ _ _ _ _ _ _ T1
                               (traced_trans _ _ _ _ _ _ _ T2
                                  (traced_trans _ _ _ _ _ _ _ T3 T))) as G.
                 cbn [app] in G. exact G.
              ** rewrite <- (between_app L L1 75)
                   by (auto using level_75; level_cases HL1; lia).
                 apply is_prefix_app. exact Hp.
              ** apply is_prefix_app. exact Hl.
        -- intros s3 T3. exists (between L L1), published.
           split; [|split].
           ++ pose proof (traced_trans _ _ _ _ _ _ _ T1
                            (traced_trans _ _ _ _ _ _ _ T2 T3)) as G.
              cbn [app] in G. rewrite app_nil_r in G. exact G.
           ++ apply between_prefix; auto.
           ++ apply is_prefix_app_nil.
      * intros s2 T2. exists (between L L1), [].
        split; [|split].
        -- pose proof (traced_trans _ _ _ _ _ _ _ T1 T2) as G.
           rewrite app_nil_r in G. exact G.
        -- apply between_prefix; auto.
        -- apply is_prefix_nil.
    + intros s1 (p & T & Hp). exists p, []. split; [exact T|].
      split; [exact Hp|apply is_prefix_nil].
Qed.

(** The thresholds published after the last line. *)
Lemma final_thresholds_ends : forall ts L s,
  ends (for_each ts
          (fun threshold =>
             if L <? threshold then publish_percent threshold else ret tt)) s
    (fun _ s' => traced (filter (fun t => L <? t) ts) [] s s')
    (fun s' => exists p, traced p [] s s'
                         /\ is_prefix p (filter (fun t => L <? t) ts)).
Proof.
  induction ts as [|t ts IH]; intros L s; cbn [for_each filter].
  - unfold ends, ret. apply traced_refl.
  - set (now := if L <? t then [t] else []).
    assert (E : (if L <? t then t :: filter (fun t0 => L <? t0) ts
                 else filter (fun t0 => L <? t0) ts)
                = now ++ filter (fun t0 => L <? t0) ts).
    { subst now. destruct (L <? t); reflexivity. }
    rewrite E.
    eapply ends_bind.
    { apply (ends_steps _ _ s (traced now [])). subst now.
      destruct (L <? t); [apply publish_percent_traced|apply traced_refl]. }
    + intros u s1 T1. eapply ends_weaken; [apply (IH L s1)| |].
      * intros u1 s' T. exact (traced_trans _ _ _ _ _ _ _ T1 T).
      * intros s' (p & T & Hp). exists (now ++ p). split.
        -- exact (traced_trans _ _ _ _ _ _ _ T1 T).
        -- apply is_prefix_app. exact Hp.
    + intros s1 T1. exists now. split; [exact T1|apply is_prefix_app_nil].
Qed.

Lemma all_thresholds : forall L,
  is_level L -> [0] ++ between 0 L ++ above L = [0; 25; 50; 75; 100].
Proof. intros L HL. level_cases HL; reflexivity. Qed.

Lemma traced_log : forall s r,
  from_listener r -> traced [] [] s (set_logs (logs s ++ [r]) s).
Proof. intros s r H. apply listening_traced. apply listening_log. exact H. Qed.

(** What [processFile] publishes, and what it has published when it fails. *)
Lemma processFile_ends : forall f s,
  ends (processFile f) s
    (fun _ s' =>
       traced [0; 25; 50; 75; 100] (numbered_lines (content f) 0) s s')
    (fun s' => exists p l,
                 traced p l s s' /\ is_prefix p [0; 25; 50; 75; 100]
                 /\ is_prefix l (numbered_lines (content f) 0)).
Proof.
  intros f s. unfold processFile.
  eapply ends_bind.
  { apply (ends_steps _ _ s (traced [] [])).
    exact (traced_manager
             (fun st => mkManager (statusjson (manager st)) (Some (path f))
                          (Some (logFileToLogName (path f))) (size f)
                          (currentlineno (manager st))) s). }
  2: { intros s1 T. exists [], []. split; [exact T|].
       split; apply is_prefix_nil. }
  intros u1 s1 T1. eapply ends_bind.
  { apply (ends_steps _ _ s1 (traced [] [])). apply traced_log. exact I. }
  2: { intros s2 T. exists [], [].
       split; [exact (traced_trans _ _ _ _ _ _ _ T1 T)|].
       split; apply is_prefix_nil. }
  intros u2 s2 T2. eapply ends_bind.
  { apply (ends_steps _ _ s2 (traced [] [])). apply publish_file_started_traced. }
  2: { intros s3 T. exists [], [].
       split; [exact (traced_trans _ _ _ _ _ _ _ T1
                        (traced_trans _ _ _ _ _ _ _ T2 T))|].
       split; apply is_prefix_nil. }
  intros u3 s3 T3.
  pose proof (traced_trans _ _ _ _ _ _ _ T1
                (traced_trans _ _ _ _ _ _ _ T2 T3)) as T03.
  cbn [app] in T03. clear T1 T2 T3.
  eapply ends_bind.
  { apply (ends_steps _ _ s3 (traced [0] [])). apply publish_percent_traced. }
  2: { intros s4 T. exists [0], [].
       split; [exact (traced_trans _ _ _ _ _ _ _ T03 T)|].
       split; [apply (is_prefix_app_nil _ [0])|apply is_prefix_nil]. }
  intros u4 s4 T4.
  pose proof (traced_trans _ _ _ _ _ _ _ T03 T4) as T04.
  cbn [app] in T04. clear T03 T4.
  eapply ends_bind.
  { apply (read_lines_ends (content f) 0 0 0 s4 level_0). }
  2: { intros s5 (p & l & T & Hp & Hl). exists ([0] ++ p), l.
       split; [exact (traced_trans _ _ _ _ _ _ _ T04 T)|]. split; [|exact Hl].
       apply (is_prefix_app _ [0]).
       apply (is_prefix_trans _ _ _ _ Hp).
       exists [100]. reflexivity. }
  intros L s5 (T5 & HL & _).
  pose proof (traced_trans _ _ _ _ _ _ _ T04 T5) as T05.
  cbn [app] in T05. clear T04 T5.
  assert (Hall : forall p, is_prefix p (above L) ->
                 is_prefix (0 :: between 0 L ++ p) [0; 25; 50; 75; 100]).
  { intros p Hp. rewrite <- (all_thresholds L HL).
    apply (is_prefix_app _ [0]). apply is_prefix_app. exact Hp. }
  eapply ends_bind.
  { apply (final_thresholds_ends [25; 50; 75; 100] L s5). }
  2: { intros s6 (p & T & Hp). exists (0 :: between 0 L ++ p), (numbered_lines (content f) 0).
       pose proof (traced_trans _ _ _ _ _ _ _ T05 T) as G.
       rewrite app_nil_r in G. split; [exact G|].
       split; [exact (Hall p Hp)|apply is_prefix_refl]. }
  intros u6 s6 T6.
  pose proof (traced_trans _ _ _ _ _ _ _ T05 T6) as T06.
  rewrite app_nil_r in T06.
  assert (Eall : (0 :: between 0 L) ++ filter (fun t => L <? t) [25; 50; 75; 100]
                 = [0; 25; 50; 75; 100]) by exact (all_thresholds L HL).
  rewrite Eall in T06. clear T05 T6.
  eapply ends_bind.
  { apply (ends_steps _ _ s6 (traced [] [])). apply publish_file_finished_traced. }
  2: { intros s7 T. exists [0; 25; 50; 75; 100], (numbered_lines (content f) 0).
       pose proof (traced_trans _ _ _ _ _ _ _ T06 T) as G.
       rewrite !app_nil_r in G. split; [exact G|].
       split; apply is_prefix_refl. }
  intros u7 s7 T7.
  pose proof (traced_trans _ _ _ _ _ _ _ T06 T7) as T07.
  rewrite !app_nil_r in T07.
  unfold ends, modify.
  pose proof (traced_trans _ _ _ _ _ _ _ T07
                (traced_manager
                   (fun st => mkManager (statusjson (manager st)) None
                                (currentname (manager st)) 0 (Some (-1)))
                   s7)) as G.
  rewrite !app_nil_r in G. exact G.
Qed.

(** X8. Whatever the file holds, [processFile] publishes the percentages
    0, 25, 50, 75 and 100, each once and in this order, when it returns;
    when a listener fails, what it has published until then is the
    beginning of this list. No listener publishes a percentage itself. *)
Theorem X8_percentages_published_once_in_order :
  forall (f : InputFile) (st : State),
    let run := processFile f st in
    exists new,
      logs (snd run) = logs st ++ new
      /\ is_prefix (percent_published new) [0; 25; 50; 75; 100]
      /\ (fst run = Ok tt -> percent_published new = [0; 25; 50; 75; 100]).
Proof.
  intros f st run. subst run.
  pose proof (processFile_ends f st) as H. unfold ends in H.
  destruct (processFile f st) as [[[]|ex] s']; cbn [fst snd].
  - destruct H as (_ & new & L & P & _). exists new.
    split; [exact L|]. rewrite P. split; [apply is_prefix_refl|auto].
  - destruct H as (p & l & (_ & new & L & P & _) & Hp & _). exists new.
    split; [exact L|]. rewrite P. split; [exact Hp|discriminate].
Qed.

Lemma LogLine_init_line : forall text n,
  line (LogLine_init text n) = text /\ lineno (LogLine_init text n) = n.
Proof.
  intros text n. unfold LogLine_init.
  destruct ((0 <=? find text " - ")
            && match text with
               | String c _ => is_digit c
               | EmptyString => false
               end); split; reflexivity.
Qed.

Lemma numbered_lines_sound : forall lines n l,
  In l (numbered_lines lines n) ->
  line l <> EmptyString /\ n < lineno l
  /\ exists text, nth_error lines (Z.to_nat (lineno l - n - 1)) = Some text
                  /\ line l = rstrip text.
Proof.
  induction lines as [|text rest IH]; intros n l H; cbn [numbered_lines] in H.
  - destruct H.
  - apply in_app_or in H. destruct H as [H|H].
    + destruct (String.eqb (rstrip text) "") eqn:E; [destruct H|].
      destruct H as [<-|[]].
      destruct (LogLine_init_line (rstrip text) (n + 1)) as (-> & ->).
      split; [|split; [lia|]].
      * intros F. rewrite F in E. discriminate E.
      * exists text. replace (n + 1 - n - 1) with 0 by lia. auto.
    + destruct (IH (n + 1) l H) as (Hne & Hlt & text' & Hnth & Hline).
      split; [exact Hne|]. split; [lia|].
      exists text'. split; [|exact Hline].
      replace (Z.to_nat (lineno l - n - 1))
        with (S (Z.to_nat (lineno l - (n + 1) - 1))) by lia.
      exact Hnth.
Qed.

Lemma numbered_lines_complete : forall lines n i text,
  nth_error lines i = Some text ->
  rstrip text <> EmptyString ->
  In (LogLine_init (rstrip text) (n + Z.of_nat i + 1)) (numbered_lines lines n).
Proof.
  induction lines as [|t rest IH]; intros n i text H Hne.
  - destruct i; discriminate H.
  - cbn [numbered_lines]. apply in_or_app. destruct i as [|i]; cbn in H.
    + injection H as ->. left.
      destruct (String.eqb (rstrip text) "") eqn:E.
      * apply String.eqb_eq in E. contradiction.
      * left. f_equal. lia.
    + right. replace (n + Z.of_nat (S i) + 1) with (n + 1 + Z.of_nat i + 1) by lia.
      apply IH; assumption.
Qed.

(** X9. The lines [processFile] publishes, when it returns, are the lines
    of the file that are not blank, in their order, each without its
    trailing white space and with its number in the file, blank lines
    counted; when a listener fails, the lines published until then are the
    beginning of that list. So a published line is never empty, and no
    listener publishes a line. *)
Theorem X9_lines_published_are_the_nonblank_lines :
  forall (f : InputFile) (st : State),
    let run := processFile f st in
    let expected := numbered_lines (content f) 0 in
    (exists new,
       logs (snd run) = logs st ++ new
       /\ is_prefix (lines_published new) expected
       /\ (fst run = Ok tt -> lines_published new = expected))
    /\ (forall l, In l expected ->
          line l <> EmptyString /\ 1 <= lineno l
          /\ exists text,
               nth_error (content f) (Z.to_nat (lineno l - 1)) = Some text
               /\ line l = rstrip text)
    /\ (forall i text,
          nth_error (content f) i = Some text ->
          rstrip text <> EmptyString ->
          In (LogLine_init (rstrip text) (Z.of_nat i + 1)) expected).
Proof.
  intros f st run expected. subst run expected. split; [|split].
  - pose proof (processFile_ends f st) as H. unfold ends in H.
    destruct (processFile f st) as [[[]|ex] s']; cbn [fst snd].
    + destruct H as (_ & new & L & _ & K). exists new.
      split; [exact L|]. rewrite K. split; [apply is_prefix_refl|auto].
    + destruct H as (p & l & (_ & new & L & _ & K) & _ & Hl). exists new.
      split; [exact L|]. rewrite K. split; [exact Hl|discriminate].
  - intros l H. destruct (numbered_lines_sound _ _ _ H) as (A & B & text & C & D).
    split; [exact A|]. split; [lia|]. exists text.
    replace (lineno l - 1) with (lineno l - 0 - 1) by lia. auto.
  - intros i text H Hne.
    exact (numbered_lines_complete (content f) 0 i text H Hne).
Qed.

Lemma processFile_no_secondary : forall f s,
  no_secondary s -> no_secondary (snd (processFile f s)).
Proof.
  intros f s H. pose proof (processFile_ends f s) as G. unfold ends in G.
  destruct (processFile f s) as [[[]|ex] s']; cbn [snd].
  - destruct G as (N & _). exact (N H).
  - destruct G as (p & l & (N & _) & _). exact (N H).
Qed.

Lemma no_secondary_iff : forall s, no_secondary s <-> secondary_enabled s = false.
Proof.
  intros s. unfold no_secondary, secondary_enabled.
  destruct (jmsenabled (extractor s)) as [[|]|]; split; intros H;
    congruence.
Qed.

Lemma processFiles_no_secondary : forall files s,
  no_secondary s -> no_secondary (snd (processFiles files s)).
Proof.
  intros files. unfold processFiles.
  induction files as [|f files IH]; intros st H; cbn [for_each].
  - exact H.
  - unfold bind. pose proof (processFile_no_secondary f st H) as G.
    destruct (processFile f st) as [[[]|ex] s1]; cbn [snd] in G |- *.
    + apply IH. exact G.
    + exact G.
Qed.

(** X10. No run over log files enables the pairing with a secondary
    stream: the only kind of status line the handler of the lines
    recognises is the correlator's, so an extractor that has not enabled
    the secondary stream never does, whatever the files hold and whether
    the run fails or not. *)
Theorem X10_secondary_stream_is_never_enabled :
  forall (files : list InputFile) (st : State),
    secondary_enabled st = false ->
    secondary_enabled (snd (processFiles files st)) = false.
Proof.
  intros files st H. apply no_secondary_iff.
  apply processFiles_no_secondary. apply no_secondary_iff. exact H.
Qed.

Lemma X10_secondary_stream_is_never_enabled_witness :
  secondary_enabled
    (snd (processFiles [sample_file_1; sample_file_2] (initial_state true)))
  = false.
Proof.
  exact (X10_secondary_stream_is_never_enabled
           [sample_file_1; sample_file_2] (initial_state true) eq_refl).
Defined.

(** ** The dispatch of an event *)

Lemma for_each_app : forall S A (xs ys : list A) (body : A -> M S unit) s,
  for_each (xs ++ ys) body s
  = bind (for_each xs body) (fun _ => for_each ys body) s.
Proof.
  intros S A xs ys body. induction xs as [|x xs IH]; intros s; cbn [app for_each].
  - reflexivity.
  - unfold bind. destruct (body x s) as [[[]|e] s1]; [|reflexivity].
    rewrite IH. reflexivity.
Qed.

(** X11. [publish] calls the listeners of an event in the order they
    subscribed and stops at the first one that raises: the listeners that
    subscribed after it are not called, and [publish] does not return
    normally. When the manager has a current file and a current line
    number the failure is logged once, with the name of the listener, the
    base name of the file and the line number, and the listener's exception
    is raised again. Without a current file the except clause fails
    itself: a TypeError is raised in the place of the listener's exception
    and nothing is logged; with a file but no line number yet, it is an
    AttributeError. *)
Theorem X11_publish_stops_at_first_failure :
  forall (e : event) (before after : list (string * M State unit))
         (name : string) (m : M State unit) (s s1 s2 : State) (ex : exn),
    for_each before (call_listener e) (set_logs (logs s ++ [LogPublish e]) s)
    = (Ok tt, s1) ->
    m s1 = (Raise ex, s2) ->
    let run := publish e (before ++ (name, m) :: after) s in
    fst run <> Ok tt
    /\ (forall file n,
          currentfile (manager s2) = Some file ->
          currentlineno (manager s2) = Some n ->
          run = (Raise ex,
                 set_logs (logs s2 ++ [LogListenerFailed name (basename file) n e])
                   s2))
    /\ (currentfile (manager s2) = None -> run = (Raise TypeError, s2))
    /\ (forall file,
          currentfile (manager s2) = Some file ->
          currentlineno (manager s2) = None ->
          run = (Raise AttributeError, s2)).
Proof.
  intros e before after name m s s1 s2 ex Hb Hm run.
  assert (R : run = listener_failed e name ex s2).
  { subst run. rewrite publish_unfold.
    assert (E : match before ++ (name, m) :: after with
                | [] => log_ (LogNoSubscribers e)
                | _ :: _ =>
                    for_each (before ++ (name, m) :: after) (call_listener e)
                end
                = for_each (before ++ (name, m) :: after) (call_listener e)).
    { destruct before; reflexivity. }
    rewrite E, for_each_app. unfold bind at 1. rewrite Hb.
    cbn [for_each]. unfold bind, call_listener. cbn [fst snd]. rewrite Hm.
    destruct (listener_failed_cases e name ex s2)
      as [(ex' & ->)|(r & _ & ->)]; reflexivity. }
  rewrite R. unfold listener_failed. split; [|split; [|split]].
  - destruct (currentfile (manager s2)); [|discriminate].
    destruct (currentlineno (manager s2)); discriminate.
  - intros file n -> ->. reflexivity.
  - intros ->. reflexivity.
  - intros file -> ->. reflexivity.
Qed.

Lemma X11_publish_stops_at_first_failure_witness :
  fst (publish (EVENT_ANNOTATED_STATUS_DICT sample_annotated)
         ([("StatusLineSummarizer.handleAnnotatedStatus",
            zoom summarizer set_summarizer (handleAnnotatedStatus sample_annotated))]
          ++ ("CSVStatusWriter.writeStatus",
              csv_writeStatus CSV_STATUS sample_annotated)
             :: [("JSONStatusWriter.writeStatus",
                  json_writeStatus JSON_STATUS sample_annotated)])
         sample_state)
  = Raise AssertionError.
Proof.
  refine (f_equal fst
            (proj1 (proj2
               (X11_publish_stops_at_first_failure
                  (EVENT_ANNOTATED_STATUS_DICT sample_annotated)
                  [("StatusLineSummarizer.handleAnnotatedStatus",
                    zoom summarizer set_summarizer
                      (handleAnnotatedStatus sample_annotated))]
                  [("JSONStatusWriter.writeStatus",
                    json_writeStatus JSON_STATUS sample_annotated)]
                  "CSVStatusWriter.writeStatus"
                  (csv_writeStatus CSV_STATUS sample_annotated)
                  sample_state _ _ AssertionError _ _))
               "logs/correlator.log" 2 _ _)).
  - vm_compute. reflexivity.
  - vm_compute. reflexivity.
  - vm_compute. reflexivity.
  - vm_compute. reflexivity.
Defined.


(** ** The JSON status file *)

Lemma json_writeStatus_run : forall status st f b,
  status <> [] ->
  output (json_status st) = Some f ->
  prependComma (json_status st) = b ->
  exists st',
    json_writeStatus JSON_STATUS status st = (Ok tt, st')
    /\ outs st' = outs st ++ json_records f b [status]
    /\ output (json_status st') = Some f
    /\ prependComma (json_status st') = true
    /\ output_stem (json_status st') = output_stem (json_status st)
    /\ manager st' = manager st.
Proof.
  intros status st f b Hne Ho Hb. destruct status as [|kv status]; [congruence|].
  destruct st as [ex an su cs js csu jsu mg lg ou].
  destruct js as [stem cols o pc].
  cbn [json_status output prependComma] in Ho, Hb. subst o pc.
  destruct b; eexists; (split; [reflexivity|]);
    cbn [json_status set_outs set_json_status outs output wget wset JSON_STATUS
           with_prependComma prependComma output_stem manager json_records app
           snd fst];
    rewrite <- ?app_assoc; repeat split; reflexivity.
Qed.

Lemma json_writeStatus_all : forall statuses st f b,
  Forall (fun status => status <> []) statuses ->
  output (json_status st) = Some f ->
  prependComma (json_status st) = b ->
  exists st',
    for_each statuses (json_writeStatus JSON_STATUS) st = (Ok tt, st')
    /\ outs st' = outs st ++ json_records f b statuses
    /\ output (json_status st') = Some f
    /\ manager st' = manager st.
Proof.
  induction statuses as [|status rest IH]; intros st f b Hall Ho Hb.
  - exists st. cbn. rewrite app_nil_r. auto.
  - inversion Hall as [|? ? Hne Hrest]; subst.
    destruct (json_writeStatus_run status st f _ Hne Ho eq_refl)
      as (s1 & R1 & O1 & F1 & C1 & _ & M1).
    destruct (IH s1 f true Hrest F1 C1) as (s2 & R2 & O2 & F2 & M2).
    exists s2. cbn [for_each]. rewrite (bind_ok _ _ _ _ _ R1).
    split; [exact R2|]. split; [|split; [exact F2|congruence]].
    rewrite O2, O1. destruct (prependComma (json_status st));
      cbn [json_records app];
      rewrite <- app_assoc; reflexivity.
Qed.

Lemma json_writeHeader_run : forall info st name,
  currentname (manager st) = Some name ->
  exists st',
    json_writeHeader JSON_STATUS info st = (Ok tt, st')
    /\ outs st'
       = outs st
           ++ (match output (json_status st) with
               | Some old => [FileClosed old]
               | None => []
               end)
           ++ [FileOpened (output_stem (json_status st) ++ "_" ++ name ++ ".json");
               FileWrite (output_stem (json_status st) ++ "_" ++ name ++ ".json")
                 (JsonHeader info)]
    /\ output (json_status st')
       = Some (output_stem (json_status st) ++ "_" ++ name ++ ".json")%string
    /\ prependComma (json_status st') = false
    /\ manager st' = manager st.
Proof.
  intros info st name Hn.
  destruct st as [ex an su cs js csu jsu mg lg ou].
  destruct js as [stem cols o pc]. destruct mg as [json file cname bytes n].
  cbn [manager currentname] in Hn. subst cname.
  destruct o as [old|]; eexists; (split; [reflexivity|]);
    cbn [json_status set_outs set_json_status outs output wget wset JSON_STATUS
           with_prependComma with_output prependComma output_stem manager app
           snd fst];
    rewrite <- ?app_assoc; repeat split; reflexivity.
Qed.

Lemma json_writeFooter_run : forall st f,
  output (json_status st) = Some f ->
  exists st',
    json_writeFooter JSON_STATUS st = (Ok tt, st')
    /\ outs st' = outs st ++ [FileWrite f (Text (newline ++ "]}" ++ newline));
                              FileClosed f]
    /\ output (json_status st') = None.
Proof.
  intros st f Ho.
  destruct st as [ex an su cs js csu jsu mg lg ou].
  destruct js as [stem cols o pc]. cbn [json_status output] in Ho. subst o.
  eexists. split; [reflexivity|].
  cbn [json_status set_outs set_json_status outs output wget wset JSON_STATUS
         with_output snd fst].
  rewrite <- app_assoc. split; reflexivity.
Qed.

(** X12. The JSON writer's three calls make one well-formed file: the
    header closes the file that was open, if any, and opens the file of the
    current log, the records follow with the text of a comma before every
    record but the first, and the footer closes the list and the file.
    With a log name known and no empty record, none of the calls fails. *)
Theorem X12_json_status_file :
  forall (info : info_t) (statuses : list dict) (name : string) (st : State),
    currentname (manager st) = Some name ->
    Forall (fun status => status <> []) statuses ->
    let run := (json_writeHeader JSON_STATUS info ;;
                for_each statuses (json_writeStatus JSON_STATUS) ;;
                json_writeFooter JSON_STATUS)%M st in
    fst run = Ok tt
    /\ outs (snd run) = outs st ++ json_file (json_status st) name info statuses
    /\ output (json_status (snd run)) = None.
Proof.
  intros info statuses name st Hn Hall run. subst run.
  destruct (json_writeHeader_run info st name Hn) as (s1 & R1 & O1 & F1 & C1 & M1).
  destruct (json_writeStatus_all statuses s1 _ false Hall F1 C1)
    as (s2 & R2 & O2 & F2 & M2).
  destruct (json_writeFooter_run s2 _ F2) as (s3 & R3 & O3 & F3).
  rewrite (bind_ok _ _ _ _ _ R1), (bind_ok _ _ _ _ _ R2), R3. cbn [fst snd].
  split; [reflexivity|]. split; [|exact F3].
  rewrite O3, O2, O1. unfold json_file. rewrite <- !app_assoc. reflexivity.
Qed.

Lemma X12_json_status_file_witness :
  outs (snd ((json_writeHeader JSON_STATUS getExtraInfoDict ;;
              for_each [sample_first; sample_second]
                (json_writeStatus JSON_STATUS) ;;
              json_writeFooter JSON_STATUS)%M sample_state))
  = [FileOpened "status_correlator.json";
     FileWrite "status_correlator.json" (JsonHeader getExtraInfoDict);
     FileWrite "status_correlator.json" (JsonStatus sample_first);
     FileWrite "status_correlator.json" (Text ", ");
     FileWrite "status_correlator.json" (JsonStatus sample_second);
     FileWrite "status_correlator.json" (Text (newline ++ "]}" ++ newline));
     FileClosed "status_correlator.json"].
Proof.
  refine (proj1 (proj2 (X12_json_status_file getExtraInfoDict
                          [sample_first; sample_second] "correlator"
                          sample_state eq_refl _))).
  repeat constructor; discriminate.
Defined.

(** ** The fields of a CSV line *)

Lemma append_inv_head : forall a b c : string, (a ++ b = a ++ c)%string -> b = c.
Proof.
  induction a as [|x a IH]; intros b c H; cbn in H; [exact H|].
  injection H as H. exact (IH _ _ H).
Qed.

Lemma string_length_append : forall a b : string,
  String.length (a ++ b) = (String.length a + String.length b)%nat.
Proof.
  induction a as [|x a IH]; intros b; cbn; [reflexivity|]. rewrite IH. reflexivity.
Qed.

Lemma append_inv_tail : forall a b c : string, (a ++ c = b ++ c)%string -> a = b.
Proof.
  induction a as [|x a IH]; intros b c H; destruct b as [|y b]; cbn in H.
  - reflexivity.
  - exfalso. apply (f_equal String.length) in H. cbn in H.
    rewrite string_length_append in H. lia.
  - exfalso. apply (f_equal String.length) in H. cbn in H.
    rewrite string_length_append in H. lia.
  - injection H as -> H. f_equal. exact (IH _ _ H).
Qed.

Lemma double_quotes_injective : forall a b,
  double_quotes a = double_quotes b -> a = b.
Proof.
  induction a as [|x a IH]; intros b H; destruct b as [|y b];
    cbn [double_quotes] in H.
  - reflexivity.
  - destruct (Ascii.eqb y dquote); discriminate H.
  - destruct (Ascii.eqb x dquote); discriminate H.
  - destruct (Ascii.eqb x dquote) eqn:Ex; destruct (Ascii.eqb y dquote) eqn:Ey.
    + apply Ascii.eqb_eq in Ex, Ey. subst x y.
      injection H as H. f_equal. exact (IH _ H).
    + injection H as Hy H. subst y. rewrite Ascii.eqb_refl in Ey. discriminate Ey.
    + injection H as Hx H. subst x. rewrite Ascii.eqb_refl in Ex. discriminate Ex.
    + injection H as -> H. f_equal. exact (IH _ H).
Qed.

Lemma count_char_append : forall c a b,
  count_char c (a ++ b) = (count_char c a + count_char c b)%nat.
Proof.
  intros c. induction a as [|x a IH]; intros b; cbn; [reflexivity|].
  rewrite IH. lia.
Qed.

Lemma count_double_quotes : forall s,
  count_char dquote (double_quotes s) = (2 * count_char dquote s)%nat.
Proof.
  induction s as [|x s IH]; cbn [double_quotes count_char]; [reflexivity|].
  destruct (Ascii.eqb x dquote) eqn:E; cbn [count_char]; rewrite ?E, IH.
  - rewrite Ascii.eqb_refl. lia.
  - lia.
Qed.

Lemma contains_count : forall c s,
  contains_char c s = false -> count_char c s = O.
Proof.
  intros c. induction s as [|x s IH]; cbn; [reflexivity|].
  destruct (Ascii.eqb x c); [discriminate|]. exact IH.
Qed.

(** X13. The escaping of a CSV field loses nothing and keeps the line
    readable: two different items are never written alike; an item with
    neither a comma nor a double quote is written as it is; any other is
    written between double quotes with its own quotes doubled, so that the
    number of double quotes in a written field is always even. *)
Theorem X13_csv_escape_is_faithful :
  forall a b : string,
    (csv_escape a = csv_escape b -> a = b)
    /\ (contains_char "," a || contains_char dquote a = false ->
        csv_escape a = a)
    /\ (contains_char "," a || contains_char dquote a = true ->
        csv_escape a = String dquote (double_quotes a ++ String dquote "")
        /\ startswith (csv_escape a) (String dquote "") = true)
    /\ Nat.even (count_char dquote (csv_escape a)) = true.
Proof.
  intros a b. unfold csv_escape. split; [|split; [|split]].
  - destruct (contains_char "," a || contains_char dquote a) eqn:Ea;
      destruct (contains_char "," b || contains_char dquote b) eqn:Eb; intros H.
    + injection H as H. apply append_inv_tail in H.
      exact (double_quotes_injective _ _ H).
    + subst b. cbn [contains_char] in Eb. rewrite Ascii.eqb_refl in Eb.
      rewrite orb_true_r in Eb. discriminate Eb.
    + subst a. cbn [contains_char] in Ea. rewrite Ascii.eqb_refl in Ea.
      rewrite orb_true_r in Ea. discriminate Ea.
    + exact H.
  - intros ->. reflexivity.
  - intros ->. split; [reflexivity|]. cbn [startswith].
    rewrite Ascii.eqb_refl. reflexivity.
  - destruct (contains_char "," a || contains_char dquote a) eqn:Ea.
    + cbn [count_char]. rewrite Ascii.eqb_refl.
      rewrite count_char_append, count_double_quotes. cbn [count_char].
      rewrite Ascii.eqb_refl.
      replace (1 + (2 * count_char dquote a + (1 + 0)))%nat
        with (2 * (1 + count_char dquote a))%nat by lia.
      apply Nat.even_even.
    + apply orb_false_iff in Ea. destruct Ea as (_ & Ea).
      rewrite (contains_count _ _ Ea). reflexivity.
Qed.

(** ** Cutting a string at a character *)

Lemma prefix_char : forall c x s,
  String.prefix (String c "") (String x s) = Ascii.eqb c x.
Proof.
  intros c x s. cbn [String.prefix].
  destruct (ascii_dec c x) as [->|N].
  - rewrite Ascii.eqb_refl. destruct s; reflexivity.
  - symmetry. apply Ascii.eqb_neq. exact N.
Qed.

Lemma index_char_absent : forall c s,
  contains_char c s = false -> String.index 0 (String c "") s = None.
Proof.
  intros c. induction s as [|x s IH]; intros H.
  - reflexivity.
  - cbn [contains_char] in H. destruct (Ascii.eqb x c) eqn:E; [discriminate H|].
    cbn [String.index]. rewrite prefix_char, Ascii.eqb_sym, E, (IH H).
    reflexivity.
Qed.

Lemma index_char_first : forall c a b,
  contains_char c a = false ->
  String.index 0 (String c "") (a ++ String c b) = Some (String.length a).
Proof.
  intros c. induction a as [|x a IH]; intros b H.
  - cbn [append String.index]. rewrite prefix_char, Ascii.eqb_refl. reflexivity.
  - cbn [contains_char] in H. destruct (Ascii.eqb x c) eqn:E; [discriminate H|].
    cbn [append String.index String.length].
    rewrite prefix_char, Ascii.eqb_sym, E, (IH b H). reflexivity.
Qed.

Lemma take_append : forall a b, take (String.length a) (a ++ b) = a.
Proof.
  induction a as [|x a IH]; intros b; cbn; [destruct b; reflexivity|].
  rewrite IH. reflexivity.
Qed.

(** X14. The datetime column is cut at its first dot: the text before it
    is what is written. A text without a dot is not written as it is: the
    search for the dot answers -1, and the slice up to -1 drops the last
    character. *)
Theorem X14_datetime_is_cut_at_the_dot :
  forall a b : string,
    contains_char "." a = false ->
    formatItem (VStr (a ++ "." ++ b)) "datetime" = Ok a
    /\ formatItem (VStr a) "datetime"
       = Ok (take (String.length a - 1) a).
Proof.
  intros a b H. unfold formatItem, find. cbn [String.eqb Ascii.eqb Bool.eqb andb].
  split.
  - change (a ++ "." ++ b)%string with (a ++ String "." b)%string.
    rewrite (index_char_first "." a b H). unfold slice_to.
    destruct (Z.ltb_spec (Z.of_nat (String.length a)) 0) as [Hneg|_]; [lia|].
    rewrite Nat2Z.id, take_append. reflexivity.
  - rewrite (index_char_absent "." a H). unfold slice_to.
    cbn [Z.ltb Z.compare]. do 2 f_equal. lia.
Qed.

Lemma X14_datetime_is_cut_at_the_dot_witness :
  formatItem (VStr "2019-04-08 13:23:10.123") "datetime"
  = Ok "2019-04-08 13:23:10"
  /\ formatItem (VStr "2019-04-08 13:23:10") "datetime"
     = Ok "2019-04-08 13:23:1".
Proof.
  exact (X14_datetime_is_cut_at_the_dot "2019-04-08 13:23:10" "123" eq_refl).
Defined.

(** ** A column the status does not have *)

Lemma map_result_ok : forall A B (f : A -> result B) xs ys x,
  map_result f xs = Ok ys -> In x xs -> exists y, f x = Ok y.
Proof.
  intros A B f. induction xs as [|a xs IH]; intros ys x H Hin; [destruct Hin|].
  cbn [map_result] in H. destruct (f a) as [b|] eqn:E; [|discriminate H].
  cbn [rbind] in H. destruct (map_result f xs) as [bs|] eqn:E'; [|discriminate H].
  destruct Hin as [<-|Hin]; [eauto|]. exact (IH bs x eq_refl Hin).
Qed.

(** X15. What the CSV writer does with a column the status lacks. In any
    column but seconds and datetime the place is filled with a question
    mark, and in the datetime column with the empty text. A status without
    seconds cannot be written at all once seconds is one of the columns:
    the question mark is no number, [writeStatus] raises and nothing is
    written. *)
Theorem X15_column_missing_from_the_status :
  forall (sl : slot) (status : dict) (st : State) (cols : list string) (k : string),
    dict_get status k = None ->
    (String.eqb k "seconds" = false ->
     formatItem (dict_get_default status k (VStr "?")) k
     = Ok (if String.eqb k "datetime" then "" else "?"))
    /\ (k = "seconds" ->
        writer_columns (wget sl st) = Some cols ->
        In k cols ->
        snd (csv_writeStatus sl status st) = st
        /\ exists ex, fst (csv_writeStatus sl status st) = Raise ex).
Proof.
  intros sl status st cols k Hk. unfold dict_get_default. rewrite Hk. split.
  - intros Hs. unfold formatItem. rewrite Hs. cbn [andb].
    destruct (String.eqb k "datetime"); reflexivity.
  - intros -> Hc Hin. unfold csv_writeStatus, bind, gets, assert, lift.
    rewrite Hc. destruct cols as [|c cols]; [destruct Hin|].
    cbn [nonempty ret raise].
    destruct status as [|kv status];
      [split; [reflexivity|exists AssertionError; reflexivity]|].
    cbn [nonempty].
    destruct (map_result _ (c :: cols)) as [items|ex] eqn:E.
    + exfalso. destruct (map_result_ok _ _ _ _ _ "seconds" E Hin) as (y & Hy).
      unfold dict_get_default in Hy. rewrite Hk in Hy. discriminate Hy.
    + split; [reflexivity|exists ex; reflexivity].
Qed.

Lemma X15_column_missing_from_the_status_witness :
  formatItem (dict_get_default sample_first "jvm" (VStr "?")) "jvm" = Ok "?".
Proof.
  exact (proj1 (X15_column_missing_from_the_status
                  CSV_STATUS sample_first sample_state [] "jvm" eq_refl)
           eq_refl).
Defined.

(** ** The prefix and the message of a log line *)

Lemma prefix_split : forall a s,
  String.prefix a s = true -> s = (a ++ drop (String.length a) s)%string.
Proof.
  induction a as [|x a IH]; intros s H.
  - reflexivity.
  - destruct s as [|y s]; [discriminate H|].
    cbn [String.prefix] in H. destruct (ascii_dec x y) as [->|]; [|discriminate H].
    cbn [String.length drop append]. f_equal. exact (IH s H).
Qed.

Lemma prefix_take : forall a n s,
  String.prefix a (take n s) = true -> String.prefix a s = true.
Proof.
  induction a as [|x a IH]; intros n s H.
  - destruct s; reflexivity.
  - destruct n as [|n]; [discriminate H|].
    destruct s as [|y s]; [discriminate H|].
    cbn [take String.prefix] in H |- *.
    destruct (ascii_dec x y); [|discriminate H]. exact (IH n s H).
Qed.

Lemma index_split : forall sub s n,
  String.index 0 sub s = Some n ->
  s = (take n s ++ sub ++ drop (n + String.length sub) s)%string.
Proof.
  intros sub. induction s as [|c s IH]; intros n H.
  - cbn [String.index] in H. destruct sub; [|discriminate H].
    injection H as <-. reflexivity.
  - cbn [String.index] in H.
    destruct (String.prefix sub (String c s)) eqn:E.
    + injection H as <-. cbn [take append Nat.add]. exact (prefix_split _ _ E).
    + destruct (String.index 0 sub s) as [m|]; [|discriminate H].
      injection H as <-. cbn [take append Nat.add drop]. f_equal.
      exact (IH m eq_refl).
Qed.

Lemma index_take_none : forall sub s n,
  sub <> EmptyString ->
  String.index 0 sub s = Some n ->
  String.index 0 sub (take n s) = None.
Proof.
  intros sub. induction s as [|c s IH]; intros n Hne H.
  - cbn [String.index] in H. destruct sub; [congruence|discriminate H].
  - cbn [String.index] in H.
    destruct (String.prefix sub (String c s)) eqn:E.
    + injection H as <-. cbn [take String.index]. destruct sub; congruence.
    + destruct (String.index 0 sub s) as [m|] eqn:Em; [|discriminate H].
      injection H as <-. cbn [take String.index].
      destruct (String.prefix sub (String c (take m s))) eqn:E'.
      * apply (prefix_take sub (S m) (String c s)) in E'. congruence.
      * rewrite (IH m Hne eq_refl). reflexivity.
Qed.

(** X16. How a log line is split when it is read. A line that starts with
    a digit and has the separator space, dash, space in it is cut at the
    first separator: the line is the prefix, the separator and the message,
    and there is no separator in the prefix. Any other line has no prefix
    and is its own message. Line and line number are kept as given. *)
Theorem X16_log_line_is_cut_at_the_first_separator :
  forall (text : string) (n : Z),
    let l := LogLine_init text n in
    line l = text /\ lineno l = n
    /\ match rawdetails l with
       | Some raw =>
           text = (raw ++ " - " ++ message l)%string
           /\ find raw " - " = -1
           /\ exists c rest, text = String c rest /\ is_digit c = true
       | None =>
           message l = text
           /\ (find text " - " = -1
               \/ match text with
                  | String c _ => is_digit c = false
                  | EmptyString => True
                  end)
       end.
Proof.
  intros text n l. subst l.
  destruct (LogLine_init_line text n) as (A & B).
  split; [exact A|]. split; [exact B|].
  unfold LogLine_init, find.
  destruct (String.index 0 " - " text) as [i|] eqn:E.
  - destruct text as [|c rest].
    + cbn [andb]. rewrite andb_false_r. cbn [rawdetails message]. auto.
    + destruct (is_digit c) eqn:D.
      * replace (0 <=? Z.of_nat i) with true
          by (symmetry; apply Z.leb_le; lia).
        cbn [andb rawdetails message]. unfold slice_to, slice_from.
        destruct (Z.ltb_spec (Z.of_nat i) 0) as [Hneg|_]; [lia|].
        rewrite Nat2Z.id.
        replace (Z.to_nat (Z.of_nat i + 3)) with (i + 3)%nat by lia.
        split; [exact (index_split " - " _ i E)|]. split; [|eauto].
        rewrite (index_take_none " - " _ i ltac:(discriminate) E). reflexivity.
      * rewrite andb_false_r. cbn [rawdetails message]. auto.
  - cbn [Z.leb Z.compare andb rawdetails message]. auto.
Qed.

(** ** The column set *)

Lemma mem_In : forall k keys, mem k keys = true <-> In k keys.
Proof.
  intros k keys. unfold mem. rewrite existsb_exists. split.
  - intros (x & Hx & E). apply String.eqb_eq in E. subst x. exact Hx.
  - intros H. exists k. split; [exact H|apply String.eqb_refl].
Qed.

Lemma mem_remove_key : forall k k' keys,
  k <> k' -> mem k (remove_key k' keys) = mem k keys.
Proof.
  intros k k' keys H. apply eq_true_iff_eq. rewrite !mem_In.
  unfold remove_key. rewrite filter_In. split.
  - intros [Hin _]. exact Hin.
  - intros Hin. split; [exact Hin|]. apply negb_true_iff.
    apply String.eqb_neq. congruence.
Qed.

Lemma mem_remove_key_same : forall k keys, mem k (remove_key k keys) = false.
Proof.
  intros k keys. apply not_true_is_false. rewrite mem_In.
  unfold remove_key. rewrite filter_In. intros [_ H].
  rewrite String.eqb_refl in H. discriminate H.
Qed.

(** The columns the first loop of [decideColumns] leaves. *)
Lemma decide_known_get : forall table allkeys columns k,
  NoDup (dict_keys table) ->
  dict_get (fst (decide_known table allkeys columns)) k
  = match dict_get table k with
    | Some name =>
        if startswith k "=" || mem k allkeys then Some name
        else dict_get columns k
    | None => dict_get columns k
    end.
Proof.
  induction table as [|[k0 n0] table IH]; intros allkeys columns k Hnd.
  - reflexivity.
  - cbn in Hnd. inversion Hnd as [|? ? Hnot Hnd']; subst.
    cbn [decide_known dict_get].
    destruct (String.eqb k k0) eqn:E.
    + apply String.eqb_eq in E. subst k0.
      pose proof (dict_get_absent _ table k Hnot) as Habs.
      destruct (startswith k "=") eqn:Es; [|destruct (mem k allkeys) eqn:Em];
        rewrite (IH _ _ k Hnd'), Habs; cbn [orb];
        rewrite ?dict_get_set_same; reflexivity.
    + assert (Hne : k <> k0) by (apply String.eqb_neq; exact E).
      destruct (startswith k0 "=") eqn:Es; [|destruct (mem k0 allkeys) eqn:Em];
        rewrite (IH _ _ k Hnd');
        rewrite ?(dict_get_set_other _ columns k0 k n0 E);
        rewrite ?(mem_remove_key k k0 allkeys Hne); reflexivity.
Qed.

Lemma mem_cons : forall k k0 keys,
  mem k (k0 :: keys) = String.eqb k k0 || mem k keys.
Proof. reflexivity. Qed.

(** The keys of the status the first loop leaves for the second. *)
Lemma decide_known_rest : forall table allkeys columns k,
  mem k (snd (decide_known table allkeys columns))
  = mem k allkeys
    && negb (mem k (dict_keys table) && negb (startswith k "=")).
Proof.
  induction table as [|[k0 n0] table IH]; intros allkeys columns k.
  - cbn. rewrite andb_true_r. reflexivity.
  - cbn [decide_known dict_keys map fst]. fold (dict_keys table).
    rewrite mem_cons.
    destruct (String.eqb k k0) eqn:E.
    + apply String.eqb_eq in E. subst k0. cbn [orb].
      destruct (startswith k "=") eqn:Es.
      * rewrite IH, Es. cbn [negb]. rewrite !andb_false_r. reflexivity.
      * destruct (mem k allkeys) eqn:Em; rewrite IH, Es.
        -- rewrite mem_remove_key_same. reflexivity.
        -- rewrite Em. reflexivity.
    + cbn [orb]. assert (Hne : k <> k0) by (apply String.eqb_neq; exact E).
      destruct (startswith k0 "="); [|destruct (mem k0 allkeys)]; rewrite IH;
        rewrite ?(mem_remove_key k k0 allkeys Hne); reflexivity.
Qed.

(** The second loop of [decideColumns]. *)
Lemma decide_unknown_get : forall rest keys (columns : columns_t) k,
  dict_get
    (fold_left (fun columns k => if mem k rest then dict_set columns k k
                                 else columns) keys columns) k
  = if mem k rest && mem k keys then Some k else dict_get columns k.
Proof.
  intros rest. induction keys as [|k0 keys IH]; intros columns k; cbn [fold_left].
  - rewrite andb_false_r. reflexivity.
  - rewrite IH, mem_cons.
    destruct (mem k rest) eqn:Er; cbn [andb].
    + destruct (mem k keys); [rewrite orb_true_r; reflexivity|].
      rewrite orb_false_r.
      destruct (String.eqb k k0) eqn:E.
      * apply String.eqb_eq in E. subst k0. rewrite Er.
        apply dict_get_set_same.
      * destruct (mem k0 rest); [|reflexivity].
        apply dict_get_set_other. exact E.
    + destruct (mem k0 rest) eqn:Er0; [|reflexivity].
      apply dict_get_set_other. apply String.eqb_neq. intros ->. congruence.
Qed.

Lemma decide_NoDup_known : forall table allkeys columns,
  NoDup (dict_keys columns) ->
  NoDup (dict_keys (fst (decide_known table allkeys columns))).
Proof.
  induction table as [|[k0 n0] table IH]; intros allkeys columns H;
    cbn [decide_known]; [exact H|].
  destruct (startswith k0 "="); [|destruct (mem k0 allkeys)];
    apply IH; try apply dict_set_NoDup; exact H.
Qed.

Lemma decide_NoDup_unknown : forall rest keys (columns : columns_t),
  NoDup (dict_keys columns) ->
  NoDup (dict_keys
           (fold_left (fun columns k => if mem k rest then dict_set columns k k
                                        else columns) keys columns)).
Proof.
  intros rest. induction keys as [|k0 keys IH]; intros columns H; cbn [fold_left];
    [exact H|].
  apply IH. destruct (mem k0 rest); [apply dict_set_NoDup|]; exact H.
Qed.

Lemma table_NoDup : NoDup (dict_keys COLUMN_DISPLAY_NAMES).
Proof.
  apply (NoDup_count_occ' string_dec). intros x Hx.
  cbn in Hx.
  repeat (destruct Hx as [<-|Hx]; [vm_compute; reflexivity|]).
  destruct Hx.
Qed.

(** X17. The column set of a file, as a map from keys to display names.
    A key of the first status that the table of display names knows gets
    its display name from the table; a key the table does not know, or one
    that starts with an equals sign, is shown under its own name; the
    generated keys of the table are columns whether the status has them or
    not; nothing else is a column, and no key is a column twice. So no
    field of the status is dropped. *)
Theorem X17_column_set_of_a_status :
  forall (status : dict) (k : string),
    dict_get (decideColumns status) k
    = (if mem k (dict_keys status)
       then match dict_get COLUMN_DISPLAY_NAMES k with
            | Some name => if startswith k "=" then Some k else Some name
            | None => Some k
            end
       else match dict_get COLUMN_DISPLAY_NAMES k with
            | Some name => if startswith k "=" then Some name else None
            | None => None
            end)
    /\ NoDup (dict_keys (decideColumns status)).
Proof.
  intros status k. unfold decideColumns.
  pose proof (decide_known_get COLUMN_DISPLAY_NAMES (dict_keys status) [] k
                table_NoDup) as G.
  pose proof (decide_known_rest COLUMN_DISPLAY_NAMES (dict_keys status) [] k)
    as R.
  pose proof (decide_NoDup_known COLUMN_DISPLAY_NAMES (dict_keys status) []
                (NoDup_nil _)) as N.
  destruct (decide_known COLUMN_DISPLAY_NAMES (dict_keys status) [])
    as [columns rest]. cbn [fst snd] in G, R, N.
  split; [|apply decide_NoDup_unknown; exact N].
  rewrite decide_unknown_get, G, R. cbn [dict_get].
  assert (T : mem k (dict_keys COLUMN_DISPLAY_NAMES)
              = match dict_get COLUMN_DISPLAY_NAMES k with
                | Some _ => true
                | None => false
                end).
  { destruct (dict_get COLUMN_DISPLAY_NAMES k) as [name|] eqn:E.
    - apply mem_In. destruct (in_dec string_dec k (dict_keys COLUMN_DISPLAY_NAMES))
        as [Hin|Hout]; [exact Hin|].
      rewrite (dict_get_absent _ _ k Hout) in E. discriminate E.
    - apply not_true_is_false. rewrite mem_In. intros Hin.
      destruct (dict_get_in _ _ k Hin) as (v & Hv). congruence. }
  rewrite T.
  destruct (mem k (dict_keys status)); destruct (dict_get COLUMN_DISPLAY_NAMES k);
    destruct (startswith k "="); reflexivity.
Qed.

(** ** The memory columns *)

Lemma column_value_delta : forall status prev seconds k x name,
  In (k, x) delta_columns ->
  column_value status prev seconds k name
  = match prev with
    | None => Ok (VInt 0)
    | Some p =>
        (prev_seconds <- dict_item p "seconds" ;;
         if py_eq seconds prev_seconds then Ok (VInt 0)
         else if String.eqb x "jvm" && negb (dict_contains p "jvm")
         then Ok (VInt (-1))
         else (n <- field_delta status p x ;; py_truediv n (VFloat 1024%float)))%res
    end.
Proof.
  intros status prev seconds k x name H.
  destruct H as [H|[H|[H|[]]]]; injection H as <- <-;
    unfold column_value; cbn [startswith String.eqb Ascii.eqb Bool.eqb andb negb];
    destruct prev as [p|]; try reflexivity;
    destruct (dict_item p "seconds") as [ps|]; try reflexivity; cbn [rbind];
    destruct (py_eq seconds ps); try reflexivity.
  destruct (dict_contains p "jvm"); reflexivity.
Qed.

Lemma column_value_memory : forall status prev seconds k name,
  startswith k "=" = false ->
  In name memory_names ->
  column_value status prev seconds k name
  = match dict_get status k with
    | None | Some VNone => Ok VNone
    | Some v => py_truediv v (VFloat 1024%float)
    end.
Proof.
  intros status prev seconds k name Hk Hn. unfold column_value. rewrite Hk.
  assert (E : mem name ["pm=resident MB"; "vm=virtual MB"; "jvm=Java MB"] = true)
    by (apply mem_In; exact Hn).
  rewrite E. unfold dict_get_default.
  destruct (dict_get status k) as [[ | | | | ]|]; reflexivity.
Qed.

(** X18. The memory columns of an annotated status. A field shown under
    one of the megabyte names is the field of the status divided by 1024.0,
    and None when the status has no such field. A column of the change of
    a memory field is 0 for the first status of a file and 0 whenever the
    status has the same seconds as the one before it, whatever the memory
    did; otherwise it is the difference of the field divided by 1024.0,
    but -1 for the Java memory when the status before has none. *)
Theorem X18_memory_columns :
  forall (display : columns_t) (status : dict) (prev : option dict) (a : dict)
         (k name : string),
    annotateStatus display status prev = Ok a ->
    In (k, name) display ->
    (forall k', In (k', name) display -> k' = k) ->
    (startswith k "=" = false -> In name memory_names ->
     match dict_get status k with
     | None | Some VNone => dict_get a name = Some VNone
     | Some v => exists mb, py_truediv v (VFloat 1024%float) = Ok mb
                            /\ dict_get a name = Some mb
     end)
    /\ (forall x, In (k, x) delta_columns ->
        match prev with
        | None => dict_get a name = Some (VInt 0)
        | Some p =>
            exists seconds prev_seconds,
              dict_get status "seconds" = Some seconds
              /\ dict_get p "seconds" = Some prev_seconds
              /\ if py_eq seconds prev_seconds
                 then dict_get a name = Some (VInt 0)
                 else if String.eqb x "jvm" && negb (dict_contains p "jvm")
                 then dict_get a name = Some (VInt (-1))
                 else exists n v,
                        field_delta status p x = Ok n
                        /\ py_truediv n (VFloat 1024%float) = Ok v
                        /\ dict_get a name = Some v
        end).
Proof.
  intros display status prev a k name Ha Hin Huniq.
  destruct (annotateStatus_value _ _ _ _ _ _ Ha Hin Huniq)
    as (seconds & v & Hsec & Hv & Hget).
  split.
  - intros Hk Hn. rewrite (column_value_memory _ _ _ _ _ Hk Hn) in Hv.
    destruct (dict_get status k) as [[ |b|z|f|s]|];
      try (injection Hv as <-; exact Hget); eauto.
  - intros x Hx. rewrite (column_value_delta _ _ _ _ _ _ Hx) in Hv.
    destruct prev as [p|]; [|injection Hv as <-; exact Hget].
    unfold dict_item in Hsec, Hv.
    destruct (dict_get status "seconds") as [sec|]; [|discriminate Hsec].
    injection Hsec as <-.
    destruct (dict_get p "seconds") as [ps|]; [|discriminate Hv].
    cbn [rbind] in Hv. exists sec, ps. split; [reflexivity|]. split; [reflexivity|].
    destruct (py_eq sec ps); [injection Hv as <-; exact Hget|].
    destruct (String.eqb x "jvm" && negb (dict_contains p "jvm"));
      [injection Hv as <-; exact Hget|].
    destruct (field_delta status p x) as [n|]; [|discriminate Hv].
    cbn [rbind] in Hv. eauto.
Qed.

Lemma sample_memory_unique : forall k',
  In (k', "pm=resident MB") (decideColumns sample_first) -> k' = "pm".
Proof.
  intros k' H. vm_compute in H.
  repeat (destruct H as [H|H]; [try discriminate H; injection H as <-; reflexivity|]).
  destruct H.
Qed.

Lemma X18_memory_columns_witness :
  exists mb, py_truediv (VInt 2048) (VFloat 1024%float) = Ok mb
             /\ dict_get sample_annotated "pm=resident MB" = Some mb.
Proof.
  refine (proj1 (X18_memory_columns (decideColumns sample_first) sample_second
                   (Some sample_previous) sample_annotated
                   "pm" "pm=resident MB" _ _ sample_memory_unique)
            eq_refl _).
  - vm_compute. reflexivity.
  - vm_compute. tauto.
  - left. reflexivity.
Defined.

(** ** The name of a log *)

Lemma append_assoc : forall a b c : string,
  ((a ++ b) ++ c = a ++ (b ++ c))%string.
Proof.
  induction a as [|x a IH]; intros b c; cbn; [reflexivity|].
  rewrite IH. reflexivity.
Qed.

Lemma append_nil_r : forall a : string, (a ++ "")%string = a.
Proof. induction a as [|x a IH]; cbn; [reflexivity|]. rewrite IH. reflexivity. Qed.

Lemma rev_string_aux_spec : forall s acc,
  rev_string_aux s acc = (rev_string_aux s "" ++ acc)%string.
Proof.
  induction s as [|c s IH]; intros acc; cbn [rev_string_aux]; [reflexivity|].
  rewrite (IH (String c acc)), (IH (String c "")).
  rewrite append_assoc. reflexivity.
Qed.

Lemma basename_aux_plain : forall name acc,
  contains_char "/" name = false ->
  basename_aux name acc = (rev_string acc ++ name)%string.
Proof.
  induction name as [|c name IH]; intros acc H; cbn [basename_aux].
  - symmetry. apply append_nil_r.
  - cbn [contains_char] in H. destruct (Ascii.eqb c "/"); [discriminate H|].
    rewrite (IH _ H). unfold rev_string. cbn [rev_string_aux].
    rewrite (rev_string_aux_spec acc (String c "")).
    rewrite append_assoc. reflexivity.
Qed.

Lemma basename_aux_dir : forall dir name acc,
  basename_aux (dir ++ String "/" name) acc = basename_aux name "".
Proof.
  induction dir as [|c dir IH]; intros name acc; cbn [append basename_aux].
  - reflexivity.
  - destruct (Ascii.eqb c "/"); apply IH.
Qed.

Lemma remove_all_plain_app : forall old a s,
  contains_char "." a = false ->
  remove_all_aux (String "." old) 0 (a ++ s)
  = (a ++ remove_all_aux (String "." old) 0 s)%string.
Proof.
  intros old. induction a as [|c a IH]; intros s H; cbn [append].
  - reflexivity.
  - cbn [contains_char] in H. destruct (Ascii.eqb c ".") eqn:E; [discriminate H|].
    cbn [remove_all_aux startswith]. rewrite Ascii.eqb_sym, E. cbn [andb].
    rewrite (IH s H). reflexivity.
Qed.

Lemma remove_all_plain : forall old a,
  contains_char "." a = false -> remove_all_aux (String "." old) 0 a = a.
Proof.
  intros old a H. rewrite <- (append_nil_r a) at 1.
  rewrite (remove_all_plain_app old a "" H). cbn [remove_all_aux].
  apply append_nil_r.
Qed.

Lemma logFileToLogName_of_basename : forall filename a b,
  basename filename = (a ++ ".log" ++ b)%string
  \/ basename filename = (a ++ ".output.log" ++ b)%string ->
  contains_char "." a = false -> contains_char "." b = false ->
  logFileToLogName filename = (a ++ b)%string.
Proof.
  intros filename a b H Ha Hb. unfold logFileToLogName, remove_all.
  destruct H as [-> | ->].
  - rewrite (remove_all_plain_app _ a _ Ha).
    cbn [append remove_all_aux startswith Ascii.eqb Bool.eqb andb String.length
           Nat.sub].
    rewrite (remove_all_plain _ b Hb).
    rewrite (remove_all_plain_app _ a _ Ha).
    cbn [append remove_all_aux startswith Ascii.eqb Bool.eqb andb String.length
           Nat.sub].
    rewrite (remove_all_plain _ b Hb). reflexivity.
  - rewrite (remove_all_plain_app _ a _ Ha).
    cbn [append remove_all_aux startswith Ascii.eqb Bool.eqb andb String.length
           Nat.sub].
    rewrite (remove_all_plain _ b Hb).
    rewrite (remove_all_plain_app _ a _ Ha), (remove_all_plain _ b Hb).
    reflexivity.
Qed.

(** X19. The name of a log is the file name without its directories and
    without its extension: for a file name that is some text, the
    extension .log or .output.log, and some more text, with no dot in the
    two texts, the name is the two texts put together. So the extension is
    taken out wherever it stands in the file name, not only at its end. *)
Theorem X19_log_name_of_a_file :
  forall (dir a b : string),
    contains_char "/" a = false -> contains_char "." a = false ->
    contains_char "/" b = false -> contains_char "." b = false ->
    logFileToLogName (dir ++ "/" ++ a ++ ".log" ++ b) = (a ++ b)%string
    /\ logFileToLogName (dir ++ "/" ++ a ++ ".output.log" ++ b) = (a ++ b)%string
    /\ logFileToLogName (a ++ ".log" ++ b) = (a ++ b)%string
    /\ logFileToLogName (a ++ ".output.log" ++ b) = (a ++ b)%string.
Proof.
  intros dir a b Ha1 Ha2 Hb1 Hb2.
  assert (P : forall ext, contains_char "/" ext = false ->
                contains_char "/" (a ++ ext ++ b) = false).
  { intros ext Hext.
    assert (G : forall x y, contains_char "/" x = false ->
                  contains_char "/" y = false ->
                  contains_char "/" (x ++ y) = false).
    { induction x as [|c x IH]; intros y Hx Hy; cbn [append contains_char] in *;
        [exact Hy|].
      destruct (Ascii.eqb c "/"); [discriminate Hx|]. apply IH; assumption. }
    apply G; [exact Ha1|]. apply G; assumption. }
  assert (B : forall ext, contains_char "/" ext = false ->
                basename (dir ++ "/" ++ a ++ ext ++ b) = (a ++ ext ++ b)%string
                /\ basename (a ++ ext ++ b) = (a ++ ext ++ b)%string).
  { intros ext Hext. unfold basename. split.
    - change (dir ++ "/" ++ a ++ ext ++ b)%string
        with (dir ++ String "/" (a ++ ext ++ b))%string.
      rewrite basename_aux_dir. apply (basename_aux_plain _ "" (P ext Hext)).
    - apply (basename_aux_plain _ "" (P ext Hext)). }
  destruct (B ".log" eq_refl) as (B1 & B2).
  destruct (B ".output.log" eq_refl) as (B3 & B4).
  repeat split; apply logFileToLogName_of_basename; auto.
Qed.

Lemma X19_log_name_of_a_file_witness :
  logFileToLogName "logs/2019/correlator.output.log" = "correlator"
  /\ logFileToLogName "logs/2019/my.logs" = "mys".
Proof.
  split.
  - exact (proj1 (proj2 (X19_log_name_of_a_file "logs/2019" "correlator" ""
                           eq_refl eq_refl eq_refl eq_refl))).
  - exact (proj1 (X19_log_name_of_a_file "logs/2019" "my" "s"
                    eq_refl eq_refl eq_refl eq_refl)).
Defined.

(** ** The text of an integer *)

Lemma is_digit_facts : forall c,
  is_digit c = true ->
  digit_of c = Some (Z.of_nat (nat_of_ascii c) - 48)
  /\ Ascii.eqb c "," = false /\ Ascii.eqb c dquote = false
  /\ Ascii.eqb c "-" = false /\ Ascii.eqb c "+" = false
  /\ is_cspace c = false.
Proof.
  intros c H. unfold digit_of. rewrite H. split; [reflexivity|].
  destruct c as [[] [] [] [] [] [] [] []]; try discriminate H;
    repeat split; reflexivity.
Qed.

Lemma digit_char_is_digit : forall d,
  0 <= d < 10 ->
  is_digit (digit_char d) = true
  /\ Z.of_nat (nat_of_ascii (digit_char d)) - 48 = d.
Proof.
  intros d H.
  assert (E : d = 0 \/ d = 1 \/ d = 2 \/ d = 3 \/ d = 4 \/ d = 5 \/ d = 6
              \/ d = 7 \/ d = 8 \/ d = 9) by lia.
  repeat (destruct E as [->|E]; [split; reflexivity|]).
  subst d. split; reflexivity.
Qed.

Lemma all_chars_weaken : forall (p q : ascii -> bool) s,
  (forall c, p c = true -> q c = true) ->
  all_chars p s = true -> all_chars q s = true.
Proof.
  intros p q s Hpq. induction s as [|c s IH]; cbn; [reflexivity|].
  intros H. apply andb_true_iff in H as (H1 & H2).
  rewrite (Hpq c H1), (IH H2). reflexivity.
Qed.

Lemma all_chars_rev_aux : forall p s acc,
  all_chars p (rev_string_aux s acc) = all_chars p s && all_chars p acc.
Proof.
  intros p. induction s as [|c s IH]; intros acc; cbn [rev_string_aux all_chars].
  - reflexivity.
  - rewrite IH. cbn [all_chars]. rewrite andb_assoc, (andb_comm (all_chars p s)).
    reflexivity.
Qed.

Lemma all_chars_rev : forall p s, all_chars p (rev_string s) = all_chars p s.
Proof.
  intros p s. unfold rev_string. rewrite all_chars_rev_aux. cbn.
  apply andb_true_r.
Qed.


Lemma rev_string_aux_twice : forall s acc acc',
  rev_string_aux (rev_string_aux s acc) acc'
  = rev_string_aux acc (s ++ acc')%string.
Proof.
  induction s as [|c s IH]; intros acc acc'; cbn [rev_string_aux append].
  - reflexivity.
  - rewrite IH. reflexivity.
Qed.

Lemma rev_string_involutive : forall s, rev_string (rev_string s) = s.
Proof.
  intros s. unfold rev_string. rewrite rev_string_aux_twice.
  cbn [rev_string_aux]. apply append_nil_r.
Qed.

Lemma rev_string_length_aux : forall s acc,
  String.length (rev_string_aux s acc)
  = (String.length s + String.length acc)%nat.
Proof.
  induction s as [|c s IH]; intros acc; cbn [rev_string_aux String.length].
  - reflexivity.
  - rewrite IH. cbn [String.length]. lia.
Qed.

Lemma rev_string_length : forall s,
  String.length (rev_string s) = String.length s.
Proof.
  intros s. unfold rev_string. rewrite rev_string_length_aux. cbn. lia.
Qed.

(** White space is stripped from neither end of a text without any. *)
Lemma strip_of_plain : forall space s,
  all_chars (fun c => negb (space c)) s = true -> strip_of space s = s.
Proof.
  intros space.
  assert (L : forall s, all_chars (fun c => negb (space c)) s = true ->
                lstrip_of space s = s).
  { intros [|c s]; cbn; [reflexivity|]. intros H.
    apply andb_true_iff in H as (H & _).
    destruct (space c); [discriminate H|reflexivity]. }
  intros s H. unfold strip_of. rewrite (L s H).
  rewrite L by (rewrite all_chars_rev; exact H).
  apply rev_string_involutive.
Qed.

(** The digits of a natural number: all of them digits, at least one, and
    read from the left they make the number again. *)
Lemma digits_of_pos_aux_spec : forall fuel n acc ds,
  0 <= n < 2 ^ Z.of_nat (S fuel) ->
  all_chars is_digit acc = true ->
  digitpart_rest acc = (ds, EmptyString) ->
  exists c rest ds',
    digits_of_pos_aux (S fuel) n acc = String c rest
    /\ all_chars is_digit (String c rest) = true
    /\ digitpart_rest (String c rest) = (ds', EmptyString)
    /\ fold_left (fun a d => 10 * a + d) ds' 0
       = fold_left (fun a d => 10 * a + d) ds n.
Proof.
  induction fuel as [|fuel IH]; intros n acc ds Hn Hacc Hds.
  - assert (Hd : 0 <= n < 10) by (cbn in Hn; lia).
    destruct (digit_char_is_digit n Hd) as (D1 & D2).
    destruct (is_digit_facts _ D1) as (D3 & _).
    cbn [digits_of_pos_aux]. destruct (Z.ltb_spec n 10) as [_|Hge]; [|lia].
    exists (digit_char n), acc, (n :: ds).
    split; [reflexivity|]. split; [cbn [all_chars]; rewrite D1, Hacc; reflexivity|].
    split.
    + cbn [digitpart_rest]. rewrite D3, D2, Hds. reflexivity.
    + cbn [fold_left]. f_equal; lia.
  - change (digits_of_pos_aux (S (S fuel)) n acc)
      with (if n <? 10 then String (digit_char n) acc
            else digits_of_pos_aux (S fuel) (n / 10)
                   (String (digit_char (n mod 10)) acc)).
    destruct (Z.ltb_spec n 10) as [Hlt|Hge].
    + assert (Hd : 0 <= n < 10) by lia.
      destruct (digit_char_is_digit n Hd) as (D1 & D2).
      destruct (is_digit_facts _ D1) as (D3 & _).
      exists (digit_char n), acc, (n :: ds).
      split; [reflexivity|].
      split; [cbn [all_chars]; rewrite D1, Hacc; reflexivity|]. split.
      * cbn [digitpart_rest]. rewrite D3, D2, Hds. reflexivity.
      * cbn [fold_left]. f_equal; lia.
    + assert (Hd : 0 <= n mod 10 < 10) by (apply Z.mod_pos_bound; lia).
      destruct (digit_char_is_digit _ Hd) as (D1 & D2).
      destruct (is_digit_facts _ D1) as (D3 & _).
      assert (Hq : 0 <= n / 10 < 2 ^ Z.of_nat (S fuel)).
      { split; [apply Z.div_pos; lia|].
        apply Z.div_lt_upper_bound; [lia|].
        replace (Z.of_nat (S (S fuel))) with (Z.of_nat (S fuel) + 1) in Hn by lia.
        rewrite Z.pow_add_r in Hn by lia.
        assert (0 < 2 ^ Z.of_nat (S fuel)) by (apply Z.pow_pos_nonneg; lia).
        lia. }
      destruct (IH (n / 10) (String (digit_char (n mod 10)) acc)
                  (n mod 10 :: ds) Hq) as (c & rest & ds' & E1 & E2 & E3 & E4).
      * cbn [all_chars]. rewrite D1, Hacc. reflexivity.
      * cbn [digitpart_rest]. rewrite D3, D2, Hds. reflexivity.
      * exists c, rest, ds'. repeat split; try assumption.
        rewrite E4. cbn [fold_left]. f_equal.
        pose proof (Z.div_mod n 10). lia.
Qed.

Lemma digits_of_nat_spec : forall n,
  0 <= n ->
  exists c rest ds,
    digits_of_nat n = String c rest
    /\ all_chars is_digit (String c rest) = true
    /\ digitpart (String c rest) = (ds, EmptyString)
    /\ ds <> []
    /\ Z_of_digits ds = n.
Proof.
  intros n Hn. unfold digits_of_nat.
  destruct (digits_of_pos_aux_spec (Z.to_nat (Z.log2 n)) n EmptyString [])
    as (c & rest & ds & E1 & E2 & E3 & E4); try reflexivity.
  - split; [exact Hn|].
    replace (Z.of_nat (S (Z.to_nat (Z.log2 n)))) with (Z.succ (Z.log2 n))
      by (pose proof (Z.log2_nonneg n); lia).
    destruct (Z.eq_dec n 0) as [->|Hne]; [reflexivity|].
    apply Z.log2_spec. lia.
  - exists c, rest, ds. split; [exact E1|]. split; [exact E2|].
    cbn [all_chars] in E2. apply andb_true_iff in E2 as (Hc & _).
    destruct (is_digit_facts c Hc) as (Hd & _).
    cbn [digitpart_rest] in E3. rewrite Hd in E3.
    cbn [digitpart]. rewrite Hd. split; [exact E3|]. split.
    + destruct (digitpart_rest rest). injection E3 as <- _. discriminate.
    + exact E4.
Qed.

(** The length of the digits: four or more from 1000 on. *)
Lemma digits_of_pos_aux_longer : forall fuel n acc,
  (String.length acc <= String.length (digits_of_pos_aux fuel n acc))%nat.
Proof.
  induction fuel as [|fuel IH]; intros n acc; cbn [digits_of_pos_aux]; [lia|].
  destruct (n <? 10); cbn [String.length]; [lia|].
  specialize (IH (n / 10) (String (digit_char (n mod 10)) acc)).
  cbn [String.length] in IH. lia.
Qed.

Lemma digits_of_nat_length : forall n,
  0 <= n ->
  (4 <=? String.length (digits_of_nat n))%nat = negb (n <? 1000).
Proof.
  intros n Hn. unfold digits_of_nat.
  destruct (Z.ltb_spec n 1000) as [Hlt|Hge]; cbn [negb].
  - apply Nat.leb_gt.
    destruct (Z.ltb_spec n 10) as [H1|H1].
    { cbn [digits_of_pos_aux]. destruct (Z.ltb_spec n 10); [cbn; lia|lia]. }
    assert (L1 : 3 <= Z.log2 n).
    { change 3 with (Z.log2 10). apply Z.log2_le_mono. lia. }
    destruct (Z.to_nat (Z.log2 n)) as [|[|[|f]]] eqn:Ef; try lia.
    cbn [digits_of_pos_aux].
    destruct (Z.ltb_spec n 10); [lia|].
    destruct (Z.ltb_spec (n / 10) 10); [cbn; lia|].
    destruct (Z.ltb_spec (n / 10 / 10) 10) as [|H3]; [cbn; lia|].
    exfalso. rewrite Z.div_div in H3 by lia.
    assert (n / (10 * 10) < 10) by (apply Z.div_lt_upper_bound; lia). lia.
  - apply Nat.leb_le.
    assert (L1 : 9 <= Z.log2 n).
    { change 9 with (Z.log2 1000). apply Z.log2_le_mono. lia. }
    destruct (Z.to_nat (Z.log2 n)) as [|[|[|f]]] eqn:Ef; try lia.
    cbn [digits_of_pos_aux].
    assert (Q1 : 100 <= n / 10) by (apply Z.div_le_lower_bound; lia).
    assert (Q2 : 10 <= n / 10 / 10) by (apply Z.div_le_lower_bound; lia).
    destruct (Z.ltb_spec n 10); [lia|].
    destruct (Z.ltb_spec (n / 10) 10); [lia|].
    destruct (Z.ltb_spec (n / 10 / 10) 10); [lia|].
    destruct (n / 10 / 10 / 10 <? 10); [cbn [String.length]; lia|].
    match goal with
    | |- (_ <= String.length (digits_of_pos_aux ?f ?m ?a))%nat =>
        pose proof (digits_of_pos_aux_longer f m a) as G
    end.
    cbn [String.length] in G. lia.
Qed.

Lemma rev_string_cons : forall c s,
  rev_string (String c s) = (rev_string s ++ String c "")%string.
Proof.
  intros c s. unfold rev_string. cbn [rev_string_aux]. apply rev_string_aux_spec.
Qed.

(** Grouping puts commas between the digits and changes nothing else; the
    first comma comes with the fourth digit. *)
Lemma group_thousands_rev_spec : forall r count acc,
  all_chars is_digit r = true -> (count <= 3)%nat ->
  remove_all_aux "," 0 (group_thousands_rev r count acc)
  = (rev_string r ++ remove_all_aux "," 0 acc)%string
  /\ contains_char "," (group_thousands_rev r count acc)
     = contains_char "," acc || (4 <=? String.length r + count)%nat
  /\ contains_char dquote (group_thousands_rev r count acc)
     = contains_char dquote acc.
Proof.
  induction r as [|c r IH]; intros count acc Hr Hc.
  - cbn [group_thousands_rev String.length]. split; [reflexivity|].
    split; [|reflexivity].
    destruct (Nat.leb_spec 4 (0 + count)) as [H|_]; [lia|].
    rewrite orb_false_r. reflexivity.
  - cbn [all_chars] in Hr. apply andb_true_iff in Hr as (Hd & Hr).
    destruct (is_digit_facts c Hd) as (_ & C1 & C2 & _).
    assert (S1 : forall s, remove_all_aux "," 0 (String c s)
                           = String c (remove_all_aux "," 0 s)).
    { intros s. cbn [remove_all_aux startswith].
      rewrite Ascii.eqb_sym, C1. reflexivity. }
    rewrite rev_string_cons, append_assoc. cbn [append String.length].
    assert (Hc' : count = 3%nat \/ (count < 3)%nat) by lia.
    destruct Hc' as [->|Hlt].
    + cbn [group_thousands_rev].
      destruct (IH 1%nat (String c (String "," acc)) Hr ltac:(lia))
        as (I1 & I2 & I3).
      rewrite I1, I2, I3, S1. cbn [contains_char]. rewrite C1, C2.
      split; [reflexivity|]. split.
      * assert (L : (4 <=? S (String.length r) + 3)%nat = true)
          by (apply Nat.leb_le; lia).
        rewrite L, orb_true_r. reflexivity.
      * reflexivity.
    + assert (E : group_thousands_rev (String c r) count acc
                  = group_thousands_rev r (S count) (String c acc)).
      { destruct count as [|[|[|k]]]; try reflexivity. lia. }
      rewrite E.
      destruct (IH (S count) (String c acc) Hr ltac:(lia)) as (I1 & I2 & I3).
      rewrite I1, I2, I3, S1. cbn [contains_char]. rewrite C1, C2.
      rewrite Nat.add_succ_r. repeat split; reflexivity.
Qed.

Lemma group_thousands_spec : forall digits,
  all_chars is_digit digits = true ->
  remove_all "," (group_thousands digits) = digits
  /\ contains_char "," (group_thousands digits)
     = (4 <=? String.length digits)%nat
  /\ contains_char dquote (group_thousands digits) = false.
Proof.
  intros digits H. unfold group_thousands, remove_all.
  destruct (group_thousands_rev_spec (rev_string digits) 0 EmptyString)
    as (G1 & G2 & G3); [rewrite all_chars_rev; exact H|lia|].
  rewrite G1, G2, G3, rev_string_involutive, rev_string_length, Nat.add_0_r.
  cbn [remove_all_aux contains_char orb]. rewrite append_nil_r.
  repeat split; reflexivity.
Qed.

Lemma double_quotes_plain : forall s,
  contains_char dquote s = false -> double_quotes s = s.
Proof.
  induction s as [|c s IH]; cbn [contains_char double_quotes]; [reflexivity|].
  destruct (Ascii.eqb c dquote); [discriminate|].
  intros H. rewrite (IH H). reflexivity.
Qed.

(** X20. An integer in the CSV file. In any column but seconds and
    datetime an integer is written as its decimal digits with a comma
    before every group of three: with the commas taken out the text reads
    as the same integer again. The text has a comma from 1000 on, so the
    field of an integer below 1000 in absolute value is written as it is,
    and the field of any other integer is written between double quotes. *)
Theorem X20_integer_field :
  forall (z : Z) (column : string),
    String.eqb column "seconds" = false ->
    String.eqb column "datetime" = false ->
    formatItem (VInt z) column = Ok (format_int_grouped z)
    /\ py_int (remove_all "," (format_int_grouped z)) = Ok z
    /\ csv_escape (format_int_grouped z)
       = (if Z.abs z <? 1000 then format_int_grouped z
          else String dquote (format_int_grouped z ++ String dquote "")).
Proof.
  intros z column Hs Hd. split.
  { unfold formatItem. rewrite Hs, Hd. reflexivity. }
  unfold format_int_grouped.
  destruct (digits_of_nat_spec (Z.abs z) (Z.abs_nonneg z))
    as (c & rest & ds & E1 & E2 & E3 & E4 & E5).
  rewrite E1.
  destruct (group_thousands_spec _ E2) as (G1 & G2 & G3).
  assert (Hlen : (4 <=? String.length (String c rest))%nat
                 = negb (Z.abs z <? 1000)).
  { rewrite <- E1. apply digits_of_nat_length. apply Z.abs_nonneg. }
  assert (Hplain : all_chars (fun x => negb (is_cspace x)) (String c rest) = true).
  { apply (all_chars_weaken is_digit); [|exact E2].
    intros x Hx. destruct (is_digit_facts x Hx) as (_ & _ & _ & _ & _ & ->).
    reflexivity. }
  pose proof E2 as Hc. cbn [all_chars] in Hc.
  apply andb_true_iff in Hc as (Hc & _).
  destruct (is_digit_facts c Hc) as (_ & _ & _ & C3 & C4 & _).
  destruct ds as [|d ds]; [congruence|].
  unfold remove_all in G1.
  destruct (Z.ltb_spec z 0) as [Hneg|Hpos]; split.
  - unfold remove_all. cbn [append remove_all_aux startswith Ascii.eqb Bool.eqb andb].
    rewrite G1. unfold py_int.
    rewrite strip_of_plain by (cbn [all_chars]; cbn [all_chars] in Hplain;
                               rewrite Hplain; reflexivity).
    cbn [split_sign Ascii.eqb Bool.eqb andb]. rewrite E3, E5. f_equal. lia.
  - unfold csv_escape. cbn [append contains_char].
    assert (Q : Ascii.eqb "-" dquote = false) by reflexivity.
    assert (Q' : Ascii.eqb "-" "," = false) by reflexivity.
    rewrite Q, Q', G2, G3, Hlen, orb_false_r.
    destruct (Z.abs z <? 1000); cbn [negb]; [reflexivity|].
    cbn [double_quotes]. rewrite Q, (double_quotes_plain _ G3). reflexivity.
  - cbn [append]. unfold remove_all. rewrite G1. unfold py_int.
    rewrite (strip_of_plain _ _ Hplain). cbn [split_sign]. rewrite C3, C4, E3, E5.
    f_equal. lia.
  - unfold csv_escape. cbn [append]. rewrite G2, G3, Hlen, orb_false_r.
    destruct (Z.abs z <? 1000); cbn [negb]; [reflexivity|].
    rewrite (double_quotes_plain _ G3). reflexivity.
Qed.

Lemma X20_integer_field_witness :
  formatItem (VInt 1234567) "rx" = Ok "1,234,567"
  /\ py_int (remove_all "," "1,234,567") = Ok 1234567
  /\ csv_escape "1,234,567"
     = String dquote ("1,234,567" ++ String dquote "").
Proof.
  exact (X20_integer_field 1234567 "rx" eq_refl eq_refl).
Defined.

(** ** Lines of the secondary source *)

(** A line that is no correlator status is no business of the extractor. *)
Lemma handleLine_ignores : forall l st,
  startswith (message l) "Correlator Status: " = false ->
  handleLine l st = (Ok tt, st).
Proof.
  intros l st H. unfold handleLine, classify. rewrite H. reflexivity.
Qed.






(** ** The second record in the unknown state *)

(** C4 (counterexample). A log with a correlator status line and then a
    status line of the secondary source: the file is read without an
    exception, no combined record is published, the protocol is still
    unknown and the record of the first line is still pending. Nothing was
    merged and nothing cleared. *)
Lemma C4_secondary_line_merges_nothing :
  fst (processFile sample_pair_file (initial_state false)) = Ok tt
  /\ combined_published
       (logs (snd (processFile sample_pair_file (initial_state false)))) = []
  /\ extractor (snd (processFile sample_pair_file (initial_state false)))
     = mkExtractor None (Some sample_primary).
Proof. vm_compute. repeat split. Qed.

(** A second correlator status while the protocol is unknown. *)
Lemma correlate_second_status : forall d p l st,
  jmsenabled (extractor st) = None ->
  previous (extractor st) = Some p ->
  jmsenabled (extractor (snd (correlate CORRELATOR_STATUS_DICT d l st)))
  = Some false
  /\ exists new,
       logs (snd (correlate CORRELATOR_STATUS_DICT d l st)) = logs st ++ new
       /\ (combined_published new = [p; d]
           \/ (combined_published new = [p]
               /\ fst (correlate CORRELATOR_STATUS_DICT d l st) <> Ok tt))
       /\ (fst (correlate CORRELATOR_STATUS_DICT d l st) = Ok tt ->
           combined_published new = [p; d]
           /\ previous (extractor (snd (correlate CORRELATOR_STATUS_DICT d l st)))
              = None).
Proof.
  intros d p l st Hj Hp. rewrite (correlate_detects _ _ _ _ Hj Hp).
  set (s0 := set_extractor (mkExtractor (Some false) (Some p))
               (extracted CORRELATOR_STATUS_DICT d st)).
  pose proof (publish_combined_once p l s0) as (E1 & n1 & L1 & C1).
  destruct (publish_combined p l s0) as [[[]|ex] s1] eqn:Erun; cbn [snd] in *.
  - rewrite (bind_ok _ _ _ _ _ Erun).
    set (s2 := set_extractor (set_previous None (extractor s1)) s1).
    change (bind (update_extractor (set_previous None))
              (fun _ => publish_combined d l) s1)
      with (publish_combined d l s2).
    pose proof (publish_combined_once d l s2) as (E2 & n2 & L2 & C2).
    assert (Hs2 : extractor s2 = mkExtractor (Some false) None).
    { subst s2. cbn [extractor set_extractor]. rewrite E1. reflexivity. }
    split; [rewrite E2, Hs2; reflexivity|].
    exists (([LogExtracted CORRELATOR_STATUS_DICT d;
              LogPublish (EVENT_STATUS_DICT CORRELATOR_STATUS_DICT d);
              LogNoSubscribers (EVENT_STATUS_DICT CORRELATOR_STATUS_DICT d)]
             ++ n1) ++ n2).
    assert (C : combined_published
                  (([LogExtracted CORRELATOR_STATUS_DICT d;
                     LogPublish (EVENT_STATUS_DICT CORRELATOR_STATUS_DICT d);
                     LogNoSubscribers (EVENT_STATUS_DICT CORRELATOR_STATUS_DICT d)]
                    ++ n1) ++ n2) = [p; d]).
    { rewrite !combined_published_app, C1, C2. reflexivity. }
    split; [|split].
    + rewrite L2. subst s2. cbn [logs set_extractor]. rewrite L1.
      subst s0. cbn [logs set_extractor extracted set_logs].
      rewrite <- !app_assoc. reflexivity.
    + left. exact C.
    + intros _. split; [exact C|]. rewrite E2, Hs2. reflexivity.
  - rewrite (bind_raise _ _ _ _ _ Erun). cbn [fst snd].
    split; [rewrite E1; reflexivity|].
    exists ([LogExtracted CORRELATOR_STATUS_DICT d;
             LogPublish (EVENT_STATUS_DICT CORRELATOR_STATUS_DICT d);
             LogNoSubscribers (EVENT_STATUS_DICT CORRELATOR_STATUS_DICT d)]
            ++ n1).
    split; [|split].
    + rewrite L1. subst s0. cbn [logs set_extractor extracted set_logs].
      rewrite <- !app_assoc. reflexivity.
    + right. split; [|discriminate].
      rewrite combined_published_app, C1. reflexivity.
    + discriminate.
Qed.

(** C4 (amended). With the protocol still unknown and a record pending,
    the second record is never one of another source, for the handler of
    the lines knows one source only. A line that is no correlator status, a
    status line of the secondary source among them, is ignored: nothing is
    published, the record stays pending and the protocol unknown. A
    second correlator status makes the extractor decide that there is no
    secondary stream and publish the pending record and then the new one,
    each as it is: exactly these two when the handler returns normally,
    with nothing pending any more, and only the pending one when its
    publication fails. No record is ever merged with another. *)
Theorem C4_second_record_is_never_merged :
  forall (l : LogLine) (p : dict) (st : State),
    jmsenabled (extractor st) = None ->
    previous (extractor st) = Some p ->
    (startswith (message l) "Correlator Status: " = false ->
     handleLine l st = (Ok tt, st))
    /\ (forall d,
          startswith (message l) "Correlator Status: " = true ->
          extract_status CORRELATOR_STATUS_DICT l = Ok d ->
          jmsenabled (extractor (snd (handleLine l st))) = Some false
          /\ exists new,
               logs (snd (handleLine l st)) = logs st ++ new
               /\ (combined_published new = [p; d]
                   \/ (combined_published new = [p]
                       /\ fst (handleLine l st) <> Ok tt))
               /\ (fst (handleLine l st) = Ok tt ->
                   combined_published new = [p; d]
                   /\ previous (extractor (snd (handleLine l st))) = None)).
Proof.
  intros l p st Hj Hp. split; [exact (handleLine_ignores l st)|].
  intros d Hc Hd.
  assert (E : handleLine l st = correlate CORRELATOR_STATUS_DICT d l st).
  { unfold handleLine, classify. rewrite Hc. unfold bind, lift. rewrite Hd.
    destruct (extract_status_keys _ _ _ Hd) as ((more & Hkeys) & _).
    destruct d as [|kv d]; [discriminate Hkeys|]. reflexivity. }
  rewrite E. exact (correlate_second_status d p l st Hj Hp).
Qed.

Lemma C4_second_record_is_never_merged_witness :
  handleLine sample_secondary_line
    (set_extractor (mkExtractor None (Some sample_primary)) sample_state)
  = (Ok tt, set_extractor (mkExtractor None (Some sample_primary)) sample_state).
Proof.
  exact (proj1 (C4_second_record_is_never_merged sample_secondary_line
                  sample_primary
                  (set_extractor (mkExtractor None (Some sample_primary))
                     sample_state)
                  eq_refl eq_refl) eq_refl).
Defined.

(** ** The coercion of unquoted values *)



(** ** The texts [int] accepts *)









